(** * The EFS file system resource and the retry primitive

    A shallow embedding of [RetryConfigContext] (package aws) and of the
    resource handlers of [internal/service/efs/file_system.go], with the
    properties their specification states. *)

From Stdlib Require Import ZArith String List Lia.
From stdpp Require Import base option list strings gmap.

Set Warnings "-register-all".

Local Open Scope string_scope.
Local Open Scope list_scope.
Local Open Scope Z_scope.

(** ** Go values *)

(** Go's [error] interface.  A possibly-nil error is an [option error];
    [None] is [nil].  The constructors are the concrete error types the
    modelled code creates or inspects. *)
Inductive error : Type :=
  | errorString (s : string)
      (* errors.New, fmt.Errorf *)
  | awsError (code message : string)
      (* awserr.Error of the API client *)
  | NotFoundError (LastError : option error) (Retries : nat)
      (* retry.NotFoundError *)
  | UnexpectedStateError (LastError : option error) (State : string)
                         (ExpectedState : list string)
  | TimeoutError (LastError : option error) (LastState : string)
                 (Timeout : Z) (ExpectedState : list string)
  | EmptyResultError
      (* tfresource.EmptyResultError *)
  | TooManyResultsError (Count : nat)
  | contextError (s : string).
      (* ctx.Err(): context.Canceled or context.DeadlineExceeded *)

(** [time.Duration]: an int64 count of nanoseconds. *)
Definition Duration := Z.

Definition int64 (z : Z) : Prop := - 2 ^ 63 <= z < 2 ^ 63.

(** Two's complement wrap-around of an int64 result. *)
Definition wrap64 (z : Z) : Z := (z + 2 ^ 63) mod 2 ^ 64 - 2 ^ 63.

Definition Millisecond : Duration := 1000000.
Definition Second : Duration := 1000 * Millisecond.
Definition Minute : Duration := 60 * Second.

(** [Duration.Milliseconds]: Go's integer division truncates toward zero. *)
Definition Milliseconds (d : Duration) : Z := Z.quot d 1000000.

(** [rand.Int63n n] on the freshly seeded source.  [raw] is the 63-bit value
    of the source that the call accepts; both branches of the library
    function return it reduced modulo [n]. *)
Definition Int63n (raw n : Z) : Z := raw mod n.

(** ** The wait loop of the plugin SDK

    [StateChangeConf.WaitForStateContext] belongs to the plugin SDK that
    both packages import, not to the repository.  The definitions below
    follow its refresh loop: the counters, the scan of [Target] and
    [Pending], and the three ways a wait ends (a result marked done, a
    result carrying an error, the timeout or the cancellation of the
    context).  The goroutine of the loop and the select that reads its
    results are run in sequence, and the clock is left out: instead of the
    delays between polls, a wait is given the number of polls that complete
    before it gives up. *)

(** A [StateRefreshFunc] run against a store [S]: the result object
    ([None] is nil), the state string and the error. *)
Definition StateRefreshFunc (S R : Type) : Type :=
  S -> (option R * string * option error) * S.

Record StateChangeConf (S R : Type) := {
  Delay : Duration;
  Pending : list string;
  Refresh : StateRefreshFunc S R;
  Target : list string;
  Timeout : Duration;
  MinTimeout : Duration;
  PollInterval : Duration;
  NotFoundChecks : nat;
  ContinuousTargetOccurence : nat
}.
Arguments Delay {S R}.
Arguments Pending {S R}.
Arguments Refresh {S R}.
Arguments Target {S R}.
Arguments Timeout {S R}.
Arguments MinTimeout {S R}.
Arguments PollInterval {S R}.
Arguments NotFoundChecks {S R}.
Arguments ContinuousTargetOccurence {S R}.

(** What the clock grants one wait: the number of [Refresh] calls that
    complete before the wait gives up, and whether it gives up because the
    context was cancelled rather than because [Timeout] elapsed. *)
Record Context := {
  polls : nat;
  cancelled : bool
}.

Definition inSlice (s : string) (l : list string) : bool :=
  existsb (String.eqb s) l.

(** The scan of [Target] inside the refresh loop: every entry equal to the
    current state counts one occurrence; the scan ends the wait as soon as
    the count reaches [ContinuousTargetOccurence].  Returns whether the wait
    is done, whether the state was found, and the count. *)
Fixpoint scanTarget (continuous : nat) (currentState : string)
    (target : list string) (found : bool) (targetOccurence : nat)
    : bool * bool * nat :=
  match target with
  | [] => (false, found, targetOccurence)
  | allowed :: rest =>
      if String.eqb currentState allowed then
        if Nat.eqb continuous (S targetOccurence)
        then (true, true, S targetOccurence)
        else scanTarget continuous currentState rest true (S targetOccurence)
      else scanTarget continuous currentState rest found targetOccurence
  end.

Section WaitForState.
Context {S R : Type}.
Variable conf : StateChangeConf S R.

Definition notFoundChecks : nat :=
  if Nat.eqb (NotFoundChecks conf) 0 then 20%nat else NotFoundChecks conf.

Definition continuousTargetOccurence : nat :=
  if Nat.eqb (ContinuousTargetOccurence conf) 0 then 1%nat
  else ContinuousTargetOccurence conf.

(** The error of a wait that gave up: [ctx.Err()] on cancellation, the
    timeout error otherwise. *)
Definition giveUp (cancel : bool) (lastState : string) : error :=
  if cancel then contextError "context canceled"
  else TimeoutError None lastState (Timeout conf) (Target conf).

(** The refresh loop together with the select loop that reads its
    results, run in sequence: [n] is the number of polls left,
    [lastState] the state of the last result stored. *)
Fixpoint refreshLoop (cancel : bool) (n : nat)
    (notfoundTick targetOccurence : nat) (lastState : string) (s : S)
    : (option R * option error) * S :=
  match n with
  | O => ((None, Some (giveUp cancel lastState)), s)
  | Datatypes.S n' =>
      let '((res, currentState, err), s') := Refresh conf s in
      match err with
      | Some e => ((res, Some e), s')
      | None =>
          match res with
          | None =>
              if Nat.eqb (length (Target conf)) 0 then
                (* waiting for the absence of a thing *)
                if Nat.eqb continuousTargetOccurence
                           (Datatypes.S targetOccurence)
                then ((None, None), s')
                else refreshLoop cancel n' notfoundTick
                       (Datatypes.S targetOccurence) currentState s'
              else if Nat.ltb notFoundChecks (Datatypes.S notfoundTick) then
                ((None, Some (NotFoundError None (Datatypes.S notfoundTick))),
                 s')
              else refreshLoop cancel n' (Datatypes.S notfoundTick)
                     targetOccurence currentState s'
          | Some r =>
              let '(done, found, occ) :=
                scanTarget continuousTargetOccurence currentState
                           (Target conf) false targetOccurence in
              if done then ((Some r, None), s')
              else
                let inPending := inSlice currentState (Pending conf) in
                let occ' := if inPending then O else occ in
                if negb (found || inPending)
                   && negb (Nat.eqb (length (Pending conf)) 0)
                then ((Some r, Some (UnexpectedStateError None currentState
                                       (Target conf))), s')
                else refreshLoop cancel n' O occ' currentState s'
          end
      end
  end.

Definition WaitForStateContext (ctx : Context) (s : S)
    : (option R * option error) * S :=
  refreshLoop (cancelled ctx) (polls ctx) O O "" s.
End WaitForState.

(** ** RetryConfigContext (package aws) *)

(** [resource.RetryError]; a [RetryFunc] returns a pointer to one, [None]
    being the nil pointer. *)
Record RetryError := {
  Err : option error;
  Retryable : bool
}.

Definition RetryFunc (W : Type) : Type := W -> option RetryError * W.

(** The store of the [Refresh] closure: the captured variable [resultErr]
    and the store [f] runs against.  [resultErrMu] is held around every
    access of [resultErr]; the embedding runs the closure and the caller in
    sequence, so taking and releasing the lock change nothing. *)
Definition retryRefresh {W : Type} (f : RetryFunc W)
    : StateRefreshFunc (option error * W) Z :=
  fun '(resultErr, w) =>
    let '(rerr, w') := f w in
    match rerr with
    | None => ((Some 42, "success", None), (None, w'))
    | Some rerr =>
        let resultErr := Err rerr in
        if Retryable rerr
        then ((Some 42, "retryableerror", None), (resultErr, w'))
        else ((None, "quit", Err rerr), (resultErr, w'))
    end.

Definition setDelay {S R} (d : Duration) (c : StateChangeConf S R) :=
  {| Delay := d; Pending := Pending c; Refresh := Refresh c;
     Target := Target c; Timeout := Timeout c; MinTimeout := MinTimeout c;
     PollInterval := PollInterval c; NotFoundChecks := NotFoundChecks c;
     ContinuousTargetOccurence := ContinuousTargetOccurence c |}.

Definition setMinTimeout {S R} (d : Duration) (c : StateChangeConf S R) :=
  {| Delay := Delay c; Pending := Pending c; Refresh := Refresh c;
     Target := Target c; Timeout := Timeout c; MinTimeout := d;
     PollInterval := PollInterval c; NotFoundChecks := NotFoundChecks c;
     ContinuousTargetOccurence := ContinuousTargetOccurence c |}.

Definition setPollInterval {S R} (d : Duration) (c : StateChangeConf S R) :=
  {| Delay := Delay c; Pending := Pending c; Refresh := Refresh c;
     Target := Target c; Timeout := Timeout c; MinTimeout := MinTimeout c;
     PollInterval := d; NotFoundChecks := NotFoundChecks c;
     ContinuousTargetOccurence := ContinuousTargetOccurence c |}.

(** Lines 18-61 of RetryConfigContext: the configuration handed to the wait
    loop.  [raw] is the draw of the random source (see [Int63n]). *)
Definition retryStateChangeConf {W : Type} (raw : Z)
    (delay delayRand minTimeout pollInterval timeout : Duration)
    (f : RetryFunc W) : StateChangeConf (option error * W) Z :=
  let c := {| Delay := 0;
              Pending := ["retryableerror"];
              Refresh := retryRefresh f;
              Target := ["success"];
              Timeout := timeout;
              MinTimeout := 0;
              PollInterval := 0;
              NotFoundChecks := 0;
              ContinuousTargetOccurence := 0 |} in
  let c := if 0 <? Milliseconds delay then setDelay delay c else c in
  let c := if 0 <? Milliseconds delayRand
           then setDelay
                  (wrap64 (Int63n raw (Milliseconds delayRand) * Millisecond)) c
           else c in
  let c := if 0 <? Milliseconds minTimeout then setMinTimeout minTimeout c
           else c in
  let c := if 0 <? Milliseconds pollInterval then setPollInterval pollInterval c
           else c in
  c.

Definition RetryConfigContext {W : Type} (ctx : Context) (raw : Z)
    (delay delayRand minTimeout pollInterval timeout : Duration)
    (f : RetryFunc W) (w : W) : option error * W :=
  let c := retryStateChangeConf raw delay delayRand minTimeout pollInterval
             timeout f in
  let '((_, waitErr), (resultErr, w')) := WaitForStateContext c ctx (None, w) in
  match resultErr with
  | None => (waitErr, w')
  | Some e => (Some e, w')
  end.

(** Instrumentation for stating properties of the calls made: [traced f]
    behaves as [f] and appends each result to a log kept beside the store. *)
Definition traced {W : Type} (f : RetryFunc W)
    : RetryFunc (list (option RetryError) * W) :=
  fun '(log, w) => let '(r, w') := f w in (r, (log ++ [r], w')).

(** A retry function that replays a script and then keeps returning its
    last argument; used to evaluate the model on concrete runs. *)
Definition scripted (dflt : option RetryError)
    : RetryFunc (list (option RetryError)) :=
  fun script => match script with
                | [] => (dflt, [])
                | r :: rest => (r, rest)
                end.


(** ** Values of the configuration (package efs) *)

(** An [interface{}] holding a primitive of the schema.  A float64 is kept
    as its IEEE-754 bit pattern: the handlers only copy it. *)
Inductive prim : Type :=
  | PString (s : string)
  | PBool (b : bool)
  | PInt (z : Z)
  | PFloat (bits : Z).

(** A value of the resource data: a primitive, or a [[]interface{}] of
    nested blocks, each a [map[string]interface{}] or nil. *)
Inductive value : Type :=
  | VPrim (p : prim)
  | VList (l : list (option (gmap string prim))).

#[global] Instance prim_eq_dec : EqDecision prim.
Proof. solve_decision. Defined.
#[global] Instance value_eq_dec : EqDecision value.
Proof. solve_decision. Defined.

Inductive ValueType := TypeBool | TypeInt | TypeFloat | TypeString | TypeList.

#[global] Instance ValueType_eq_dec : EqDecision ValueType.
Proof. solve_decision. Defined.

(** The attributes of [ResourceFileSystem]'s schema, with their types. *)
Definition resourceFileSystemSchema : list (string * ValueType) :=
  [("arn", TypeString); ("availability_zone_id", TypeString);
   ("availability_zone_name", TypeString); ("creation_token", TypeString);
   ("dns_name", TypeString); ("encrypted", TypeBool);
   ("kms_key_id", TypeString); ("lifecycle_policy", TypeList);
   ("name", TypeString); ("number_of_mount_targets", TypeInt);
   ("owner_id", TypeString); ("performance_mode", TypeString);
   ("protection", TypeList); ("provisioned_throughput_in_mibps", TypeFloat);
   ("size_in_bytes", TypeList); ("throughput_mode", TypeString)].

Fixpoint schemaType (schema : list (string * ValueType)) (key : string)
    : option ValueType :=
  match schema with
  | [] => None
  | (k, t) :: rest => if String.eqb k key then Some t else schemaType rest key
  end.

Definition ThroughputModeBursting := "bursting".
Definition ThroughputModeProvisioned := "provisioned".
Definition LifeCycleStateCreating := "creating".
Definition LifeCycleStateUpdating := "updating".
Definition LifeCycleStateAvailable := "available".
Definition LifeCycleStateDeleting := "deleting".
Definition ErrCodeFileSystemNotFound := "FileSystemNotFound".

(** [ValueType.Zero]. *)
Definition zeroValue (t : ValueType) : value :=
  match t with
  | TypeBool => VPrim (PBool false)
  | TypeInt => VPrim (PInt 0)
  | TypeFloat => VPrim (PFloat 0)
  | TypeString => VPrim (PString "")
  | TypeList => VList []
  end.

(** What reading an attribute nobody set yields: the schema's [Default]
    (only "throughput_mode" has one) or the zero value of its type. *)
Definition unsetValue (key : string) : value :=
  if String.eqb key "throughput_mode"
  then VPrim (PString ThroughputModeBursting)
  else match schemaType resourceFileSystemSchema key with
       | Some t => zeroValue t
       | None => VPrim (PString "")
       end.

Definition typeOf (v : value) : ValueType :=
  match v with
  | VPrim (PBool _) => TypeBool
  | VPrim (PInt _) => TypeInt
  | VPrim (PFloat _) => TypeFloat
  | VPrim (PString _) => TypeString
  | VList _ => TypeList
  end.

(** [schema.ResourceData]: the prior state, the planned values (state,
    configuration and diff merged), what [Set] wrote since, the ID and
    the new-resource mark. *)
Record ResourceData := {
  rdState : gmap string value;
  rdPlanned : gmap string value;
  rdSet : gmap string value;
  rdId : string;
  rdIsNew : bool
}.

Definition Id (d : ResourceData) : string := rdId d.

Definition SetId (v : string) (d : ResourceData) : ResourceData :=
  {| rdState := rdState d; rdPlanned := rdPlanned d; rdSet := rdSet d;
     rdId := v; rdIsNew := rdIsNew d |}.

Definition IsNewResource (d : ResourceData) : bool := rdIsNew d.

(** The value of an attribute as written, if it was ever given one. *)
Definition getRaw (d : ResourceData) (key : string) : option value :=
  match rdSet d !! key with
  | Some v => Some v
  | None => rdPlanned d !! key
  end.

Definition Get (d : ResourceData) (key : string) : value :=
  match getRaw d key with
  | Some v => v
  | None => unsetValue key
  end.

(** [GetOk]: the value, and whether it was given and is not the zero value
    of its type. *)
Definition GetOk (d : ResourceData) (key : string) : value * bool :=
  match getRaw d key with
  | Some v => (v, negb (bool_decide (v = zeroValue (typeOf v))))
  | None => (unsetValue key, false)
  end.

(** [HasChange] compares the prior state with the planned value. *)
Definition HasChange (d : ResourceData) (key : string) : bool :=
  let old := default (unsetValue key) (rdState d !! key) in
  let new := default (unsetValue key) (rdPlanned d !! key) in
  negb (bool_decide (old = new)).

Definition HasChanges (d : ResourceData) (keys : list string) : bool :=
  existsb (HasChange d) keys.

(** [Set]: a nil pointer writes the zero value; a value of the wrong type
    or an unknown attribute is an error and writes nothing. *)
Definition Set_ (d : ResourceData) (key : string) (v : option value)
    : option error * ResourceData :=
  match schemaType resourceFileSystemSchema key with
  | None => (Some (errorString "Invalid address to set"), d)
  | Some t =>
      let v := default (zeroValue t) v in
      if bool_decide (typeOf v = t)
      then (None, {| rdState := rdState d; rdPlanned := rdPlanned d;
                     rdSet := <[key := v]> (rdSet d);
                     rdId := rdId d; rdIsNew := rdIsNew d |})
      else (Some (errorString "unexpected type"), d)
  end.

(** Type assertions on attribute values; the schema fixes the type of
    every attribute, so the other branch is never taken on resource data
    the SDK built. *)
Definition asString (v : value) : string :=
  match v with VPrim (PString s) => s | _ => "" end.
Definition asBool (v : value) : bool :=
  match v with VPrim (PBool b) => b | _ => false end.
Definition asFloat64 (v : value) : Z :=
  match v with VPrim (PFloat f) => f | _ => 0 end.
Definition asList (v : value) : list (option (gmap string prim)) :=
  match v with VList l => l | _ => [] end.

(** [tfMap[key].(string)]: the string and whether the assertion held. *)
Definition stringAt (tfMap : gmap string prim) (key : string) : string * bool :=
  match tfMap !! key with
  | Some (PString s) => (s, true)
  | _ => ("", false)
  end.

(** ** Diagnostics *)

Inductive Severity := SeverityError | SeverityWarning.

Inductive fmtArg := ArgString (s : string) | ArgError (e : error).

(** The summary of a diagnostic, kept unrendered: a format with its
    arguments ([AppendErrorf]) or the text of an error ([AppendFromErr]). *)
Inductive Summary :=
  | Errorf (format : string) (args : list fmtArg)
  | ErrorOf (e : error).

Record Diagnostic := {
  severity : Severity;
  summary : Summary
}.

Definition Diagnostics := list Diagnostic.

Definition AppendErrorf (diags : Diagnostics) (format : string)
    (args : list fmtArg) : Diagnostics :=
  diags ++ [{| severity := SeverityError; summary := Errorf format args |}].

Definition AppendFromErr (diags : Diagnostics) (err : option error)
    : Diagnostics :=
  match err with
  | None => diags
  | Some e => diags ++ [{| severity := SeverityError; summary := ErrorOf e |}]
  end.

Definition HasError (diags : Diagnostics) : bool :=
  existsb (fun dg => match severity dg with SeverityError => true
                                      | SeverityWarning => false end) diags.

(** ** The API structures (aws-sdk-go, service/efs) *)

(** Pointer fields are options; [aws.StringValue] and [aws.Int64Value]
    read a nil pointer as the zero value. *)
Definition StringValue (p : option string) : string := default "" p.
Definition Int64Value (p : option Z) : Z := default 0 p.

Definition Tag : Type := string * string.

Module LifecyclePolicy.
Record t := {
  TransitionToArchive : option string;
  TransitionToIA : option string;
  TransitionToPrimaryStorageClass : option string
}.
End LifecyclePolicy.

Module FileSystemSize.
Record t := {
  Value : option Z;
  ValueInIA : option Z;
  ValueInStandard : option Z
}.
End FileSystemSize.

Module FileSystemProtectionDescription.
Record t := {
  ReplicationOverwriteProtection : option string
}.
End FileSystemProtectionDescription.

Module FileSystemDescription.
Record t := {
  AvailabilityZoneId : option string;
  AvailabilityZoneName : option string;
  CreationToken : option string;
  Encrypted : option bool;
  FileSystemArn : option string;
  FileSystemId : option string;
  FileSystemProtection : option FileSystemProtectionDescription.t;
  KmsKeyId : option string;
  LifeCycleState : option string;
  Name : option string;
  NumberOfMountTargets : option Z;
  OwnerId : option string;
  PerformanceMode : option string;
  ProvisionedThroughputInMibps : option Z;
  SizeInBytes : option FileSystemSize.t;
  Tags : list Tag;
  ThroughputMode : option string
}.
End FileSystemDescription.

Module CreateFileSystemInput.
Record t := {
  AvailabilityZoneName : option string;
  CreationToken : option string;
  Encrypted : option bool;
  KmsKeyId : option string;
  PerformanceMode : option string;
  ProvisionedThroughputInMibps : option Z;
  Tags : list Tag;
  ThroughputMode : option string
}.
End CreateFileSystemInput.

Module UpdateFileSystemInput.
Record t := {
  FileSystemId : option string;
  ProvisionedThroughputInMibps : option Z;
  ThroughputMode : option string
}.
End UpdateFileSystemInput.

Module UpdateFileSystemProtectionInput.
Record t := {
  FileSystemId : option string;
  ReplicationOverwriteProtection : option string
}.
End UpdateFileSystemProtectionInput.

Module PutLifecycleConfigurationInput.
(** [LifecyclePolicies] is a slice: [None] is the nil slice, which the
    client rejects as a missing required field. *)
Record t := {
  FileSystemId : option string;
  LifecyclePolicies : option (list (option LifecyclePolicy.t))
}.
End PutLifecycleConfigurationInput.

Module DescribeFileSystemsInput.
Record t := {
  CreationToken : option string;
  FileSystemId : option string
}.
End DescribeFileSystemsInput.

Module DescribeFileSystemsOutput.
Record t := {
  FileSystems : list (option FileSystemDescription.t)
}.
End DescribeFileSystemsOutput.

(** An (output, err) pair of the API client: the output when err is nil. *)
Inductive result (A : Type) : Type :=
  | Success (a : A)
  | Failure (e : error).
Arguments Success {A}.
Arguments Failure {A}.

Definition errOf {A} (r : result A) : option error :=
  match r with Success _ => None | Failure e => Some e end.

(** The operations of the [efs.EFS] client the resource uses, run against the remote
    side [W].  The paginated describe returns the pages it delivered to the
    callback and the error that ended it, if any. *)
Record EFS (W : Type) := {
  CreateFileSystemWithContext :
    CreateFileSystemInput.t -> W -> result FileSystemDescription.t * W;
  DeleteFileSystemWithContext :
    string -> W -> option error * W;
  DescribeFileSystemsPagesWithContext :
    DescribeFileSystemsInput.t -> W ->
    (list (option DescribeFileSystemsOutput.t) * option error) * W;
  DescribeLifecycleConfigurationWithContext :
    string -> W -> result (list (option LifecyclePolicy.t)) * W;
  PutLifecycleConfigurationWithContext :
    PutLifecycleConfigurationInput.t -> W -> option error * W;
  UpdateFileSystemWithContext :
    UpdateFileSystemInput.t -> W -> option error * W;
  UpdateFileSystemProtectionWithContext :
    option UpdateFileSystemProtectionInput.t -> W -> option error * W
}.
Arguments CreateFileSystemWithContext {W}.
Arguments DeleteFileSystemWithContext {W}.
Arguments DescribeFileSystemsPagesWithContext {W}.
Arguments DescribeLifecycleConfigurationWithContext {W}.
Arguments PutLifecycleConfigurationWithContext {W}.
Arguments UpdateFileSystemWithContext {W}.
Arguments UpdateFileSystemProtectionWithContext {W}.

(** The [conns.AWSClient] behind [meta], together with what the handlers take from
    their surroundings: [id.UniqueId] and the tags [getTagsIn] finds in the
    context. *)
Record AWSClient (W : Type) := {
  EFSConn : EFS W;
  Region : string;
  DNSSuffix : string;
  UniqueId : W -> string * W;
  getTagsIn : list Tag
}.
Arguments EFSConn {W}.
Arguments Region {W}.
Arguments DNSSuffix {W}.
Arguments UniqueId {W}.
Arguments getTagsIn {W}.

(** Modelled from the spec: [AWSClient.RegionalHostname] (internal/conns)
    is not under src/; the host name is the prefix followed by the region
    and the DNS suffix of the partition. *)
Definition RegionalHostname {W} (meta : AWSClient W) (prefix : string)
    : string :=
  (prefix ++ "." ++ Region meta ++ "." ++ DNSSuffix meta)%string.

(** The requests a handler sent, in order. *)
Inductive ApiCall :=
  | CallCreateFileSystem (input : CreateFileSystemInput.t)
  | CallDeleteFileSystem (fileSystemId : string)
  | CallDescribeFileSystems (input : DescribeFileSystemsInput.t)
  | CallDescribeLifecycleConfiguration (fileSystemId : string)
  | CallPutLifecycleConfiguration (input : PutLifecycleConfigurationInput.t)
  | CallUpdateFileSystem (input : UpdateFileSystemInput.t)
  | CallUpdateFileSystemProtection
      (input : option UpdateFileSystemProtectionInput.t).

(** The store a handler runs against: the remote side, the log of the
    requests sent, and the tags [setTagsOut] left in the context. *)
Record Store (W : Type) := {
  world : W;
  calls : list ApiCall;
  tagsOut : list Tag
}.
Arguments world {W}.
Arguments calls {W}.
Arguments tagsOut {W}.

(** Sending one request: run the operation and log the call. *)
Definition invoke {W A} (c : ApiCall) (op : W -> A * W) (s : Store W)
    : A * Store W :=
  let '(a, w') := op (world s) in
  (a, {| world := w'; calls := calls s ++ [c]; tagsOut := tagsOut s |}).

Definition setTagsOut {W} (tags : list Tag) (s : Store W) : Store W :=
  {| world := world s; calls := calls s; tagsOut := tags |}.

(** ** Errors *)

(** [tfawserr.ErrCodeEquals]: some error in the chain is an API error with
    this code.  The wait errors unwrap to their [LastError]. *)
Fixpoint errCodeEquals (e : error) (code : string) : bool :=
  match e with
  | awsError c _ => String.eqb c code
  | NotFoundError (Some e') _ => errCodeEquals e' code
  | UnexpectedStateError (Some e') _ _ => errCodeEquals e' code
  | TimeoutError (Some e') _ _ _ => errCodeEquals e' code
  | _ => false
  end.

Definition ErrCodeEquals (err : option error) (code : string) : bool :=
  match err with
  | Some e => errCodeEquals e code
  | None => false
  end.

(** Modelled from the spec: [tfresource.NotFound] (internal/tfresource) is
    not under src/; it reports the errors that say the remote object does
    not exist: a [retry.NotFoundError] in the chain, or the empty-result
    and too-many-results errors, which present themselves as one. *)
Fixpoint notFound (e : error) : bool :=
  match e with
  | NotFoundError _ _ => true
  | EmptyResultError => true
  | TooManyResultsError _ => true
  | UnexpectedStateError (Some e') _ _ => notFound e'
  | TimeoutError (Some e') _ _ _ => notFound e'
  | _ => false
  end.

Definition NotFound (err : option error) : bool :=
  match err with
  | Some e => notFound e
  | None => false
  end.

(** Modelled from the spec: [tfresource.AssertSinglePtrResult]
    (internal/tfresource) is not under src/; it returns the only element of
    the slice and fails on an empty slice, a nil element or several
    elements. *)
Definition AssertSinglePtrResult {A} (a : list (option A)) : result A :=
  match a with
  | [] => Failure EmptyResultError
  | [Some x] => Success x
  | [None] => Failure EmptyResultError
  | _ => Failure (TooManyResultsError (length a))
  end.

(** ** Finding a file system *)

(** The paginator: the callback sees each page with the last-page mark and
    says whether to go on. *)
Fixpoint eachPage {P A} (fn : A -> option P -> bool -> A * bool)
    (pages : list (option P)) (acc : A) : A :=
  match pages with
  | [] => acc
  | page :: rest =>
      let lastPage := match rest with [] => true | _ => false end in
      let '(acc, more) := fn acc page lastPage in
      if more then eachPage fn rest acc else acc
  end.

Definition findFileSystems {W} (conn : EFS W)
    (input : DescribeFileSystemsInput.t)
    (filter : FileSystemDescription.t -> bool) (s : Store W)
    : result (list (option FileSystemDescription.t)) * Store W :=
  let '((pages, err), s) :=
    invoke (CallDescribeFileSystems input)
           (DescribeFileSystemsPagesWithContext conn input) s in
  let output :=
    eachPage
      (fun output page lastPage =>
         match page with
         | None => (output, negb lastPage)
         | Some page =>
             (fold_left
                (fun output v =>
                   match v with
                   | Some fs => if filter fs then output ++ [Some fs]
                                else output
                   | None => output
                   end)
                (DescribeFileSystemsOutput.FileSystems page) output,
              negb lastPage)
         end)
      pages [] in
  if ErrCodeEquals err ErrCodeFileSystemNotFound then
    (Failure (NotFoundError err 0), s)
  else match err with
       | Some e => (Failure e, s)
       | None => (Success output, s)
       end.

Definition findFileSystem {W} (conn : EFS W)
    (input : DescribeFileSystemsInput.t)
    (filter : FileSystemDescription.t -> bool) (s : Store W)
    : result FileSystemDescription.t * Store W :=
  let '(output, s) := findFileSystems conn input filter s in
  match output with
  | Failure err => (Failure err, s)
  | Success output => (AssertSinglePtrResult output, s)
  end.

Definition FindFileSystemByID {W} (conn : EFS W) (id : string) (s : Store W)
    : result FileSystemDescription.t * Store W :=
  let input := {| DescribeFileSystemsInput.CreationToken := None;
                  DescribeFileSystemsInput.FileSystemId := Some id |} in
  findFileSystem conn input (fun _ => true) s.

Definition statusFileSystemLifeCycleState {W} (conn : EFS W) (id : string)
    : StateRefreshFunc (Store W) FileSystemDescription.t :=
  fun s =>
    let '(output, s) := FindFileSystemByID conn id s in
    match output with
    | Failure err =>
        if notFound err then ((None, "", None), s)
        else ((None, "", Some err), s)
    | Success output =>
        ((Some output,
          StringValue (FileSystemDescription.LifeCycleState output), None), s)
    end.

(** ** Waiting for a life cycle state *)

Definition fileSystemAvailableTimeout : Duration := 10 * Minute.
Definition fileSystemAvailableDelayTimeout : Duration := 2 * Second.
Definition fileSystemAvailableMinTimeout : Duration := 3 * Second.
Definition fileSystemDeletedTimeout : Duration := 10 * Minute.
Definition fileSystemDeletedDelayTimeout : Duration := 2 * Second.
Definition fileSystemDeletedMinTimeout : Duration := 3 * Second.

(** The [stateConf] of waitFileSystemAvailable, over its [Refresh]. *)
Definition fileSystemAvailableStateConf {S}
    (refresh : StateRefreshFunc S FileSystemDescription.t)
    : StateChangeConf S FileSystemDescription.t :=
  {| Pending := [LifeCycleStateCreating; LifeCycleStateUpdating];
     Target := [LifeCycleStateAvailable];
     Refresh := refresh;
     Timeout := fileSystemAvailableTimeout;
     Delay := fileSystemAvailableDelayTimeout;
     MinTimeout := fileSystemAvailableMinTimeout;
     PollInterval := 0; NotFoundChecks := 0;
     ContinuousTargetOccurence := 0 |}.

Definition waitFileSystemAvailable {W} (ctx : Context) (conn : EFS W)
    (fileSystemID : string) (s : Store W)
    : (option FileSystemDescription.t * option error) * Store W :=
  let stateConf :=
    fileSystemAvailableStateConf
      (statusFileSystemLifeCycleState conn fileSystemID) in
  let '((outputRaw, err), s) := WaitForStateContext stateConf ctx s in
  match outputRaw with
  | Some output => ((Some output, err), s)
  | None => ((None, err), s)
  end.

(** The [stateConf] of waitFileSystemDeleted, over its [Refresh]. *)
Definition fileSystemDeletedStateConf {S}
    (refresh : StateRefreshFunc S FileSystemDescription.t)
    : StateChangeConf S FileSystemDescription.t :=
  {| Pending := [LifeCycleStateAvailable; LifeCycleStateDeleting];
     Target := [];
     Refresh := refresh;
     Timeout := fileSystemDeletedTimeout;
     Delay := fileSystemDeletedDelayTimeout;
     MinTimeout := fileSystemDeletedMinTimeout;
     PollInterval := 0; NotFoundChecks := 0;
     ContinuousTargetOccurence := 0 |}.

Definition waitFileSystemDeleted {W} (ctx : Context) (conn : EFS W)
    (fileSystemID : string) (s : Store W)
    : (option FileSystemDescription.t * option error) * Store W :=
  let stateConf :=
    fileSystemDeletedStateConf
      (statusFileSystemLifeCycleState conn fileSystemID) in
  let '((outputRaw, err), s) := WaitForStateContext stateConf ctx s in
  match outputRaw with
  | Some output => ((Some output, err), s)
  | None => ((None, err), s)
  end.

(** Instrumentation for stating what a wait observed: the refresh function
    that also appends each of its results to a log kept beside the store. *)
Definition tracedRefresh {S R} (refresh : StateRefreshFunc S R)
    : StateRefreshFunc (list (option R * string * option error) * S) R :=
  fun '(log, s) => let '(r, s') := refresh s in (r, (log ++ [r], s')).

(** ** Flatteners and expanders *)

Definition flattenFileSystemLifecyclePolicies
    (apiObjects : list (option LifecyclePolicy.t))
    : list (option (gmap string prim)) :=
  fold_left
    (fun tfList apiObject =>
       match apiObject with
       | None => tfList
       | Some apiObject =>
           let tfMap : gmap string prim := ∅ in
           let tfMap :=
             match LifecyclePolicy.TransitionToArchive apiObject with
             | Some v => <["transition_to_archive" := PString v]> tfMap
             | None => tfMap
             end in
           let tfMap :=
             match LifecyclePolicy.TransitionToIA apiObject with
             | Some v => <["transition_to_ia" := PString v]> tfMap
             | None => tfMap
             end in
           let tfMap :=
             match LifecyclePolicy.TransitionToPrimaryStorageClass apiObject with
             | Some v =>
                 <["transition_to_primary_storage_class" := PString v]> tfMap
             | None => tfMap
             end in
           tfList ++ [Some tfMap]
       end)
    apiObjects [].

(** [v, ok := tfMap[key].(string); ok && v != ""]. *)
Definition nonEmptyStringAt (tfMap : gmap string prim) (key : string)
    : option string :=
  let '(v, ok) := stringAt tfMap key in
  if ok && negb (String.eqb v "") then Some v else None.

Definition expandFileSystemLifecyclePolicies
    (tfList : list (option (gmap string prim)))
    : list (option LifecyclePolicy.t) :=
  fold_left
    (fun apiObjects tfMapRaw =>
       match tfMapRaw with
       | None => apiObjects
       | Some tfMap =>
           let apiObject :=
             {| LifecyclePolicy.TransitionToArchive :=
                  nonEmptyStringAt tfMap "transition_to_archive";
                LifecyclePolicy.TransitionToIA :=
                  nonEmptyStringAt tfMap "transition_to_ia";
                LifecyclePolicy.TransitionToPrimaryStorageClass :=
                  nonEmptyStringAt tfMap
                    "transition_to_primary_storage_class" |} in
           apiObjects ++ [Some apiObject]
       end)
    tfList [].

Definition flattenFileSystemSizeInBytes (sizeInBytes : option FileSystemSize.t)
    : list (option (gmap string prim)) :=
  match sizeInBytes with
  | None => []
  | Some sizeInBytes =>
      let m : gmap string prim :=
        {[ "value" := PInt (Int64Value (FileSystemSize.Value sizeInBytes)) ]} in
      let m :=
        match FileSystemSize.ValueInIA sizeInBytes with
        | Some v => <["value_in_ia" := PInt v]> m
        | None => m
        end in
      let m :=
        match FileSystemSize.ValueInStandard sizeInBytes with
        | Some v => <["value_in_standard" := PInt v]> m
        | None => m
        end in
      [Some m]
  end.

Definition expandUpdateFileSystemProtectionInput (id : string)
    (tfMap : option (gmap string prim))
    : option UpdateFileSystemProtectionInput.t :=
  match tfMap with
  | None => None
  | Some tfMap =>
      Some {| UpdateFileSystemProtectionInput.FileSystemId := Some id;
              UpdateFileSystemProtectionInput.ReplicationOverwriteProtection :=
                nonEmptyStringAt tfMap "replication_overwrite" |}
  end.

Definition flattenFileSystemProtection
    (protection : option FileSystemProtectionDescription.t)
    : list (option (gmap string prim)) :=
  match protection with
  | None => []
  | Some protection =>
      let tfMap : gmap string prim := ∅ in
      let tfMap :=
        match FileSystemProtectionDescription.ReplicationOverwriteProtection
                protection with
        | Some v => <["replication_overwrite" := PString v]> tfMap
        | None => tfMap
        end in
      [Some tfMap]
  end.

(** ** The resource handlers *)

Definition vString (p : option string) : option value :=
  (fun s => VPrim (PString s)) <$> p.

(** A slice built by appending to a nil slice: nil when nothing was
    appended. *)
Definition sliceOf {A} (l : list A) : option (list A) :=
  match l with [] => None | _ => Some l end.

Definition resourceFileSystemRead {W} (ctx : Context) (d : ResourceData)
    (meta : AWSClient W) (s : Store W) : (Diagnostics * ResourceData) * Store W :=
  let diags : Diagnostics := [] in
  let conn := EFSConn meta in
  let '(found, s) := FindFileSystemByID conn (Id d) s in
  if negb (IsNewResource d) && NotFound (errOf found) then
    ((diags, SetId "" d), s)
  else
  match found with
  | Failure err =>
      ((AppendErrorf diags "reading EFS file system (%s): %s"
          [ArgString (Id d); ArgError err], d), s)
  | Success fs =>
  let d := snd (Set_ d "arn" (vString (FileSystemDescription.FileSystemArn fs))) in
  let d := snd (Set_ d "availability_zone_id"
                  (vString (FileSystemDescription.AvailabilityZoneId fs))) in
  let d := snd (Set_ d "availability_zone_name"
                  (vString (FileSystemDescription.AvailabilityZoneName fs))) in
  let d := snd (Set_ d "creation_token"
                  (vString (FileSystemDescription.CreationToken fs))) in
  let d := snd (Set_ d "dns_name"
                  (vString (Some (RegionalHostname meta
                     (StringValue (FileSystemDescription.FileSystemId fs)
                        ++ ".efs")%string)))) in
  let d := snd (Set_ d "encrypted"
                  ((fun b => VPrim (PBool b))
                     <$> FileSystemDescription.Encrypted fs)) in
  let d := snd (Set_ d "kms_key_id"
                  (vString (FileSystemDescription.KmsKeyId fs))) in
  let d := snd (Set_ d "name" (vString (FileSystemDescription.Name fs))) in
  let d := snd (Set_ d "number_of_mount_targets"
                  ((fun z => VPrim (PInt z))
                     <$> FileSystemDescription.NumberOfMountTargets fs)) in
  let d := snd (Set_ d "owner_id" (vString (FileSystemDescription.OwnerId fs))) in
  let d := snd (Set_ d "performance_mode"
                  (vString (FileSystemDescription.PerformanceMode fs))) in
  match Set_ d "protection"
          (Some (VList (flattenFileSystemProtection
                          (FileSystemDescription.FileSystemProtection fs)))) with
  | (Some err, d) =>
      ((AppendErrorf diags "setting protection: %s" [ArgError err], d), s)
  | (None, d) =>
  let d := snd (Set_ d "provisioned_throughput_in_mibps"
                  ((fun f => VPrim (PFloat f))
                     <$> FileSystemDescription.ProvisionedThroughputInMibps fs)) in
  match Set_ d "size_in_bytes"
          (Some (VList (flattenFileSystemSizeInBytes
                          (FileSystemDescription.SizeInBytes fs)))) with
  | (Some err, d) =>
      ((AppendErrorf diags "setting size_in_bytes: %s" [ArgError err], d), s)
  | (None, d) =>
  let d := snd (Set_ d "throughput_mode"
                  (vString (FileSystemDescription.ThroughputMode fs))) in
  let s := setTagsOut (FileSystemDescription.Tags fs) s in
  let '(output, s) :=
    invoke (CallDescribeLifecycleConfiguration (Id d))
           (DescribeLifecycleConfigurationWithContext conn (Id d)) s in
  match output with
  | Failure err =>
      ((AppendErrorf diags
          "reading EFS file system (%s) lifecycle configuration: %s"
          [ArgString (Id d); ArgError err], d), s)
  | Success lifecyclePolicies =>
  match Set_ d "lifecycle_policy"
          (Some (VList (flattenFileSystemLifecyclePolicies
                          lifecyclePolicies))) with
  | (Some err, d) =>
      ((AppendErrorf diags "setting lifecycle_policy: %s" [ArgError err], d), s)
  | (None, d) => ((diags, d), s)
  end end end end end.

(** Lines 188-193 of resourceFileSystemCreate: the configured token, or a
    unique ID. *)
Definition creationTokenOf {W} (d : ResourceData) (meta : AWSClient W)
    (s : Store W) : string * Store W :=
  match GetOk d "creation_token" with
  | (v, true) => (asString v, s)
  | (_, false) =>
      let '(u, w) := UniqueId meta (world s) in
      (u, {| world := w; calls := calls s; tagsOut := tagsOut s |})
  end.

(** Lines 194-222 of resourceFileSystemCreate: the request.  Each optional
    field is assigned at most once, under the condition written here. *)
Definition createFileSystemInput (creationToken : string) (tags : list Tag)
    (d : ResourceData) : CreateFileSystemInput.t :=
  let throughputMode := asString (Get d "throughput_mode") in
  let '(encrypted, hasEncrypted) := GetOk d "encrypted" in
  let '(kmsKeyId, hasKmsKeyId) := GetOk d "kms_key_id" in
  {| CreateFileSystemInput.CreationToken := Some creationToken;
     CreateFileSystemInput.Tags := tags;
     CreateFileSystemInput.ThroughputMode := Some throughputMode;
     CreateFileSystemInput.AvailabilityZoneName :=
       match GetOk d "availability_zone_name" with
       | (v, true) => Some (asString v)
       | (_, false) => None
       end;
     CreateFileSystemInput.PerformanceMode :=
       match GetOk d "performance_mode" with
       | (v, true) => Some (asString v)
       | (_, false) => None
       end;
     CreateFileSystemInput.ProvisionedThroughputInMibps :=
       if String.eqb throughputMode ThroughputModeProvisioned
       then Some (asFloat64 (Get d "provisioned_throughput_in_mibps"))
       else None;
     CreateFileSystemInput.Encrypted :=
       if hasEncrypted then Some (asBool encrypted) else None;
     CreateFileSystemInput.KmsKeyId :=
       if hasKmsKeyId then Some (asString kmsKeyId) else None |}.

(** The [protection] block to send, when there is one:
    [ok && len(v) > 0 && v[0] != nil]. *)
Definition protectionBlock (d : ResourceData) : option (gmap string prim) :=
  match GetOk d "protection" with
  | (v, true) =>
      match asList v with
      | Some tfMap :: _ => Some tfMap
      | _ => None
      end
  | (_, false) => None
  end.

Definition resourceFileSystemCreate {W} (ctx : Context) (d : ResourceData)
    (meta : AWSClient W) (s : Store W) : (Diagnostics * ResourceData) * Store W :=
  let diags : Diagnostics := [] in
  let conn := EFSConn meta in
  let '(creationToken, s) := creationTokenOf d meta s in
  let input := createFileSystemInput creationToken (getTagsIn meta) d in
  let '(encrypted, hasEncrypted) := GetOk d "encrypted" in
  let '(kmsKeyId, hasKmsKeyId) := GetOk d "kms_key_id" in
  if bool_decide (encrypted = VPrim (PBool false)) && hasKmsKeyId then
    ((AppendFromErr diags
        (Some (errorString
                 "encrypted must be set to true when kms_key_id is specified")),
      d), s)
  else
  let '(output, s) :=
    invoke (CallCreateFileSystem input)
           (CreateFileSystemWithContext conn input) s in
  match output with
  | Failure err =>
      ((AppendErrorf diags "creating EFS file system: %s" [ArgError err], d), s)
  | Success output =>
  let d := SetId (StringValue (FileSystemDescription.FileSystemId output)) d in
  let '((_, err), s) := waitFileSystemAvailable ctx conn (Id d) s in
  match err with
  | Some err =>
      ((AppendErrorf diags "waiting for EFS file system (%s) create: %s"
          [ArgString (Id d); ArgError err], d), s)
  | None =>
  let '(err, s) :=
    match GetOk d "lifecycle_policy" with
    | (v, true) =>
        let input :=
          {| PutLifecycleConfigurationInput.FileSystemId := Some (Id d);
             PutLifecycleConfigurationInput.LifecyclePolicies :=
               sliceOf (expandFileSystemLifecyclePolicies (asList v)) |} in
        invoke (CallPutLifecycleConfiguration input)
               (PutLifecycleConfigurationWithContext conn input) s
    | (_, false) => (None, s)
    end in
  match err with
  | Some err =>
      ((AppendErrorf diags
          "putting EFS file system (%s) lifecycle configuration: %s"
          [ArgString (Id d); ArgError err], d), s)
  | None =>
  let '(err, s) :=
    match protectionBlock d with
    | Some tfMap =>
        let input := expandUpdateFileSystemProtectionInput (Id d) (Some tfMap) in
        invoke (CallUpdateFileSystemProtection input)
               (UpdateFileSystemProtectionWithContext conn input) s
    | None => (None, s)
    end in
  match err with
  | Some err =>
      ((AppendErrorf diags "updating EFS file system (%s) protection: %s"
          [ArgString (Id d); ArgError err], d), s)
  | None =>
  let '((diags', d), s) := resourceFileSystemRead ctx d meta s in
  ((diags ++ diags', d), s)
  end end end end.

(** Lines 326-334 of resourceFileSystemUpdate: the request. *)
Definition updateFileSystemInput (d : ResourceData) : UpdateFileSystemInput.t :=
  let throughputMode := asString (Get d "throughput_mode") in
  {| UpdateFileSystemInput.FileSystemId := Some (Id d);
     UpdateFileSystemInput.ThroughputMode := Some throughputMode;
     UpdateFileSystemInput.ProvisionedThroughputInMibps :=
       if String.eqb throughputMode ThroughputModeProvisioned
       then Some (asFloat64 (Get d "provisioned_throughput_in_mibps"))
       else None |}.

Definition resourceFileSystemUpdate {W} (ctx : Context) (d : ResourceData)
    (meta : AWSClient W) (s : Store W) : (Diagnostics * ResourceData) * Store W :=
  let diags : Diagnostics := [] in
  let conn := EFSConn meta in
  let '(diags1, s) :=
    if HasChanges d ["provisioned_throughput_in_mibps"; "throughput_mode"] then
      let input := updateFileSystemInput d in
      let '(err, s) :=
        invoke (CallUpdateFileSystem input)
               (UpdateFileSystemWithContext conn input) s in
      match err with
      | Some err =>
          (Some (AppendErrorf diags "updating EFS file system (%s): %s"
                   [ArgString (Id d); ArgError err]), s)
      | None =>
          let '((_, err), s) := waitFileSystemAvailable ctx conn (Id d) s in
          match err with
          | Some err =>
              (Some (AppendErrorf diags
                       "waiting for EFS file system (%s) update: %s"
                       [ArgString (Id d); ArgError err]), s)
          | None => (None, s)
          end
      end
    else (None, s) in
  match diags1 with
  | Some diags => ((diags, d), s)
  | None =>
  let '(diags2, s) :=
    if HasChange d "lifecycle_policy" then
      let policies :=
        sliceOf (expandFileSystemLifecyclePolicies
                   (asList (Get d "lifecycle_policy"))) in
      let input :=
        {| PutLifecycleConfigurationInput.FileSystemId := Some (Id d);
           PutLifecycleConfigurationInput.LifecyclePolicies :=
             match policies with
             | None => Some []
             | Some l => Some l
             end |} in
      let '(err, s) :=
        invoke (CallPutLifecycleConfiguration input)
               (PutLifecycleConfigurationWithContext conn input) s in
      match err with
      | Some err =>
          (Some (AppendErrorf diags
                   "putting EFS file system (%s) lifecycle configuration: %s"
                   [ArgString (Id d); ArgError err]), s)
      | None => (None, s)
      end
    else (None, s) in
  match diags2 with
  | Some diags => ((diags, d), s)
  | None =>
  let '(diags3, s) :=
    if HasChanges d ["protection"] then
      match protectionBlock d with
      | Some tfMap =>
          let input :=
            expandUpdateFileSystemProtectionInput (Id d) (Some tfMap) in
          let '(err, s) :=
            invoke (CallUpdateFileSystemProtection input)
                   (UpdateFileSystemProtectionWithContext conn input) s in
          match err with
          | Some err =>
              (Some (AppendErrorf diags
                       "updating EFS file system (%s) protection: %s"
                       [ArgString (Id d); ArgError err]), s)
          | None => (None, s)
          end
      | None => (None, s)
      end
    else (None, s) in
  match diags3 with
  | Some diags => ((diags, d), s)
  | None =>
  let '((diags', d), s) := resourceFileSystemRead ctx d meta s in
  ((diags ++ diags', d), s)
  end end end.

Definition resourceFileSystemDelete {W} (ctx : Context) (d : ResourceData)
    (meta : AWSClient W) (s : Store W) : (Diagnostics * ResourceData) * Store W :=
  let diags : Diagnostics := [] in
  let conn := EFSConn meta in
  let '(err, s) :=
    invoke (CallDeleteFileSystem (Id d))
           (DeleteFileSystemWithContext conn (Id d)) s in
  if ErrCodeEquals err ErrCodeFileSystemNotFound then ((diags, d), s)
  else
  match err with
  | Some err =>
      ((AppendErrorf diags "deleting EFS file system (%s): %s"
          [ArgString (Id d); ArgError err], d), s)
  | None =>
  let '((_, err), s) := waitFileSystemDeleted ctx conn (Id d) s in
  match err with
  | Some err =>
      ((AppendErrorf diags "waiting for EFS file system (%s) delete: %s"
          [ArgString (Id d); ArgError err], d), s)
  | None => ((diags, d), s)
  end end.

(** ** A scripted remote side, for evaluating the handlers on concrete runs *)

(** A description holding only an ID and a life cycle state. *)
Definition fileSystemIn (id state : string) : FileSystemDescription.t :=
  {| FileSystemDescription.AvailabilityZoneId := None;
     FileSystemDescription.AvailabilityZoneName := None;
     FileSystemDescription.CreationToken := None;
     FileSystemDescription.Encrypted := None;
     FileSystemDescription.FileSystemArn := None;
     FileSystemDescription.FileSystemId := Some id;
     FileSystemDescription.FileSystemProtection := None;
     FileSystemDescription.KmsKeyId := None;
     FileSystemDescription.LifeCycleState := Some state;
     FileSystemDescription.Name := None;
     FileSystemDescription.NumberOfMountTargets := None;
     FileSystemDescription.OwnerId := None;
     FileSystemDescription.PerformanceMode := None;
     FileSystemDescription.ProvisionedThroughputInMibps := None;
     FileSystemDescription.SizeInBytes := None;
     FileSystemDescription.Tags := [];
     FileSystemDescription.ThroughputMode := None |}.

(** The remote side as a script: the error the next delete returns, and
    the life cycle states the successive describe calls report ([None]: the
    file system is not found).  Once the script is used up the file system
    is not found. *)
Record Script := {
  deleteError : option error;
  states : list (option string)
}.

Definition fileSystemNotFound : error :=
  awsError ErrCodeFileSystemNotFound "file system does not exist".

Definition scriptedEFS : EFS Script :=
  {| CreateFileSystemWithContext := fun input w =>
       (Success (fileSystemIn "fs-1" LifeCycleStateCreating), w);
     DeleteFileSystemWithContext := fun id w => (deleteError w, w);
     DescribeFileSystemsPagesWithContext := fun input w =>
       match states w with
       | Some state :: rest =>
           (([Some {| DescribeFileSystemsOutput.FileSystems :=
                        [Some (fileSystemIn
                                 (StringValue
                                    (DescribeFileSystemsInput.FileSystemId input))
                                 state)] |}],
             None),
            {| deleteError := deleteError w; states := rest |})
       | None :: rest =>
           (([], Some fileSystemNotFound),
            {| deleteError := deleteError w; states := rest |})
       | [] => (([], Some fileSystemNotFound), w)
       end;
     DescribeLifecycleConfigurationWithContext := fun id w => (Success [], w);
     PutLifecycleConfigurationWithContext := fun input w => (None, w);
     UpdateFileSystemWithContext := fun input w => (None, w);
     UpdateFileSystemProtectionWithContext := fun input w => (None, w) |}.

Definition scriptedClient : AWSClient Script :=
  {| EFSConn := scriptedEFS;
     Region := "us-east-1";
     DNSSuffix := "amazonaws.com";
     UniqueId := fun w => ("terraform-20240101000000000000000001", w);
     getTagsIn := [] |}.

Definition scriptedStore (deleteErr : option error)
    (sts : list (option string)) : Store Script :=
  {| world := {| deleteError := deleteErr; states := sts |};
     calls := []; tagsOut := [] |}.

(** Resource data holding only planned values. *)
Definition plannedData (id : string) (isNew : bool)
    (planned : list (string * value)) : ResourceData :=
  {| rdState := ∅; rdPlanned := list_to_map planned; rdSet := ∅;
     rdId := id; rdIsNew := isNew |}.

(** ** Predicates used to state the properties of the retry loop *)

(** A result of [f] that asks for another try. *)
Definition isRetryable (o : option RetryError) : Prop :=
  exists rr, o = Some rr /\ Retryable rr = true.

(** What a run of the loop over [traced f] leaves behind: [new] are the
    results of the calls it made, [waitErr] the error of the wait and
    [resultErr'] the captured variable at the end. *)
Definition retryPost {W : Type} (f : RetryFunc W) (raw : Z)
    (delay delayRand minTimeout pollInterval timeout : Duration)
    (cancel : bool) (n : nat) (lastState : string)
    (resultErr : option error) (new : list (option RetryError))
    (waitErr resultErr' : option error) : Prop :=
  (length new <= n)%nat /\
  (waitErr = None <-> None ∈ new) /\
  (waitErr = None -> resultErr' = None) /\
  (forall i e, new !! i = Some (Some {| Err := Some e; Retryable := false |}) ->
     S i = length new /\ waitErr = Some e /\ resultErr' = Some e) /\
  (forall rr, last new = Some (Some rr) -> resultErr' = Err rr) /\
  (new = [] -> resultErr' = resultErr) /\
  (Forall isRetryable new ->
     length new = n /\
     waitErr = Some (giveUp
                       (retryStateChangeConf raw delay delayRand minTimeout
                          pollInterval timeout (traced f))
                       cancel
                       (match new with [] => lastState
                                  | _ => "retryableerror" end))).


(** ** Predicates used to state the properties of a wait *)

(** What a run of the wait loop over [tracedRefresh] leaves behind: [new]
    are the results of the polls it made, [out] what the wait returned. *)
Definition waitPost {St R} (conf : StateChangeConf St R) (cancel : bool)
    (n : nat) (lastState : string)
    (new : list (option R * string * option error))
    (out : option R * option error) : Prop :=
  (length new <= n)%nat /\
  (forall i r st e, new !! i = Some (r, st, Some e) ->
     S i = length new /\ out = (r, Some e)) /\
  (forall i r st, new !! i = Some (Some r, st, None) ->
     inSlice st (Target conf) = true ->
     S i = length new /\ out = (Some r, None)) /\
  (forall i r st, new !! i = Some (Some r, st, None) ->
     inSlice st (Target conf) = false -> inSlice st (Pending conf) = true ->
     (S i < length new)%nat \/
     (S i = length new /\ length new = n /\
      out = (None, Some (giveUp conf cancel st)))) /\
  (forall i r st, new !! i = Some (Some r, st, None) ->
     inSlice st (Target conf) = false -> inSlice st (Pending conf) = false ->
     S i = length new /\
     out = (Some r, Some (UnexpectedStateError None st (Target conf)))) /\
  (forall i st, new !! i = Some (None, st, None) -> Target conf = [] ->
     S i = length new /\ out = (None, None)) /\
  (snd out = None ->
     exists r st, last new = Some (r, st, None) /\ fst out = r /\
       match r with
       | Some _ => inSlice st (Target conf) = true
       | None => Target conf = []
       end) /\
  (new = [] -> n = 0%nat /\ out = (None, Some (giveUp conf cancel lastState))) /\
  Forall (fun o => exists s0, fst (Refresh conf s0) = o) new.

(** The configuration with its [Refresh] replaced. *)
Definition withRefresh {St St' R} (conf : StateChangeConf St R)
    (refresh : StateRefreshFunc St' R) : StateChangeConf St' R :=
  {| Delay := Delay conf; Pending := Pending conf; Refresh := refresh;
     Target := Target conf; Timeout := Timeout conf;
     MinTimeout := MinTimeout conf; PollInterval := PollInterval conf;
     NotFoundChecks := NotFoundChecks conf;
     ContinuousTargetOccurence := ContinuousTargetOccurence conf |}.

(** ** Predicates and helpers for the lifecycle policies *)

(** One policy, expanded. *)
Definition expandOne (tfMap : gmap string prim) : LifecyclePolicy.t :=
  {| LifecyclePolicy.TransitionToArchive :=
       nonEmptyStringAt tfMap "transition_to_archive";
     LifecyclePolicy.TransitionToIA :=
       nonEmptyStringAt tfMap "transition_to_ia";
     LifecyclePolicy.TransitionToPrimaryStorageClass :=
       nonEmptyStringAt tfMap "transition_to_primary_storage_class" |}.

(** One policy, flattened. *)
Definition flattenOne (apiObject : LifecyclePolicy.t) : gmap string prim :=
  let tfMap : gmap string prim := ∅ in
  let tfMap :=
    match LifecyclePolicy.TransitionToArchive apiObject with
    | Some v => <["transition_to_archive" := PString v]> tfMap
    | None => tfMap
    end in
  let tfMap :=
    match LifecyclePolicy.TransitionToIA apiObject with
    | Some v => <["transition_to_ia" := PString v]> tfMap
    | None => tfMap
    end in
  match LifecyclePolicy.TransitionToPrimaryStorageClass apiObject with
  | Some v => <["transition_to_primary_storage_class" := PString v]> tfMap
  | None => tfMap
  end.

(** A lifecycle-policy map: each of the three keys is absent or bound to a
    non-empty string, and there is no other key. *)
Definition lifecyclePolicyMap (m : gmap string prim) : Prop :=
  forall k v, m !! k = Some v ->
    (k = "transition_to_archive" \/ k = "transition_to_ia"
     \/ k = "transition_to_primary_storage_class")
    /\ exists s, v = PString s /\ s <> "".

(** ** The log of requests *)

(** [s'] was reached from [s] by sending requests only: its log extends
    the log of [s]. *)
Definition extends {W} (s s' : Store W) : Prop :=
  exists new, calls s' = calls s ++ new.

(** ** Predicates for the further properties *)

(** The file systems of a paginated describe that a filter keeps: the
    non-nil entries of the non-nil pages, in order. *)
Definition keptFileSystems (filter : FileSystemDescription.t -> bool)
    (pages : list (option DescribeFileSystemsOutput.t))
    : list (option FileSystemDescription.t) :=
  flat_map
    (fun page =>
       match page with
       | None => []
       | Some page =>
           List.filter
             (fun v => match v with Some fs => filter fs | None => false end)
             (DescribeFileSystemsOutput.FileSystems page)
       end)
    pages.

(** A remote side whose describe always answers with the same pages and
    error; the other operations succeed and change nothing. *)
Definition pagedEFS (pages : list (option DescribeFileSystemsOutput.t))
    (err : option error) : EFS unit :=
  {| CreateFileSystemWithContext := fun input w =>
       (Success (fileSystemIn "fs-1" LifeCycleStateCreating), w);
     DeleteFileSystemWithContext := fun id w => (None, w);
     DescribeFileSystemsPagesWithContext := fun input w => ((pages, err), w);
     DescribeLifecycleConfigurationWithContext := fun id w => (Success [], w);
     PutLifecycleConfigurationWithContext := fun input w => (None, w);
     UpdateFileSystemWithContext := fun input w => (None, w);
     UpdateFileSystemProtectionWithContext := fun input w => (None, w) |}.

(** A lifecycle policy of the API none of whose fields points to the empty
    string. *)
Definition noEmptyTransition (o : LifecyclePolicy.t) : Prop :=
  LifecyclePolicy.TransitionToArchive o <> Some ""
  /\ LifecyclePolicy.TransitionToIA o <> Some ""
  /\ LifecyclePolicy.TransitionToPrimaryStorageClass o <> Some "".

(** The describe request FindFileSystemByID sends for an ID. *)
Definition describeByID (id : string) : ApiCall :=
  CallDescribeFileSystems
    {| DescribeFileSystemsInput.CreationToken := None;
       DescribeFileSystemsInput.FileSystemId := Some id |}.

(** The resource data after a successful [Set] of one attribute. *)
Definition written (d : ResourceData) (key : string) (v : value)
    : ResourceData :=
  {| rdState := rdState d; rdPlanned := rdPlanned d;
     rdSet := <[key := v]> (rdSet d);
     rdId := rdId d; rdIsNew := rdIsNew d |}.

Definition BoolValue (p : option bool) : bool := default false p.


(** The scripted client with a create request that is refused. *)
Definition refusingCreateClient (err : error) : AWSClient Script :=
  {| EFSConn :=
       {| CreateFileSystemWithContext := fun input w => (Failure err, w);
          DeleteFileSystemWithContext :=
            DeleteFileSystemWithContext scriptedEFS;
          DescribeFileSystemsPagesWithContext :=
            DescribeFileSystemsPagesWithContext scriptedEFS;
          DescribeLifecycleConfigurationWithContext :=
            DescribeLifecycleConfigurationWithContext scriptedEFS;
          PutLifecycleConfigurationWithContext :=
            PutLifecycleConfigurationWithContext scriptedEFS;
          UpdateFileSystemWithContext :=
            UpdateFileSystemWithContext scriptedEFS;
          UpdateFileSystemProtectionWithContext :=
            UpdateFileSystemProtectionWithContext scriptedEFS |};
     Region := "us-east-1";
     DNSSuffix := "amazonaws.com";
     UniqueId := fun w => ("terraform-20240101000000000000000001", w);
     getTagsIn := [] |}.

(** * Properties *)

(** ** Durations and the initial delay *)

Lemma Milliseconds_pos (d : Duration) :
  0 < Milliseconds d <-> Millisecond <= d.
Proof.
  unfold Milliseconds, Millisecond.
  Z.to_euclidean_division_equations. lia.
Qed.

Lemma Milliseconds_le (d : Duration) :
  0 <= d -> Milliseconds d * Millisecond <= d.
Proof.
  unfold Milliseconds, Millisecond. intros Hd.
  Z.to_euclidean_division_equations. lia.
Qed.

Lemma wrap64_id (z : Z) : int64 z -> wrap64 z = z.
Proof.
  unfold int64, wrap64. intros Hz.
  rewrite Z.mod_small; lia.
Qed.

Lemma Int63n_range (raw n : Z) : 0 < n -> 0 <= Int63n raw n < n.
Proof. intros Hn. unfold Int63n. apply Z.mod_pos_bound. exact Hn. Qed.

Lemma Delay_setMinTimeout {S R} d (c : StateChangeConf S R) :
  Delay (setMinTimeout d c) = Delay c.
Proof. reflexivity. Qed.

Lemma Delay_setPollInterval {S R} d (c : StateChangeConf S R) :
  Delay (setPollInterval d c) = Delay c.
Proof. reflexivity. Qed.

(** The [Delay] field of the configuration, by cases on the two delay
    arguments. *)
Lemma retryStateChangeConf_Delay {W} raw delay delayRand minTimeout
    pollInterval timeout (f : RetryFunc W) :
  Delay (retryStateChangeConf raw delay delayRand minTimeout pollInterval
           timeout f) =
  if 0 <? Milliseconds delayRand
  then wrap64 (Int63n raw (Milliseconds delayRand) * Millisecond)
  else if 0 <? Milliseconds delay then delay else 0.
Proof.
  unfold retryStateChangeConf.
  destruct (0 <? Milliseconds pollInterval), (0 <? Milliseconds minTimeout),
    (0 <? Milliseconds delayRand), (0 <? Milliseconds delay); reflexivity.
Qed.

(** C4: with [delayRand] of at least one millisecond the initial delay is
    a whole number of milliseconds drawn from [0, delayRand), whatever the
    fixed [delay] is, and every such value can be drawn; with [delayRand]
    below one millisecond the fixed [delay] is used when it is at least one
    millisecond (and no delay is set otherwise). *)
Theorem RetryConfigContext_initial_delay :
  forall (W : Type) (f : RetryFunc W)
         (delay delayRand minTimeout pollInterval timeout : Duration),
    int64 delayRand ->
    (Millisecond <= delayRand ->
       (forall raw,
          Delay (retryStateChangeConf raw delay delayRand minTimeout
                   pollInterval timeout f)
            = Int63n raw (Milliseconds delayRand) * Millisecond
          /\ 0 <= Int63n raw (Milliseconds delayRand) < Milliseconds delayRand
          /\ 0 <= Delay (retryStateChangeConf raw delay delayRand minTimeout
                           pollInterval timeout f) < delayRand)
       /\ (forall r, 0 <= r < Milliseconds delayRand ->
             exists raw, 0 <= raw < 2 ^ 63 /\
               Delay (retryStateChangeConf raw delay delayRand minTimeout
                        pollInterval timeout f) = r * Millisecond))
    /\ (delayRand < Millisecond -> Millisecond <= delay ->
          forall raw,
            Delay (retryStateChangeConf raw delay delayRand minTimeout
                     pollInterval timeout f) = delay)
    /\ (delayRand < Millisecond -> delay < Millisecond ->
          forall raw,
            Delay (retryStateChangeConf raw delay delayRand minTimeout
                     pollInterval timeout f) = 0).
Proof.
  intros W f delay delayRand minTimeout pollInterval timeout H64.
  pose proof (Milliseconds_pos delayRand) as Hrand.
  pose proof (Milliseconds_pos delay) as Hdelay.
  split; [|split].
  - intros Hge.
    assert (Hms : 0 < Milliseconds delayRand) by (apply Hrand; exact Hge).
    assert (Hle : Milliseconds delayRand * Millisecond <= delayRand)
      by (apply Milliseconds_le; unfold Millisecond in Hge; lia).
    assert (Hdraw : forall raw,
      wrap64 (Int63n raw (Milliseconds delayRand) * Millisecond)
        = Int63n raw (Milliseconds delayRand) * Millisecond).
    { intros raw. apply wrap64_id.
      pose proof (Int63n_range raw _ Hms) as Hr.
      unfold int64 in *. unfold Millisecond in *. nia. }
    split.
    + intros raw. rewrite retryStateChangeConf_Delay.
      apply Z.ltb_lt in Hms as Hb. rewrite Hb, Hdraw.
      pose proof (Int63n_range raw _ Hms) as Hr.
      split; [reflexivity|]. split; [exact Hr|].
      unfold Millisecond in *. nia.
    + intros r Hr. exists r.
      assert (Hrr : Int63n r (Milliseconds delayRand) = r)
        by (unfold Int63n; apply Z.mod_small; exact Hr).
      split.
      * unfold int64, Millisecond in *. nia.
      * rewrite retryStateChangeConf_Delay.
        apply Z.ltb_lt in Hms as Hb. rewrite Hb.
        specialize (Hdraw r). rewrite Hrr in Hdraw |- *. exact Hdraw.
  - intros Hlt Hge raw. rewrite retryStateChangeConf_Delay.
    assert (Hb1 : (0 <? Milliseconds delayRand) = false)
      by (apply Z.ltb_ge; lia).
    assert (Hb2 : (0 <? Milliseconds delay) = true)
      by (apply Z.ltb_lt; apply Hdelay; exact Hge).
    rewrite Hb1, Hb2. reflexivity.
  - intros Hlt Hlt' raw. rewrite retryStateChangeConf_Delay.
    assert (Hb1 : (0 <? Milliseconds delayRand) = false)
      by (apply Z.ltb_ge; lia).
    assert (Hb2 : (0 <? Milliseconds delay) = false)
      by (apply Z.ltb_ge; lia).
    rewrite Hb1, Hb2. reflexivity.
Qed.

(** ** The retry loop *)

Section RetryLoop.
Context {W : Type}.
Variable f : RetryFunc W.
Variables (raw : Z) (delay delayRand minTimeout pollInterval timeout : Duration).

Lemma retryStateChangeConf_fields {V} (g : RetryFunc V) :
  let c := retryStateChangeConf raw delay delayRand minTimeout pollInterval
             timeout g in
  Pending c = ["retryableerror"] /\ Target c = ["success"] /\
  Refresh c = retryRefresh g /\ NotFoundChecks c = 0%nat /\
  ContinuousTargetOccurence c = 0%nat /\ Timeout c = timeout.
Proof.
  unfold retryStateChangeConf.
  destruct (0 <? Milliseconds pollInterval), (0 <? Milliseconds minTimeout),
    (0 <? Milliseconds delayRand), (0 <? Milliseconds delay);
    cbn; repeat split; reflexivity.
Qed.

(** One poll of the loop on the configuration of RetryConfigContext. *)
Lemma retry_refreshLoop_step {V} (g : RetryFunc V) cancel n tick lastState
    resultErr v :
  refreshLoop (retryStateChangeConf raw delay delayRand minTimeout
                 pollInterval timeout g)
    cancel (S n) tick 0 lastState (resultErr, v) =
  let '(r, v') := g v in
  match r with
  | None => ((Some 42, None), (None, v'))
  | Some rr =>
      if Retryable rr then
        refreshLoop (retryStateChangeConf raw delay delayRand minTimeout
                       pollInterval timeout g)
          cancel n 0 0 "retryableerror" (Err rr, v')
      else match Err rr with
           | Some e => ((None, Some e), (Some e, v'))
           | None =>
               if (20 <? S tick)%nat
               then ((None, Some (NotFoundError None (S tick))), (None, v'))
               else refreshLoop (retryStateChangeConf raw delay delayRand
                                   minTimeout pollInterval timeout g)
                      cancel n (S tick) 0 "quit" (None, v')
           end
  end.
Proof.
  destruct (retryStateChangeConf_fields g)
    as (HP & HT & HR & HN & HC & _).
  cbn [refreshLoop]. unfold notFoundChecks, continuousTargetOccurence.
  rewrite HP, HT, HR, HN, HC. cbn [retryRefresh].
  destruct (g v) as [[rr|] v']; [|reflexivity].
  destruct (Retryable rr) eqn:Hret; [reflexivity|].
  destruct (Err rr) as [e|] eqn:Herr; [reflexivity|].
  cbn. reflexivity.
Qed.

Lemma retryPost_stop cancel n lastState resultErr o waitErr resultErr' :
  (waitErr = None <-> o = None) ->
  (waitErr = None -> resultErr' = None) ->
  (forall e, o = Some {| Err := Some e; Retryable := false |} ->
     waitErr = Some e /\ resultErr' = Some e) ->
  (forall rr, o = Some rr -> resultErr' = Err rr) ->
  ~ isRetryable o ->
  retryPost f raw delay delayRand minTimeout pollInterval timeout cancel (S n) lastState resultErr [o] waitErr resultErr'.
Proof.
  intros Hnil Hres Hstop Hlast Hnot. unfold retryPost. split_and!.
  - cbn. lia.
  - rewrite Hnil, list_elem_of_singleton. split; congruence.
  - exact Hres.
  - intros [|i] e Hi; cbn in Hi; [|discriminate Hi].
    inversion Hi; subst o. destruct (Hstop e eq_refl) as [-> ->]. done.
  - intros rr Hl. cbn in Hl. inversion Hl; subst o. by apply Hlast.
  - intros Heq. discriminate Heq.
  - intros HF. apply Forall_cons in HF as [HF _]. contradiction.
Qed.

Lemma retryPost_cons cancel n lastState lastState' resultErr rr new
    waitErr resultErr' :
  (Retryable rr = true /\ lastState' = "retryableerror")
    \/ (Retryable rr = false /\ Err rr = None) ->
  retryPost f raw delay delayRand minTimeout pollInterval timeout cancel n lastState' (Err rr) new waitErr resultErr' ->
  retryPost f raw delay delayRand minTimeout pollInterval timeout cancel (S n) lastState resultErr (Some rr :: new)
    waitErr resultErr'.
Proof.
  intros Hcase (Hlen & Hnil & Hres & Hstop & Hlast & Hempty & Hall).
  unfold retryPost. split_and!.
  - cbn. lia.
  - rewrite Hnil, elem_of_cons. split; [tauto|].
    intros [Heq|Hin]; [discriminate Heq|exact Hin].
  - exact Hres.
  - intros [|i] e Hi; cbn in Hi.
    + inversion Hi; subst rr. cbn in Hcase.
      destruct Hcase as [[Hc _]|[_ Hc]]; discriminate Hc.
    + apply Hstop in Hi as (Hi & Hw & Hr). cbn. split_and!; [lia|done|done].
  - intros rr' Hl. rewrite last_cons in Hl.
    destruct (last new) as [o|] eqn:Hln.
    + apply Hlast. rewrite <- Hl. reflexivity.
    + inversion Hl; subst rr'. apply last_None in Hln. by apply Hempty.
  - intros Heq. discriminate Heq.
  - intros HF. apply Forall_cons in HF as [(rr0 & Heq & Hr0) HF].
    inversion Heq; subst rr0.
    destruct Hcase as [[_ ->]|[Hc _]]; [|congruence].
    apply Hall in HF as [Hl Hw]. split; [cbn; lia|].
    rewrite Hw. destruct new; reflexivity.
Qed.

Lemma retry_refreshLoop_spec cancel n :
  forall tick lastState resultErr log w res waitErr resultErr' log' w',
    refreshLoop (retryStateChangeConf raw delay delayRand minTimeout
                   pollInterval timeout (traced f))
      cancel n tick 0 lastState (resultErr, (log, w))
      = ((res, waitErr), (resultErr', (log', w'))) ->
    exists new, log' = log ++ new /\
      retryPost f raw delay delayRand minTimeout pollInterval timeout cancel n lastState resultErr new waitErr resultErr'.
Proof.
  induction n as [|n IH];
    intros tick lastState resultErr log w res waitErr resultErr' log' w' Hrun.
  - cbn in Hrun. inversion Hrun; subst. exists [].
    split; [by rewrite app_nil_r|]. unfold retryPost. split_and!; try done.
    split; [discriminate|]. intros Hin. by apply elem_of_nil in Hin.
  - rewrite retry_refreshLoop_step in Hrun. unfold traced in Hrun.
    destruct (f w) as [[rr|] w1] eqn:Hf.
    + destruct (Retryable rr) eqn:Hret.
      { apply IH in Hrun as (new & -> & Hpost).
        exists (Some rr :: new). split; [by rewrite <- app_assoc|].
        eapply retryPost_cons; [left; done|exact Hpost]. }
      destruct (Err rr) as [e|] eqn:Herr.
      { inversion Hrun; subst. exists [Some rr]. split; [done|].
        apply retryPost_stop; try done.
        - intros e' Heq. inversion Heq; subst rr. cbn in Herr. by inversion Herr.
        - intros rr' Heq. by inversion Heq; subst rr'.
        - intros (rr' & Heq & Hr'). inversion Heq; subst rr'. congruence. }
      destruct (20 <? S tick)%nat.
      { inversion Hrun; subst. exists [Some rr]. split; [done|].
        apply retryPost_stop; try done.
        - intros e' Heq. inversion Heq; subst rr. cbn in Herr. discriminate Herr.
        - intros rr' Heq. by inversion Heq; subst rr'.
        - intros (rr' & Heq & Hr'). inversion Heq; subst rr'. congruence. }
      apply IH in Hrun as (new & -> & Hpost).
      exists (Some rr :: new). split; [by rewrite <- app_assoc|].
      eapply retryPost_cons; [right; done|]. rewrite Herr. exact Hpost.
    + inversion Hrun; subst. exists [None]. split; [done|].
      apply retryPost_stop; try done.
      intros (rr' & Heq & _). discriminate Heq.
Qed.

(** The log of [traced f] is instrumentation only: result, captured error
    and store are those of the run over [f]. *)
Lemma traced_refreshLoop cancel n :
  forall tick lastState resultErr log w,
    exists log',
      refreshLoop (retryStateChangeConf raw delay delayRand minTimeout
                     pollInterval timeout (traced f))
        cancel n tick 0 lastState (resultErr, (log, w))
      = let '(x, (resultErr', w')) :=
          refreshLoop (retryStateChangeConf raw delay delayRand minTimeout
                         pollInterval timeout f)
            cancel n tick 0 lastState (resultErr, w) in
        (x, (resultErr', (log', w'))).
Proof.
  induction n as [|n IH]; intros tick lastState resultErr log w.
  - exists log. cbn. unfold giveUp.
    destruct (retryStateChangeConf_fields f) as (_ & -> & _ & _ & _ & ->).
    destruct (retryStateChangeConf_fields (traced f))
      as (_ & -> & _ & _ & _ & ->).
    reflexivity.
  - rewrite !retry_refreshLoop_step. unfold traced at 1.
    destruct (f w) as [[rr|] w1].
    + destruct (Retryable rr); [apply IH|].
      destruct (Err rr); [eexists; reflexivity|].
      destruct (20 <? S tick)%nat; [eexists; reflexivity|apply IH].
    + eexists; reflexivity.
Qed.

Lemma traced_RetryConfigContext ctx w res log w' :
  RetryConfigContext ctx raw delay delayRand minTimeout pollInterval timeout
    (traced f) ([], w) = (res, (log, w')) ->
  RetryConfigContext ctx raw delay delayRand minTimeout pollInterval timeout
    f w = (res, w').
Proof.
  unfold RetryConfigContext, WaitForStateContext.
  destruct (traced_refreshLoop (cancelled ctx) (polls ctx) 0%nat "" None [] w)
    as [log' ->].
  destruct (refreshLoop _ _ _ _ _ _ _) as [[r waitErr] [resultErr w1]].
  destruct resultErr; intros Heq; inversion Heq; reflexivity.
Qed.
End RetryLoop.

(** C1: RetryConfigContext over the calls it makes to [f] within the polls
    the timeout allows (the log of [traced f]).  It returns nil exactly when
    one of these calls returned nil; a call that returns a non-retryable
    error is the last one and its error is returned; and when every call
    returned a retryable error, the polls are used up, the wait itself ends
    with the timeout error, and the error of the last call is returned
    instead. *)
Theorem RetryConfigContext_outcome :
  forall (W : Type) (f : RetryFunc W) (ctx : Context) (raw : Z)
         (delay delayRand minTimeout pollInterval timeout : Duration)
         (w : W) (res : option error) (log : list (option RetryError)) (w' : W),
    RetryConfigContext ctx raw delay delayRand minTimeout pollInterval timeout
      (traced f) ([], w) = (res, (log, w')) ->
    RetryConfigContext ctx raw delay delayRand minTimeout pollInterval timeout
      f w = (res, w')
    /\ (length log <= polls ctx)%nat
    /\ (res = None <-> None ∈ log)
    /\ (forall i e,
          log !! i = Some (Some {| Err := Some e; Retryable := false |}) ->
          S i = length log /\ res = Some e)
    /\ (forall e,
          Forall isRetryable log ->
          last log = Some (Some {| Err := Some e; Retryable := true |}) ->
          length log = polls ctx
          /\ (cancelled ctx = false ->
               snd (fst (WaitForStateContext
                           (retryStateChangeConf raw delay delayRand minTimeout
                              pollInterval timeout (traced f))
                           ctx (None, ([], w))))
               = Some (TimeoutError None "retryableerror" timeout ["success"]))
          /\ res = Some e).
Proof.
  intros W f ctx raw delay delayRand minTimeout pollInterval timeout
    w res log w' Hrun.
  split; [by eapply traced_RetryConfigContext|].
  unfold RetryConfigContext, WaitForStateContext in *.
  destruct (refreshLoop _ _ _ _ _ _ _)
    as [[r waitErr] [resultErr [log1 w1]]] eqn:Hloop.
  apply retry_refreshLoop_spec in Hloop as (new & Hlog & Hpost).
  cbn in Hlog. subst log1.
  destruct Hpost as (Hlen & Hnil & Hres & Hstop & Hlast & Hempty & Hall).
  assert (Hret : res = match resultErr with None => waitErr | Some e => Some e end
                 /\ log = new)
    by (destruct resultErr; inversion Hrun; done).
  destruct Hret as [-> ->]. clear Hrun. split_and!.
  - exact Hlen.
  - rewrite <- Hnil. destruct resultErr as [e|]; [|done].
    split; [discriminate|]. intros Hw. apply Hres in Hw. discriminate Hw.
  - intros i e Hi. apply Hstop in Hi as (Hi & -> & ->). done.
  - intros e HF Hl. apply Hall in HF as [HF Hw].
    assert (Hne : new <> []) by (intros ->; discriminate Hl).
    apply Hlast in Hl. cbn in Hl. subst resultErr. split_and!; [exact HF| |reflexivity].
    intros Hc. cbn. rewrite Hw. unfold giveUp. rewrite Hc.
    destruct (retryStateChangeConf_fields raw delay delayRand minTimeout
                pollInterval timeout (traced f)) as (_ & -> & _ & _ & _ & ->).
    destruct new; [done|reflexivity].
Qed.

(** A run of three polls: two throttled calls, then success. *)
Lemma RetryConfigContext_outcome_witness :
  RetryConfigContext {| polls := 5; cancelled := false |} 7
    0 0 0 0 Minute (scripted None)
    [Some {| Err := Some (errorString "throttled"); Retryable := true |};
     Some {| Err := Some (errorString "throttled"); Retryable := true |};
     None]
  = (None, []).
Proof.
  apply (RetryConfigContext_outcome _ (scripted None)
           {| polls := 5; cancelled := false |} 7 0 0 0 0 Minute
           [Some {| Err := Some (errorString "throttled"); Retryable := true |};
            Some {| Err := Some (errorString "throttled"); Retryable := true |};
            None]
           None
           [Some {| Err := Some (errorString "throttled"); Retryable := true |};
            Some {| Err := Some (errorString "throttled"); Retryable := true |};
            None]
           []).
  vm_compute. reflexivity.
Defined.

(** The timeout cuts off a run of throttled calls: the error of the last
    call is returned, not the timeout error of the wait. *)
Example RetryConfigContext_timeout_run :
  RetryConfigContext {| polls := 2; cancelled := false |} 7
    0 0 0 0 Minute
    (scripted (Some {| Err := Some (errorString "busy"); Retryable := true |}))
    [Some {| Err := Some (errorString "throttled"); Retryable := true |}]
  = (Some (errorString "busy"), []).
Proof. vm_compute. reflexivity. Qed.

(** A retry error built with a nil [Err] leaves [resultErr] nil, so the
    error of the wait is what the caller sees. *)
Example RetryConfigContext_nil_Err_run :
  RetryConfigContext {| polls := 2; cancelled := false |} 7
    0 0 0 0 Minute
    (scripted (Some {| Err := None; Retryable := true |})) []
  = (Some (TimeoutError None "retryableerror" Minute ["success"]), []).
Proof. vm_compute. reflexivity. Qed.

(** Two seconds of random delay override five seconds of fixed delay. *)
Lemma RetryConfigContext_initial_delay_witness :
  int64 (2 * Second) /\
  Delay (retryStateChangeConf 123456789 (5 * Second) (2 * Second) 0 0 Minute
           (scripted None)) = 789 * Millisecond.
Proof.
  assert (H64 : int64 (2 * Second)) by (unfold int64; vm_compute; split; [discriminate|reflexivity]).
  split; [exact H64|].
  destruct (RetryConfigContext_initial_delay _ (scripted None)
              (5 * Second) (2 * Second) 0 0 Minute H64) as [Hrand _].
  assert (Hge : Millisecond <= 2 * Second) by (vm_compute; discriminate).
  destruct (Hrand Hge) as [Hdraw _].
  destruct (Hdraw 123456789) as [-> _].
  vm_compute. reflexivity.
Defined.

(** ** The wait loop with the default counters *)

Lemma scanTarget_one currentState target :
  scanTarget 1 currentState target false 0
  = (inSlice currentState target, inSlice currentState target,
     if inSlice currentState target then 1%nat else 0%nat).
Proof.
  induction target as [|allowed rest IH]; [reflexivity|].
  cbn. destruct (String.eqb currentState allowed); [reflexivity|exact IH].
Qed.

Section WaitLoop.
Context {St R : Type}.
Variable conf : StateChangeConf St R.
Hypothesis HNotFoundChecks : NotFoundChecks conf = 0%nat.
Hypothesis HContinuous : ContinuousTargetOccurence conf = 0%nat.
Hypothesis HPending : Pending conf <> [].

(** One poll, with the counters at their defaults: 20 checks for a
    resource that is not found, one occurrence of the target. *)
Lemma refreshLoop_step cancel n tick lastState s :
  refreshLoop conf cancel (S n) tick 0 lastState s =
  let '((res, currentState, err), s') := Refresh conf s in
  match err with
  | Some e => ((res, Some e), s')
  | None =>
      match res with
      | None =>
          if Nat.eqb (length (Target conf)) 0 then ((None, None), s')
          else if (20 <? S tick)%nat
               then ((None, Some (NotFoundError None (S tick))), s')
               else refreshLoop conf cancel n (S tick) 0 currentState s'
      | Some r =>
          if inSlice currentState (Target conf) then ((Some r, None), s')
          else if inSlice currentState (Pending conf)
               then refreshLoop conf cancel n 0 0 currentState s'
               else ((Some r, Some (UnexpectedStateError None currentState
                                      (Target conf))), s')
      end
  end.
Proof.
  cbn [refreshLoop]. unfold notFoundChecks, continuousTargetOccurence.
  rewrite HNotFoundChecks, HContinuous. cbn [Nat.eqb].
  destruct (Refresh conf s) as [[[res currentState] err] s'].
  destruct err as [e|]; [reflexivity|].
  destruct res as [r|]; [|reflexivity].
  rewrite scanTarget_one.
  destruct (inSlice currentState (Target conf)); [reflexivity|].
  destruct (inSlice currentState (Pending conf)); cbn; [reflexivity|].
  destruct (Pending conf); [contradiction|reflexivity].
Qed.
End WaitLoop.

Section TracedWait.
Context {St R : Type}.
Variable conf : StateChangeConf St R.
Hypothesis HNotFoundChecks : NotFoundChecks conf = 0%nat.
Hypothesis HContinuous : ContinuousTargetOccurence conf = 0%nat.
Hypothesis HPending : Pending conf <> [].

Let tconf := withRefresh conf (tracedRefresh (Refresh conf)).

Lemma waitPost_nil cancel lastState :
  waitPost conf cancel 0 lastState [] (None, Some (giveUp conf cancel lastState)).
Proof.
  unfold waitPost. split_and!; try done.
  all: try (intros i; intros; by rewrite lookup_nil in * ).
Qed.

(** A poll that ends the wait. *)
Lemma waitPost_stop cancel n lastState o out :
  (exists s0, fst (Refresh conf s0) = o) ->
  (forall r st e, o = (r, st, Some e) -> out = (r, Some e)) ->
  (forall r st, o = (Some r, st, None) ->
     inSlice st (Target conf) = true -> out = (Some r, None)) ->
  (forall r st, o = (Some r, st, None) ->
     inSlice st (Target conf) = false -> inSlice st (Pending conf) = false ->
     out = (Some r, Some (UnexpectedStateError None st (Target conf)))) ->
  (forall r st, o = (Some r, st, None) ->
     inSlice st (Target conf) = false -> inSlice st (Pending conf) = true ->
     False) ->
  (forall st, o = (None, st, None) -> Target conf = [] -> out = (None, None)) ->
  (snd out = None ->
     exists r st, o = (r, st, None) /\ fst out = r /\
       match r with
       | Some _ => inSlice st (Target conf) = true
       | None => Target conf = []
       end) ->
  waitPost conf cancel (S n) lastState [o] out.
Proof.
  intros Hfrom Herr Htarget Hunexpected Hpending Habsent Hdone.
  unfold waitPost. split_and!.
  - cbn. lia.
  - intros [|i] r st e Hi; cbn in Hi; [|discriminate Hi].
    inversion Hi; subst o. split; [done|]. by eapply Herr.
  - intros [|i] r st Hi Ht; cbn in Hi; [|discriminate Hi].
    inversion Hi; subst o. split; [done|]. by eapply Htarget.
  - intros [|i] r st Hi Ht Hp; cbn in Hi; [|discriminate Hi].
    inversion Hi; subst o. exfalso. by eapply Hpending.
  - intros [|i] r st Hi Ht Hp; cbn in Hi; [|discriminate Hi].
    inversion Hi; subst o. split; [done|]. by eapply Hunexpected.
  - intros [|i] st Hi Ht; cbn in Hi; [|discriminate Hi].
    inversion Hi; subst o. split; [done|]. by eapply Habsent.
  - intros Hout. destruct (Hdone Hout) as (r & st & -> & Hr & Hm).
    exists r, st. done.
  - intros Heq. discriminate Heq.
  - by apply Forall_singleton.
Qed.

(** A poll after which the wait goes on. *)
Lemma waitPost_cons cancel n lastState res st new out :
  (exists s0, fst (Refresh conf s0) = (res, st, None)) ->
  match res with
  | Some _ => inSlice st (Target conf) = false
              /\ inSlice st (Pending conf) = true
  | None => Target conf <> []
  end ->
  waitPost conf cancel n st new out ->
  waitPost conf cancel (S n) lastState ((res, st, None) :: new) out.
Proof.
  intros Hfrom Hcont (Hlen & Herr & Htarget & Hpending & Hunexpected & Habsent
                      & Hdone & Hnil & Hall).
  unfold waitPost. split_and!.
  - cbn. lia.
  - intros [|i] r st' e Hi; cbn in Hi; [discriminate Hi|].
    apply Herr in Hi as [Hi ->]. cbn. split; [lia|done].
  - intros [|i] r st' Hi Ht; cbn in Hi.
    + inversion Hi; subst. destruct Hcont as [Hc _]. congruence.
    + destruct (Htarget _ _ _ Hi Ht) as [Hl ->]. cbn. split; [lia|done].
  - intros [|i] r st' Hi Ht Hp; cbn in Hi.
    + inversion Hi; subst. destruct new as [|o new].
      * right. destruct (Hnil eq_refl) as [-> ->]. done.
      * left. cbn. lia.
    + destruct (Hpending _ _ _ Hi Ht Hp) as [Hl|(Hl & Hn & ->)].
      * left. cbn. lia.
      * right. cbn. split_and!; [lia|lia|done].
  - intros [|i] r st' Hi Ht Hp; cbn in Hi.
    + inversion Hi; subst. destruct Hcont as [_ Hc]. congruence.
    + destruct (Hunexpected _ _ _ Hi Ht Hp) as [Hl ->]. cbn. split; [lia|done].
  - intros [|i] st' Hi Ht; cbn in Hi.
    + inversion Hi; subst. contradiction.
    + destruct (Habsent _ _ Hi Ht) as [Hl ->]. cbn. split; [lia|done].
  - intros Hout. destruct (Hdone Hout) as (r & st' & Hl & Hr & Hm).
    exists r, st'. split; [|done]. rewrite last_cons, Hl. reflexivity.
  - intros Heq. discriminate Heq.
  - by apply Forall_cons_2.
Qed.

Lemma refreshLoop_traced_spec cancel n :
  forall tick lastState log s out log' s',
    refreshLoop tconf cancel n tick 0 lastState (log, s) = (out, (log', s')) ->
    exists new, log' = log ++ new /\ waitPost conf cancel n lastState new out.
Proof.
  induction n as [|n IH]; intros tick lastState log s out log' s' Hrun.
  - cbn in Hrun. inversion Hrun; subst. exists [].
    split; [by rewrite app_nil_r|]. apply waitPost_nil.
  - unfold tconf in Hrun. rewrite refreshLoop_step in Hrun by done.
    fold tconf in Hrun.
    cbn [tconf withRefresh Refresh Target Pending tracedRefresh] in Hrun.
    destruct (Refresh conf s) as [[[res st] err] s1] eqn:Hr.
    assert (Hfrom : exists s0, fst (Refresh conf s0) = (res, st, err))
      by (exists s; by rewrite Hr).
    destruct err as [e|].
    { inversion Hrun; subst. eexists; split; [reflexivity|].
      apply waitPost_stop; [done|intros; simplify_eq; try done; congruence..]. }
    destruct res as [r|].
    + destruct (inSlice st (Target conf)) eqn:Ht.
      { inversion Hrun; subst. eexists; split; [reflexivity|].
        apply waitPost_stop; [done|intros; simplify_eq; try done; try congruence..].
        eexists _, _. done. }
      destruct (inSlice st (Pending conf)) eqn:Hp.
      { apply IH in Hrun as (new & -> & Hpost).
        exists ((Some r, st, None) :: new).
        split; [by rewrite <- app_assoc|]. by apply waitPost_cons. }
      inversion Hrun; subst. eexists; split; [reflexivity|].
      apply waitPost_stop; [done|intros; simplify_eq; try done; congruence..].
    + destruct (Target conf) as [|t0 target] eqn:Ht.
      { cbn in Hrun. inversion Hrun; subst. eexists; split; [reflexivity|].
        apply waitPost_stop; [done|intros; simplify_eq; try done; try congruence..].
        eexists _, _. done. }
      cbn [length Nat.eqb] in Hrun.
      destruct (20 <? S tick)%nat.
      { inversion Hrun; subst. eexists; split; [reflexivity|].
        apply waitPost_stop; [done|intros; simplify_eq; try done; congruence..]. }
      apply IH in Hrun as (new & -> & Hpost).
      exists ((None, st, None) :: new).
      split; [by rewrite <- app_assoc|]. apply waitPost_cons; [done| |done].
      rewrite Ht. done.
Qed.

(** The log of [tracedRefresh] is instrumentation only. *)
Lemma refreshLoop_traced_erase cancel n :
  forall tick lastState log s,
    exists log',
      refreshLoop tconf cancel n tick 0 lastState (log, s)
      = let '(out, s') := refreshLoop conf cancel n tick 0 lastState s in
        (out, (log', s')).
Proof.
  induction n as [|n IH]; intros tick lastState log s.
  - exists log. reflexivity.
  - unfold tconf. rewrite !refreshLoop_step by done. fold tconf.
    cbn [tconf withRefresh Refresh Target Pending tracedRefresh].
    destruct (Refresh conf s) as [[[res st] err] s1].
    destruct err as [e|]; [eexists; reflexivity|].
    destruct res as [r|].
    + destruct (inSlice st (Target conf)); [eexists; reflexivity|].
      destruct (inSlice st (Pending conf)); [apply IH|eexists; reflexivity].
    + destruct (Nat.eqb (length (Target conf)) 0); [eexists; reflexivity|].
      destruct (20 <? S tick)%nat; [eexists; reflexivity|apply IH].
Qed.
End TracedWait.

(** ** Waiting for the file system *)

Lemma inSlice_true (s : string) (l : list string) :
  inSlice s l = true <-> In s l.
Proof.
  unfold inSlice. rewrite existsb_exists. split.
  - intros (x & Hin & Heq). apply String.eqb_eq in Heq. by subst x.
  - intros Hin. exists s. split; [done|]. apply String.eqb_refl.
Qed.

Lemma inSlice_false (s : string) (l : list string) :
  inSlice s l = false <-> ~ In s l.
Proof.
  rewrite <- inSlice_true. destruct (inSlice s l); split; congruence.
Qed.

(** What a poll of statusFileSystemLifeCycleState can report. *)
Lemma statusFileSystemLifeCycleState_result {W} (conn : EFS W) id s0 :
  match fst (statusFileSystemLifeCycleState conn id s0) with
  | (Some fs, st, None) =>
      fst (FindFileSystemByID conn id s0) = Success fs
      /\ st = StringValue (FileSystemDescription.LifeCycleState fs)
  | (None, st, None) =>
      st = "" /\ exists e, fst (FindFileSystemByID conn id s0) = Failure e
                          /\ notFound e = true
  | (None, st, Some e) =>
      st = "" /\ fst (FindFileSystemByID conn id s0) = Failure e
      /\ notFound e = false
  | (Some _, _, Some _) => False
  end.
Proof.
  unfold statusFileSystemLifeCycleState.
  destruct (FindFileSystemByID conn id s0) as [[fs|e] s1]; cbn; [done|].
  destruct (notFound e) eqn:Hnf; cbn; eauto.
Qed.

Section Waits.
Context {W : Type}.
Variables (conn : EFS W) (ctx : Context) (id : string).

(** The traced run of waitFileSystemAvailable returns what the wait
    returns, and its log satisfies [waitPost]. *)
Lemma waitFileSystemAvailable_traced s out err log s' :
  WaitForStateContext
    (fileSystemAvailableStateConf
       (tracedRefresh (statusFileSystemLifeCycleState conn id)))
    ctx ([], s) = ((out, err), (log, s')) ->
  waitFileSystemAvailable ctx conn id s = ((out, err), s')
  /\ waitPost (fileSystemAvailableStateConf
                 (statusFileSystemLifeCycleState conn id))
       (cancelled ctx) (polls ctx) "" log (out, err).
Proof.
  intros Hrun. unfold WaitForStateContext in Hrun.
  pose (conf := fileSystemAvailableStateConf
                  (statusFileSystemLifeCycleState conn id)).
  change (fileSystemAvailableStateConf
            (tracedRefresh (statusFileSystemLifeCycleState conn id)))
    with (withRefresh conf (tracedRefresh (Refresh conf))) in Hrun.
  split.
  - destruct (refreshLoop_traced_erase conf eq_refl eq_refl ltac:(done)
                (cancelled ctx) (polls ctx) 0%nat "" [] s) as [log0 Her].
    rewrite Hrun in Her. unfold waitFileSystemAvailable, WaitForStateContext.
    fold conf. destruct (refreshLoop conf _ _ _ _ _ _) as [[o e] s1].
    inversion Her; subst. by destruct o.
  - apply refreshLoop_traced_spec in Hrun as (new & Hlog & Hpost);
      [|done..]. cbn in Hlog. by subst new.
Qed.

Lemma waitFileSystemDeleted_traced s out err log s' :
  WaitForStateContext
    (fileSystemDeletedStateConf
       (tracedRefresh (statusFileSystemLifeCycleState conn id)))
    ctx ([], s) = ((out, err), (log, s')) ->
  waitFileSystemDeleted ctx conn id s = ((out, err), s')
  /\ waitPost (fileSystemDeletedStateConf
                 (statusFileSystemLifeCycleState conn id))
       (cancelled ctx) (polls ctx) "" log (out, err).
Proof.
  intros Hrun. unfold WaitForStateContext in Hrun.
  pose (conf := fileSystemDeletedStateConf
                  (statusFileSystemLifeCycleState conn id)).
  change (fileSystemDeletedStateConf
            (tracedRefresh (statusFileSystemLifeCycleState conn id)))
    with (withRefresh conf (tracedRefresh (Refresh conf))) in Hrun.
  split.
  - destruct (refreshLoop_traced_erase conf eq_refl eq_refl ltac:(done)
                (cancelled ctx) (polls ctx) 0%nat "" [] s) as [log0 Her].
    rewrite Hrun in Her. unfold waitFileSystemDeleted, WaitForStateContext.
    fold conf. destruct (refreshLoop conf _ _ _ _ _ _) as [[o e] s1].
    inversion Her; subst. by destruct o.
  - apply refreshLoop_traced_spec in Hrun as (new & Hlog & Hpost);
      [|done..]. cbn in Hlog. by subst new.
Qed.

(** Every traced run has an untraced one behind it, and conversely the
    traced run exists for every wait: the model is a total function. *)
Lemma waitFileSystemDeleted_has_trace s :
  exists log,
    WaitForStateContext
      (fileSystemDeletedStateConf
         (tracedRefresh (statusFileSystemLifeCycleState conn id)))
      ctx ([], s)
    = (fst (waitFileSystemDeleted ctx conn id s),
       (log, snd (waitFileSystemDeleted ctx conn id s))).
Proof.
  destruct (WaitForStateContext
              (fileSystemDeletedStateConf
                 (tracedRefresh (statusFileSystemLifeCycleState conn id)))
              ctx ([], s)) as [[out err] [log s']] eqn:Hrun.
  apply waitFileSystemDeleted_traced in Hrun as [-> _]. by exists log.
Qed.
End Waits.

(** C2: both waits poll with statusFileSystemLifeCycleState, which reports
    the LifeCycleState of the file system found.  Over the polls the wait
    made (the log): waitFileSystemAvailable goes on after "creating" and
    "updating" unless the time is up, ends without error exactly at a poll
    that saw "available" and then returns that description, and ends with
    an error at any other state or at a refresh error;
    waitFileSystemDeleted goes on after "available" and "deleting", ends
    without error exactly at a poll that did not find the file system, and
    ends with an error at any other state or at a refresh error.  The state
    of a poll is the LifeCycleState of the description it found, and a poll
    without a description is one where FindFileSystemByID reported the file
    system as not found. *)
Theorem waitFileSystem_polls :
  forall (W : Type) (conn : EFS W) (ctx : Context) (id : string) (s : Store W),
    (forall s0,
       fst (statusFileSystemLifeCycleState conn id s0) =
       match fst (FindFileSystemByID conn id s0) with
       | Success fs =>
           (Some fs, StringValue (FileSystemDescription.LifeCycleState fs), None)
       | Failure e =>
           if notFound e then (None, "", None) else (None, "", Some e)
       end)
    /\ (forall out err log s',
          WaitForStateContext
            (fileSystemAvailableStateConf
               (tracedRefresh (statusFileSystemLifeCycleState conn id)))
            ctx ([], s) = ((out, err), (log, s')) ->
          waitFileSystemAvailable ctx conn id s = ((out, err), s')
          /\ (length log <= polls ctx)%nat
          /\ (forall i fs st,
                log !! i = Some (Some fs, st, None) ->
                st = LifeCycleStateCreating \/ st = LifeCycleStateUpdating ->
                (S i < length log)%nat
                \/ (S i = length log /\ length log = polls ctx
                    /\ out = None /\ exists e, err = Some e))
          /\ (forall i fs,
                log !! i = Some (Some fs, LifeCycleStateAvailable, None) ->
                S i = length log /\ out = Some fs /\ err = None)
          /\ (err = None ->
                exists fs,
                  last log = Some (Some fs, LifeCycleStateAvailable, None)
                  /\ out = Some fs)
          /\ (forall i fs st,
                log !! i = Some (Some fs, st, None) ->
                st <> LifeCycleStateCreating -> st <> LifeCycleStateUpdating ->
                st <> LifeCycleStateAvailable ->
                S i = length log
                /\ err = Some (UnexpectedStateError None st
                                 [LifeCycleStateAvailable]))
          /\ (forall i r st e,
                log !! i = Some (r, st, Some e) ->
                S i = length log /\ err = Some e)
          /\ (forall i fs st,
                log !! i = Some (Some fs, st, None) ->
                st = StringValue (FileSystemDescription.LifeCycleState fs)))
    /\ (forall out err log s',
          WaitForStateContext
            (fileSystemDeletedStateConf
               (tracedRefresh (statusFileSystemLifeCycleState conn id)))
            ctx ([], s) = ((out, err), (log, s')) ->
          waitFileSystemDeleted ctx conn id s = ((out, err), s')
          /\ (length log <= polls ctx)%nat
          /\ (forall i fs st,
                log !! i = Some (Some fs, st, None) ->
                st = LifeCycleStateAvailable \/ st = LifeCycleStateDeleting ->
                (S i < length log)%nat
                \/ (S i = length log /\ length log = polls ctx
                    /\ out = None /\ exists e, err = Some e))
          /\ (forall i st,
                log !! i = Some (None, st, None) ->
                S i = length log /\ out = None /\ err = None)
          /\ (err = None ->
                exists st, last log = Some (None, st, None) /\ out = None)
          /\ (forall i fs st,
                log !! i = Some (Some fs, st, None) ->
                st <> LifeCycleStateAvailable -> st <> LifeCycleStateDeleting ->
                S i = length log
                /\ err = Some (UnexpectedStateError None st []))
          /\ (forall i r st e,
                log !! i = Some (r, st, Some e) ->
                S i = length log /\ err = Some e)
          /\ (forall i fs st,
                log !! i = Some (Some fs, st, None) ->
                st = StringValue (FileSystemDescription.LifeCycleState fs))
          /\ (forall i st,
                log !! i = Some (None, st, None) ->
                exists s0 e,
                  fst (FindFileSystemByID conn id s0) = Failure e
                  /\ notFound e = true)).
Proof.
  intros W conn ctx id s. split_and!.
  - intros s0. unfold statusFileSystemLifeCycleState.
    destruct (FindFileSystemByID conn id s0) as [[fs|e] s1]; cbn; [done|].
    by destruct (notFound e).
  - intros out err log s' Hrun.
    apply waitFileSystemAvailable_traced in Hrun
      as (Hwait & Hlen & Herr & Htarget & Hpending & Hunexpected & Habsent
          & Hdone & Hnil & Hfrom).
    cbn [fileSystemAvailableStateConf Target Pending Refresh] in *.
    split_and!; [done|done| | | | | |].
    + intros i fs st Hi Hst.
      destruct (Hpending i fs st Hi) as [Hl|(Hl & Hn & Hout)].
      * apply inSlice_false. cbn. unfold LifeCycleStateAvailable,
          LifeCycleStateCreating, LifeCycleStateUpdating in *.
        intros [<-|[]]; destruct Hst; discriminate.
      * apply inSlice_true. cbn. destruct Hst; auto.
      * by left.
      * right. inversion Hout; subst. split_and!; eauto.
    + intros i fs Hi. destruct (Htarget i fs _ Hi) as [Hl Hout]; [done|].
      by inversion Hout.
    + intros ->. destruct (Hdone eq_refl) as (r & st & Hl & Hr & Hm).
      cbn in Hr. subst r. destruct out as [fs|]; [|done].
      apply inSlice_true in Hm. cbn in Hm. destruct Hm as [<-|[]].
      by exists fs.
    + intros i fs st Hi Hc Hu Ha.
      destruct (Hunexpected i fs st Hi) as [Hl Hout].
      * apply inSlice_false. cbn. intros [Heq|[]]. by symmetry in Heq.
      * apply inSlice_false. cbn. intros [Heq|[Heq|[]]]; by symmetry in Heq.
      * by inversion Hout.
    + intros i r st e Hi. destruct (Herr i r st e Hi) as [Hl Hout].
      by inversion Hout.
    + intros i fs st Hi.
      destruct (Forall_lookup_1 _ _ _ _ Hfrom Hi) as [s0 Hs0].
      pose proof (statusFileSystemLifeCycleState_result conn id s0) as Hres.
      rewrite Hs0 in Hres. by destruct Hres.
  - intros out err log s' Hrun.
    apply waitFileSystemDeleted_traced in Hrun
      as (Hwait & Hlen & Herr & Htarget & Hpending & Hunexpected & Habsent
          & Hdone & Hnil & Hfrom).
    cbn [fileSystemDeletedStateConf Target Pending Refresh] in *.
    split_and!; [done|done| | | | | | |].
    + intros i fs st Hi Hst.
      destruct (Hpending i fs st Hi) as [Hl|(Hl & Hn & Hout)].
      * done.
      * apply inSlice_true. cbn. destruct Hst; auto.
      * by left.
      * right. inversion Hout; subst. split_and!; eauto.
    + intros i st Hi. destruct (Habsent i st Hi eq_refl) as [Hl Hout].
      by inversion Hout.
    + intros ->. destruct (Hdone eq_refl) as (r & st & Hl & Hr & Hm).
      cbn in Hr. subst r. destruct out as [fs|]; [done|]. by exists st.
    + intros i fs st Hi Ha Hd.
      destruct (Hunexpected i fs st Hi) as [Hl Hout].
      * done.
      * apply inSlice_false. cbn. intros [Heq|[Heq|[]]]; by symmetry in Heq.
      * by inversion Hout.
    + intros i r st e Hi. destruct (Herr i r st e Hi) as [Hl Hout].
      by inversion Hout.
    + intros i fs st Hi.
      destruct (Forall_lookup_1 _ _ _ _ Hfrom Hi) as [s0 Hs0].
      pose proof (statusFileSystemLifeCycleState_result conn id s0) as Hres.
      rewrite Hs0 in Hres. by destruct Hres.
    + intros i st Hi.
      destruct (Forall_lookup_1 _ _ _ _ Hfrom Hi) as [s0 Hs0].
      pose proof (statusFileSystemLifeCycleState_result conn id s0) as Hres.
      rewrite Hs0 in Hres. destruct Hres as (_ & e & Hfind & Hnf).
      by exists s0, e.
Qed.

(** A file system seen "creating", then "available". *)
Lemma waitFileSystem_polls_witness :
  fst (waitFileSystemAvailable {| polls := 5; cancelled := false |}
         scriptedEFS "fs-1"
         (scriptedStore None [Some "creating"; Some "available"]))
  = (Some (fileSystemIn "fs-1" "available"), None).
Proof.
  destruct (waitFileSystem_polls Script scriptedEFS
              {| polls := 5; cancelled := false |} "fs-1"
              (scriptedStore None [Some "creating"; Some "available"]))
    as (_ & Havailable & _).
  edestruct Havailable as [Hwait _]; [vm_compute; reflexivity|].
  rewrite Hwait. reflexivity.
Defined.

(** At a state the wait does not expect, the description of the file
    system in that state comes back together with the error. *)
Example waitFileSystemAvailable_unexpected_run :
  fst (waitFileSystemAvailable {| polls := 5; cancelled := false |}
         scriptedEFS "fs-1"
         (scriptedStore None [Some "creating"; Some "deleting"]))
  = (Some (fileSystemIn "fs-1" "deleting"),
     Some (UnexpectedStateError None "deleting" ["available"])).
Proof. vm_compute. reflexivity. Qed.

Example waitFileSystemDeleted_run :
  fst (waitFileSystemDeleted {| polls := 5; cancelled := false |}
         scriptedEFS "fs-1"
         (scriptedStore None [Some "available"; Some "deleting"; None]))
  = (None, None).
Proof. vm_compute. reflexivity. Qed.

(** ** Flatteners and expanders *)

(** C6: flattenFileSystemSizeInBytes gives the empty list for nil and
    otherwise one map, holding "value" always and "value_in_ia" and
    "value_in_standard" exactly when the fields are not nil;
    flattenFileSystemProtection gives the empty list for nil and otherwise
    one map, holding "replication_overwrite" exactly when the field is not
    nil.  The maps hold nothing else. *)
Theorem flatten_size_and_protection :
  flattenFileSystemSizeInBytes None = []
  /\ (forall sizeInBytes : FileSystemSize.t,
        exists m : gmap string prim,
          flattenFileSystemSizeInBytes (Some sizeInBytes) = [Some m]
          /\ m !! "value"
             = Some (PInt (Int64Value (FileSystemSize.Value sizeInBytes)))
          /\ m !! "value_in_ia"
             = PInt <$> FileSystemSize.ValueInIA sizeInBytes
          /\ m !! "value_in_standard"
             = PInt <$> FileSystemSize.ValueInStandard sizeInBytes
          /\ (forall k, k <> "value" -> k <> "value_in_ia" ->
                k <> "value_in_standard" -> m !! k = None))
  /\ flattenFileSystemProtection None = []
  /\ (forall protection : FileSystemProtectionDescription.t,
        exists m : gmap string prim,
          flattenFileSystemProtection (Some protection) = [Some m]
          /\ m !! "replication_overwrite"
             = PString <$> FileSystemProtectionDescription.ReplicationOverwriteProtection
                             protection
          /\ (forall k, k <> "replication_overwrite" -> m !! k = None)).
Proof.
  split_and!.
  - reflexivity.
  - intros [v ia std]. eexists. split; [reflexivity|]. cbn.
    destruct ia as [ia|], std as [std|]; cbn;
      split_and!; try (by simplify_map_eq);
      intros k H1 H2 H3; by simplify_map_eq.
  - reflexivity.
  - intros [r]. eexists. split; [reflexivity|]. cbn.
    destruct r as [r|]; cbn; split; try (by simplify_map_eq);
      intros k H1; by simplify_map_eq.
Qed.

Lemma fold_left_append {A B} (g : list B -> A -> list B) (f : A -> option B)
    (l : list A) (acc : list B) :
  (forall acc x, g acc x = match f x with
                           | Some y => acc ++ [y]
                           | None => acc
                           end) ->
  fold_left g l acc = acc ++ omap f l.
Proof.
  intros Hg. revert acc. induction l as [|x l IH]; intros acc; cbn.
  - by rewrite app_nil_r.
  - rewrite IH, Hg. destruct (f x); [|done]. by rewrite <- app_assoc.
Qed.

Lemma expandFileSystemLifecyclePolicies_omap tfList :
  expandFileSystemLifecyclePolicies tfList
  = omap (fun tfMapRaw => (fun m => Some (expandOne m)) <$> tfMapRaw) tfList.
Proof.
  unfold expandFileSystemLifecyclePolicies.
  rewrite (fold_left_append _
             (fun tfMapRaw => (fun m => Some (expandOne m)) <$> tfMapRaw)).
  - reflexivity.
  - intros acc [m|]; reflexivity.
Qed.

Lemma flattenFileSystemLifecyclePolicies_omap apiObjects :
  flattenFileSystemLifecyclePolicies apiObjects
  = omap (fun apiObject => (fun o => Some (flattenOne o)) <$> apiObject)
         apiObjects.
Proof.
  unfold flattenFileSystemLifecyclePolicies.
  rewrite (fold_left_append _
             (fun apiObject => (fun o => Some (flattenOne o)) <$> apiObject)).
  - reflexivity.
  - intros acc [o|]; reflexivity.
Qed.

Lemma nonEmptyStringAt_lookup m k :
  lifecyclePolicyMap m ->
  PString <$> nonEmptyStringAt m k = m !! k.
Proof.
  intros Hm. unfold nonEmptyStringAt, stringAt.
  destruct (m !! k) as [v|] eqn:Hk; [|reflexivity].
  destruct (Hm k v Hk) as (_ & s & -> & Hs). cbn.
  apply String.eqb_neq in Hs. rewrite Hs. reflexivity.
Qed.

Lemma flattenOne_lookup o k :
  flattenOne o !! k =
  if decide (k = "transition_to_primary_storage_class")
  then PString <$> LifecyclePolicy.TransitionToPrimaryStorageClass o
  else if decide (k = "transition_to_ia")
  then PString <$> LifecyclePolicy.TransitionToIA o
  else if decide (k = "transition_to_archive")
  then PString <$> LifecyclePolicy.TransitionToArchive o
  else None.
Proof.
  destruct o as [[a|] [i|] [p|]]; unfold flattenOne; cbn;
    repeat case_decide; by simplify_map_eq.
Qed.

Lemma flattenOne_expandOne m :
  lifecyclePolicyMap m -> flattenOne (expandOne m) = m.
Proof.
  intros Hm. apply map_eq. intros k. rewrite flattenOne_lookup.
  unfold expandOne. cbn.
  repeat case_decide; subst; try by apply nonEmptyStringAt_lookup.
  destruct (m !! k) as [v|] eqn:Hk; [|done].
  destruct (Hm k v Hk) as ([|[|]] & _); done.
Qed.

(** C7: on a list of lifecycle-policy maps, flattening the expansion gives
    the list back. *)
Theorem flatten_expand_FileSystemLifecyclePolicies :
  forall l : list (gmap string prim),
    Forall lifecyclePolicyMap l ->
    flattenFileSystemLifecyclePolicies
      (expandFileSystemLifecyclePolicies (Some <$> l))
    = Some <$> l.
Proof.
  intros l Hl.
  rewrite expandFileSystemLifecyclePolicies_omap,
    flattenFileSystemLifecyclePolicies_omap.
  induction Hl as [|m l Hm Hl IH]; [reflexivity|].
  cbn. rewrite flattenOne_expandOne by done. f_equal. exact IH.
Qed.

(** Two policies as the configuration gives them. *)
Lemma flatten_expand_FileSystemLifecyclePolicies_witness :
  flattenFileSystemLifecyclePolicies
    (expandFileSystemLifecyclePolicies
       (Some <$> [ ({[ "transition_to_ia" := PString "AFTER_30_DAYS" ]}
                     : gmap string prim);
                   {[ "transition_to_primary_storage_class"
                        := PString "AFTER_1_ACCESS" ]} ]))
  = Some <$> [ ({[ "transition_to_ia" := PString "AFTER_30_DAYS" ]}
                 : gmap string prim);
               {[ "transition_to_primary_storage_class"
                    := PString "AFTER_1_ACCESS" ]} ].
Proof.
  apply flatten_expand_FileSystemLifecyclePolicies.
  apply Forall_cons_2; [|apply Forall_cons_2; [|apply Forall_nil_2]].
  - intros k v [<- <-]%lookup_singleton_Some.
    split; [tauto|]. eexists. split; [reflexivity|discriminate].
  - intros k v [<- <-]%lookup_singleton_Some.
    split; [tauto|]. eexists. split; [reflexivity|discriminate].
Defined.

(** A nil element and a key bound to the empty string are dropped by the
    expansion, so they do not come back. *)
Example expandFileSystemLifecyclePolicies_drops :
  expandFileSystemLifecyclePolicies
    [None; Some {[ "transition_to_ia" := PString "" ]}]
  = [Some {| LifecyclePolicy.TransitionToArchive := None;
             LifecyclePolicy.TransitionToIA := None;
             LifecyclePolicy.TransitionToPrimaryStorageClass := None |}].
Proof. reflexivity. Qed.

(** ** The requests the handlers send *)

Lemma extends_refl {W} (s : Store W) : extends s s.
Proof. exists []. by rewrite app_nil_r. Qed.

Lemma extends_trans {W} (s1 s2 s3 : Store W) :
  extends s1 s2 -> extends s2 s3 -> extends s1 s3.
Proof.
  intros [n1 H1] [n2 H2]. exists (n1 ++ n2).
  by rewrite H2, H1, <- app_assoc.
Qed.

Lemma invoke_calls {W A} (c : ApiCall) (op : W -> A * W) (s : Store W) :
  calls (snd (invoke c op s)) = calls s ++ [c].
Proof. unfold invoke. by destruct (op (world s)). Qed.

Lemma invoke_extends {W A} (c : ApiCall) (op : W -> A * W) (s : Store W) :
  extends s (snd (invoke c op s)).
Proof. exists [c]. apply invoke_calls. Qed.

Lemma FindFileSystemByID_calls {W} (conn : EFS W) id (s : Store W) :
  calls (snd (FindFileSystemByID conn id s))
  = calls s ++ [CallDescribeFileSystems
                  {| DescribeFileSystemsInput.CreationToken := None;
                     DescribeFileSystemsInput.FileSystemId := Some id |}].
Proof.
  unfold FindFileSystemByID, findFileSystem, findFileSystems.
  match goal with |- context [invoke ?c ?op s] =>
    pose proof (invoke_calls c op s) as Hc;
    destruct (invoke c op s) as [[pages err] s1] end.
  cbn in Hc. destruct (ErrCodeEquals err _); [done|].
  destruct err; [done|]. cbn. done.
Qed.

Lemma statusFileSystemLifeCycleState_extends {W} (conn : EFS W) id s :
  extends s (snd (statusFileSystemLifeCycleState conn id s)).
Proof.
  unfold statusFileSystemLifeCycleState.
  pose proof (FindFileSystemByID_calls conn id s) as Hc.
  destruct (FindFileSystemByID conn id s) as [[fs|e] s1]; cbn in Hc.
  - eexists. exact Hc.
  - destruct (notFound e); eexists; exact Hc.
Qed.

Lemma refreshLoop_extends {W R} (conf : StateChangeConf (Store W) R) cancel n :
  (forall s, extends s (snd (Refresh conf s))) ->
  forall tick occ lastState s,
    extends s (snd (refreshLoop conf cancel n tick occ lastState s)).
Proof.
  intros Href. induction n as [|n IH]; intros tick occ lastState s.
  - apply extends_refl.
  - cbn [refreshLoop]. specialize (Href s).
    destruct (Refresh conf s) as [[[res st] err] s1]. cbn in Href.
    destruct err as [e|]; [done|].
    destruct res as [r|].
    + destruct (scanTarget _ _ _ _ _) as [[done found] occ'].
      destruct done; [done|].
      destruct (negb _ && negb _); [done|].
      eapply extends_trans; [exact Href|apply IH].
    + destruct (Nat.eqb (length (Target conf)) 0).
      * destruct (Nat.eqb _ _); [done|].
        eapply extends_trans; [exact Href|apply IH].
      * destruct (Nat.ltb _ _); [done|].
        eapply extends_trans; [exact Href|apply IH].
Qed.

Lemma waitFileSystemAvailable_extends {W} ctx (conn : EFS W) id s :
  extends s (snd (waitFileSystemAvailable ctx conn id s)).
Proof.
  unfold waitFileSystemAvailable, WaitForStateContext.
  match goal with |- context [refreshLoop ?c ?b ?n ?t ?o ?l s] =>
    pose proof (refreshLoop_extends c b n
                  (statusFileSystemLifeCycleState_extends conn id) t o l s)
      as Hx;
    destruct (refreshLoop c b n t o l s) as [[[out|] err] s1] end; exact Hx.
Qed.

Lemma waitFileSystemDeleted_extends {W} ctx (conn : EFS W) id s :
  extends s (snd (waitFileSystemDeleted ctx conn id s)).
Proof.
  unfold waitFileSystemDeleted, WaitForStateContext.
  match goal with |- context [refreshLoop ?c ?b ?n ?t ?o ?l s] =>
    pose proof (refreshLoop_extends c b n
                  (statusFileSystemLifeCycleState_extends conn id) t o l s)
      as Hx;
    destruct (refreshLoop c b n t o l s) as [[[out|] err] s1] end; exact Hx.
Qed.

Lemma resourceFileSystemRead_extends {W} ctx d (meta : AWSClient W) s :
  extends s (snd (resourceFileSystemRead ctx d meta s)).
Proof.
  unfold resourceFileSystemRead.
  pose proof (FindFileSystemByID_calls (EFSConn meta) (Id d) s) as Hc.
  destruct (FindFileSystemByID (EFSConn meta) (Id d) s) as [found s1].
  cbn in Hc. assert (Hx : extends s s1) by (eexists; exact Hc).
  destruct (negb (IsNewResource d) && NotFound (errOf found)); [done|].
  destruct found as [fs|err]; [|done].
  repeat match goal with
         | |- context [match Set_ ?d ?k ?v with _ => _ end] =>
             destruct (Set_ d k v) as [[?|] ?]; [done|]
         end.
  match goal with |- context [invoke ?c ?op ?s0] =>
    pose proof (invoke_calls c op s0) as Hi;
    destruct (invoke c op s0) as [[policies|err] s2] end; cbn in Hi.
  - assert (Hx2 : extends s s2).
    { eapply extends_trans; [exact Hx|]. eexists. exact Hi. }
    match goal with
    | |- context [match Set_ ?d ?k ?v with _ => _ end] =>
        destruct (Set_ d k v) as [[?|] ?]; done
    end.
  - eapply extends_trans; [exact Hx|]. eexists. exact Hi.
Qed.

Lemma creationTokenOf_calls {W} d (meta : AWSClient W) s :
  calls (snd (creationTokenOf d meta s)) = calls s.
Proof.
  unfold creationTokenOf. destruct (GetOk d "creation_token") as [v [|]].
  - reflexivity.
  - by destruct (UniqueId meta (world s)).
Qed.

Lemma GetOk_string d key k :
  getRaw d key = Some (VPrim (PString k)) -> k <> "" ->
  GetOk d key = (VPrim (PString k), true).
Proof.
  intros Hraw Hk. unfold GetOk. rewrite Hraw. cbn.
  rewrite bool_decide_eq_false_2; [reflexivity|]. congruence.
Qed.

Lemma GetOk_encrypted_unset d :
  getRaw d "encrypted" = None \/
  getRaw d "encrypted" = Some (VPrim (PBool false)) ->
  GetOk d "encrypted" = (VPrim (PBool false), false).
Proof. intros [Hraw|Hraw]; unfold GetOk; rewrite Hraw; reflexivity. Qed.

(** C8: with "kms_key_id" given (a non-empty string) and "encrypted"
    absent or false, resourceFileSystemCreate returns the error
    "encrypted must be set to true when kms_key_id is specified" and
    sends no request. *)
Theorem resourceFileSystemCreate_kms_requires_encrypted :
  forall (W : Type) (ctx : Context) (d : ResourceData) (meta : AWSClient W)
         (s : Store W) (k : string),
    getRaw d "kms_key_id" = Some (VPrim (PString k)) -> k <> "" ->
    (getRaw d "encrypted" = None \/
     getRaw d "encrypted" = Some (VPrim (PBool false))) ->
    fst (resourceFileSystemCreate ctx d meta s)
    = ([{| severity := SeverityError;
           summary := ErrorOf (errorString
             "encrypted must be set to true when kms_key_id is specified") |}],
       d)
    /\ calls (snd (resourceFileSystemCreate ctx d meta s)) = calls s.
Proof.
  intros W ctx d meta s k Hkms Hk Henc.
  unfold resourceFileSystemCreate.
  pose proof (creationTokenOf_calls d meta s) as Hcalls.
  destruct (creationTokenOf d meta s) as [creationToken s1].
  rewrite (GetOk_encrypted_unset d Henc), (GetOk_string d _ k Hkms Hk).
  cbn. split; [reflexivity|exact Hcalls].
Qed.

(** A key given and "encrypted" left unset. *)
Lemma resourceFileSystemCreate_kms_requires_encrypted_witness :
  fst (resourceFileSystemCreate {| polls := 5; cancelled := false |}
         (plannedData "" true
            [("kms_key_id",
              VPrim (PString "arn:aws:kms:us-east-1:123456789012:key/k1"))])
         scriptedClient (scriptedStore None []))
  = ([{| severity := SeverityError;
         summary := ErrorOf (errorString
           "encrypted must be set to true when kms_key_id is specified") |}],
     plannedData "" true
       [("kms_key_id",
         VPrim (PString "arn:aws:kms:us-east-1:123456789012:key/k1"))]).
Proof.
  eapply (resourceFileSystemCreate_kms_requires_encrypted Script
            {| polls := 5; cancelled := false |} _ scriptedClient
            (scriptedStore None [])
            "arn:aws:kms:us-east-1:123456789012:key/k1").
  - reflexivity.
  - discriminate.
  - left. reflexivity.
Defined.

(** With "encrypted" true the same configuration goes through to the
    request. *)
Example resourceFileSystemCreate_encrypted_run :
  calls (snd (resourceFileSystemCreate {| polls := 0; cancelled := false |}
                (plannedData "" true
                   [("kms_key_id", VPrim (PString "arn:aws:kms:k1"));
                    ("encrypted", VPrim (PBool true))])
                scriptedClient (scriptedStore None [])))
  = [CallCreateFileSystem
       {| CreateFileSystemInput.AvailabilityZoneName := None;
          CreateFileSystemInput.CreationToken :=
            Some "terraform-20240101000000000000000001";
          CreateFileSystemInput.Encrypted := Some true;
          CreateFileSystemInput.KmsKeyId := Some "arn:aws:kms:k1";
          CreateFileSystemInput.PerformanceMode := None;
          CreateFileSystemInput.ProvisionedThroughputInMibps := None;
          CreateFileSystemInput.Tags := [];
          CreateFileSystemInput.ThroughputMode := Some "bursting" |}].
Proof. vm_compute. reflexivity. Qed.

(** C10: when FindFileSystemByID reports the file system as not found,
    resourceFileSystemRead on a resource that is not new clears the ID and
    returns no diagnostics; on a new resource it returns the error. *)
Theorem resourceFileSystemRead_not_found :
  forall (W : Type) (ctx : Context) (d : ResourceData) (meta : AWSClient W)
         (s : Store W),
    NotFound (errOf (fst (FindFileSystemByID (EFSConn meta) (Id d) s))) = true ->
    (IsNewResource d = false ->
       fst (resourceFileSystemRead ctx d meta s) = ([], SetId "" d)
       /\ Id (snd (fst (resourceFileSystemRead ctx d meta s))) = "")
    /\ (IsNewResource d = true ->
          exists err,
            fst (FindFileSystemByID (EFSConn meta) (Id d) s) = Failure err
            /\ fst (resourceFileSystemRead ctx d meta s)
               = ([{| severity := SeverityError;
                      summary := Errorf "reading EFS file system (%s): %s"
                                   [ArgString (Id d); ArgError err] |}], d)
            /\ HasError (fst (fst (resourceFileSystemRead ctx d meta s)))
               = true).
Proof.
  intros W ctx d meta s Hnf. unfold resourceFileSystemRead.
  destruct (FindFileSystemByID (EFSConn meta) (Id d) s) as [found s1].
  cbn [fst] in Hnf. split; intros Hnew; rewrite Hnew, Hnf; cbn [negb andb fst snd].
  - split; reflexivity.
  - destruct found as [fs|err]; [discriminate Hnf|].
    exists err. split_and!; reflexivity.
Qed.

(** A file system that is gone from the remote side. *)
Lemma resourceFileSystemRead_not_found_witness :
  fst (resourceFileSystemRead {| polls := 5; cancelled := false |}
         (plannedData "fs-1" false []) scriptedClient (scriptedStore None []))
  = ([], plannedData "" false []).
Proof.
  edestruct (resourceFileSystemRead_not_found Script
               {| polls := 5; cancelled := false |}
               (plannedData "fs-1" false []) scriptedClient
               (scriptedStore None [])) as [Hold _].
  - reflexivity.
  - destruct (Hold eq_refl) as [Hread _]. exact Hread.
Defined.

(** The error code of the API and an empty result are both reported as
    not found by FindFileSystemByID. *)
Lemma FindFileSystemByID_NotFound {W} (conn : EFS W) id s pages err w :
  DescribeFileSystemsPagesWithContext conn
    {| DescribeFileSystemsInput.CreationToken := None;
       DescribeFileSystemsInput.FileSystemId := Some id |} (world s)
  = ((pages, err), w) ->
  ErrCodeEquals err ErrCodeFileSystemNotFound = true
  \/ (err = None /\ pages = []) ->
  NotFound (errOf (fst (FindFileSystemByID conn id s))) = true.
Proof.
  intros Hd Hcase.
  unfold FindFileSystemByID, findFileSystem, findFileSystems, invoke.
  rewrite Hd. destruct Hcase as [Hcode|[-> ->]].
  - rewrite Hcode. reflexivity.
  - reflexivity.
Qed.

(** ** Delete *)

(** C9: on the error code FileSystemNotFound resourceFileSystemDelete
    returns no diagnostics after the one delete request, without waiting;
    any other error of the request is reported; and after a successful
    request it waits with waitFileSystemDeleted, reports the error of the
    wait, and returns no diagnostics only when the last poll of the wait
    did not find the file system. *)
Theorem resourceFileSystemDelete_outcomes :
  forall (W : Type) (ctx : Context) (d : ResourceData) (meta : AWSClient W)
         (s : Store W) (err : option error) (w1 : W),
    DeleteFileSystemWithContext (EFSConn meta) (Id d) (world s) = (err, w1) ->
    (ErrCodeEquals err ErrCodeFileSystemNotFound = true ->
       resourceFileSystemDelete ctx d meta s
       = (([], d),
          {| world := w1; calls := calls s ++ [CallDeleteFileSystem (Id d)];
             tagsOut := tagsOut s |}))
    /\ (forall e, err = Some e ->
          ErrCodeEquals err ErrCodeFileSystemNotFound = false ->
          resourceFileSystemDelete ctx d meta s
          = (([{| severity := SeverityError;
                  summary := Errorf "deleting EFS file system (%s): %s"
                               [ArgString (Id d); ArgError e] |}], d),
             {| world := w1; calls := calls s ++ [CallDeleteFileSystem (Id d)];
                tagsOut := tagsOut s |}))
    /\ (err = None ->
          forall out waitErr log s',
            WaitForStateContext
              (fileSystemDeletedStateConf
                 (tracedRefresh
                    (statusFileSystemLifeCycleState (EFSConn meta) (Id d))))
              ctx
              ([], {| world := w1;
                      calls := calls s ++ [CallDeleteFileSystem (Id d)];
                      tagsOut := tagsOut s |})
            = ((out, waitErr), (log, s')) ->
            resourceFileSystemDelete ctx d meta s
            = ((match waitErr with
                | Some e =>
                    [{| severity := SeverityError;
                        summary :=
                          Errorf "waiting for EFS file system (%s) delete: %s"
                            [ArgString (Id d); ArgError e] |}]
                | None => []
                end, d), s')
            /\ (waitErr = None ->
                  exists st, last log = Some (None, st, None))).
Proof.
  intros W ctx d meta s err w1 Hdel.
  unfold resourceFileSystemDelete, invoke. rewrite Hdel. split_and!.
  - intros ->. reflexivity.
  - intros e -> ->. reflexivity.
  - intros -> out waitErr log s' Hrun. cbn.
    apply waitFileSystemDeleted_traced in Hrun as [Hwait Hpost].
    rewrite Hwait. split; [by destruct waitErr|].
    intros ->. destruct Hpost as (_ & _ & _ & _ & _ & _ & Hdone & _).
    destruct (Hdone eq_refl) as (r & st & Hl & Hr & Hm).
    cbn in Hr. subst r. destruct out; [done|]. by exists st.
Qed.

(** A file system that is already gone when delete is called. *)
Lemma resourceFileSystemDelete_outcomes_witness :
  resourceFileSystemDelete {| polls := 5; cancelled := false |}
    (plannedData "fs-1" false []) scriptedClient
    (scriptedStore (Some fileSystemNotFound) [Some "available"])
  = (([], plannedData "fs-1" false []),
     {| world := {| deleteError := Some fileSystemNotFound;
                    states := [Some "available"] |};
        calls := [CallDeleteFileSystem "fs-1"];
        tagsOut := [] |}).
Proof.
  edestruct (resourceFileSystemDelete_outcomes Script
               {| polls := 5; cancelled := false |}
               (plannedData "fs-1" false []) scriptedClient
               (scriptedStore (Some fileSystemNotFound) [Some "available"]))
    as [Hgone _]; [reflexivity|].
  apply Hgone. reflexivity.
Defined.

(** A delete that is accepted: the handler polls until the file system is
    not found. *)
Example resourceFileSystemDelete_waits_run :
  let r := resourceFileSystemDelete {| polls := 5; cancelled := false |}
             (plannedData "fs-1" false []) scriptedClient
             (scriptedStore None [Some "available"; Some "deleting"; None]) in
  fst (fst r) = [] /\ length (calls (snd r)) = 4%nat.
Proof. vm_compute. split; reflexivity. Qed.

(** ** The requests of create and update *)

Lemma GetOk_unset d key :
  getRaw d key = None \/ getRaw d key = Some (VPrim (PString "")) ->
  snd (GetOk d key) = false.
Proof. intros [Hraw|Hraw]; unfold GetOk; rewrite Hraw; reflexivity. Qed.

(** After the create request the handler only sends further requests. *)
Lemma resourceFileSystemCreate_calls {W} ctx d (meta : AWSClient W) s :
  let input := createFileSystemInput (fst (creationTokenOf d meta s))
                 (getTagsIn meta) d in
  if bool_decide (fst (GetOk d "encrypted") = VPrim (PBool false))
     && snd (GetOk d "kms_key_id")
  then calls (snd (resourceFileSystemCreate ctx d meta s)) = calls s
  else exists rest,
         calls (snd (resourceFileSystemCreate ctx d meta s))
         = calls s ++ CallCreateFileSystem input :: rest.
Proof.
  cbn zeta. unfold resourceFileSystemCreate.
  pose proof (creationTokenOf_calls d meta s) as Hcalls.
  destruct (creationTokenOf d meta s) as [creationToken s1]. cbn [fst snd] in *.
  destruct (GetOk d "encrypted") as [encrypted hasEncrypted].
  destruct (GetOk d "kms_key_id") as [kmsKeyId hasKmsKeyId]. cbn [fst snd].
  destruct (bool_decide (encrypted = VPrim (PBool false)) && hasKmsKeyId);
    [exact Hcalls|].
  match goal with |- context [invoke ?c ?op s1] =>
    pose proof (invoke_calls c op s1) as Hi;
    destruct (invoke c op s1) as [output s2] end.
  cbn [snd] in Hi. rewrite Hcalls in Hi.
  assert (Hgoal : forall s3 : Store W, extends s2 s3 ->
            exists rest, calls s3
              = calls s ++ CallCreateFileSystem
                             (createFileSystemInput creationToken
                                (getTagsIn meta) d) :: rest).
  { intros s3 [new Hnew]. exists new. rewrite Hnew, Hi.
    by rewrite <- app_assoc. }
  destruct output as [output|err]; [|apply Hgoal, extends_refl].
  match goal with |- context [waitFileSystemAvailable ?c ?conn ?i s2] =>
    pose proof (waitFileSystemAvailable_extends c conn i s2) as Hw;
    destruct (waitFileSystemAvailable c conn i s2) as [[out err] s3] end.
  cbn [snd] in Hw. destruct err as [err|]; [by apply Hgoal|].
  match goal with |- context [GetOk ?d0 "lifecycle_policy"] =>
    destruct (GetOk d0 "lifecycle_policy") as [v [|]] end.
  - match goal with |- context [invoke ?c ?op s3] =>
      pose proof (invoke_extends c op s3) as Hp;
      destruct (invoke c op s3) as [err s4] end.
    cbn [snd] in Hp.
    assert (Hx4 : extends s2 s4) by (by eapply extends_trans).
    destruct err as [err|]; [by apply Hgoal|].
    match goal with |- context [protectionBlock ?d0] =>
      destruct (protectionBlock d0) as [tfMap|] end.
    + match goal with |- context [invoke ?c ?op s4] =>
        pose proof (invoke_extends c op s4) as Hu;
        destruct (invoke c op s4) as [err s5] end.
      cbn [snd] in Hu.
      assert (Hx5 : extends s2 s5) by (by eapply extends_trans).
      destruct err as [err|]; [by apply Hgoal|].
      match goal with |- context [resourceFileSystemRead ?c ?d0 meta s5] =>
        pose proof (resourceFileSystemRead_extends c d0 meta s5) as Hr;
        destruct (resourceFileSystemRead c d0 meta s5) as [[diags d1] s6] end.
      apply Hgoal. by eapply extends_trans.
    + match goal with |- context [resourceFileSystemRead ?c ?d0 meta s4] =>
        pose proof (resourceFileSystemRead_extends c d0 meta s4) as Hr;
        destruct (resourceFileSystemRead c d0 meta s4) as [[diags d1] s6] end.
      apply Hgoal. by eapply extends_trans.
  - match goal with |- context [protectionBlock ?d0] =>
      destruct (protectionBlock d0) as [tfMap|] end.
    + match goal with |- context [invoke ?c ?op s3] =>
        pose proof (invoke_extends c op s3) as Hu;
        destruct (invoke c op s3) as [err s5] end.
      cbn [snd] in Hu.
      assert (Hx5 : extends s2 s5) by (by eapply extends_trans).
      destruct err as [err|]; [by apply Hgoal|].
      match goal with |- context [resourceFileSystemRead ?c ?d0 meta s5] =>
        pose proof (resourceFileSystemRead_extends c d0 meta s5) as Hr;
        destruct (resourceFileSystemRead c d0 meta s5) as [[diags d1] s6] end.
      apply Hgoal. by eapply extends_trans.
    + match goal with |- context [resourceFileSystemRead ?c ?d0 meta s3] =>
        pose proof (resourceFileSystemRead_extends c d0 meta s3) as Hr;
        destruct (resourceFileSystemRead c d0 meta s3) as [[diags d1] s6] end.
      apply Hgoal. by eapply extends_trans.
Qed.

(** When the throughput changed, resourceFileSystemUpdate starts with the
    update request. *)
Lemma resourceFileSystemUpdate_calls {W} ctx d (meta : AWSClient W) s :
  HasChanges d ["provisioned_throughput_in_mibps"; "throughput_mode"] = true ->
  exists rest,
    calls (snd (resourceFileSystemUpdate ctx d meta s))
    = calls s ++ CallUpdateFileSystem (updateFileSystemInput d) :: rest.
Proof.
  intros Hchg. unfold resourceFileSystemUpdate. rewrite Hchg.
  match goal with |- context [invoke ?c ?op s] =>
    pose proof (invoke_calls c op s) as Hi;
    destruct (invoke c op s) as [err s2] end.
  cbn [snd] in Hi.
  assert (Hgoal : forall s3 : Store W, extends s2 s3 ->
            exists rest, calls s3
              = calls s ++ CallUpdateFileSystem (updateFileSystemInput d)
                             :: rest).
  { intros s3 [new Hnew]. exists new. rewrite Hnew, Hi.
    by rewrite <- app_assoc. }
  destruct err as [err|]; [apply Hgoal, extends_refl|].
  pose proof (waitFileSystemAvailable_extends ctx (EFSConn meta) (Id d) s2)
    as Hw.
  destruct (waitFileSystemAvailable ctx (EFSConn meta) (Id d) s2)
    as [[out err] s3].
  cbn [snd] in Hw. destruct err as [err|]; [by apply Hgoal|].
  assert (Hput : forall input,
            extends s2 (snd (invoke (CallPutLifecycleConfiguration input)
                               (PutLifecycleConfigurationWithContext
                                  (EFSConn meta) input) s3))).
  { intros input. eapply extends_trans; [exact Hw|apply invoke_extends]. }
  assert (Htail : forall s4 : Store W, extends s2 s4 ->
            exists rest,
              calls (snd
                (let '(diags3, s) :=
                   if HasChanges d ["protection"]
                   then
                     match protectionBlock d with
                     | Some tfMap =>
                         let input :=
                           expandUpdateFileSystemProtectionInput (Id d)
                             (Some tfMap) in
                         let '(err, s) :=
                           invoke (CallUpdateFileSystemProtection input)
                             (UpdateFileSystemProtectionWithContext
                                (EFSConn meta) input) s4 in
                         match err with
                         | Some err =>
                             (Some (AppendErrorf []
                                      "updating EFS file system (%s) protection: %s"
                                      [ArgString (Id d); ArgError err]), s)
                         | None => (None, s)
                         end
                     | None => (None, s4)
                     end
                   else (None, s4) in
                 match diags3 with
                 | Some diags => ((diags, d), s)
                 | None =>
                     let '((diags', d), s) :=
                       resourceFileSystemRead ctx d meta s in
                     (([] ++ diags', d), s)
                 end))
              = calls s ++ CallUpdateFileSystem (updateFileSystemInput d)
                             :: rest).
  { intros s4 Hx4.
    assert (Hread : forall s5 : Store W, extends s2 s5 ->
              exists rest,
                calls (snd (let '((diags', d), s) :=
                              resourceFileSystemRead ctx d meta s5 in
                            (([] ++ diags', d), s)))
                = calls s ++ CallUpdateFileSystem (updateFileSystemInput d)
                               :: rest).
    { intros s5 Hx5.
      pose proof (resourceFileSystemRead_extends ctx d meta s5) as Hr.
      destruct (resourceFileSystemRead ctx d meta s5) as [[diags d1] s6].
      apply Hgoal. by eapply extends_trans. }
    destruct (HasChanges d ["protection"]); [|by apply Hread].
    destruct (protectionBlock d) as [tfMap|]; [|by apply Hread].
    cbv zeta.
    match goal with |- context [invoke ?c ?op s4] =>
      pose proof (invoke_extends c op s4) as Hu;
      destruct (invoke c op s4) as [err s5] end.
    cbn [snd] in Hu.
    assert (Hx5 : extends s2 s5) by (by eapply extends_trans).
    destruct err as [err|]; [by apply Hgoal|by apply Hread]. }
  destruct (HasChange d "lifecycle_policy"); [|by apply Htail].
  cbv zeta.
  match goal with |- context [invoke ?c ?op s3] =>
    pose proof (invoke_extends c op s3) as Hp;
    destruct (invoke c op s3) as [err s4] end.
  cbn [snd] in Hp.
  assert (Hx4 : extends s2 s4) by (by eapply extends_trans).
  destruct err as [err|]; [by apply Hgoal|by apply Htail].
Qed.

(** C3: the request of resourceFileSystemCreate.  Its creation token is
    the configured "creation_token" when that is set and the unique ID
    otherwise; "availability_zone_name" and "performance_mode" are in the
    request exactly when set, with the configured value;
    ProvisionedThroughputInMibps is in the request exactly when
    "throughput_mode" is "provisioned"; and unless the configuration is
    rejected this is the first request the handler sends.  The update
    request carries ProvisionedThroughputInMibps under the same condition
    and is the first request sent when the throughput changed. *)
Theorem resourceFileSystemCreate_input :
  forall (W : Type) (ctx : Context) (d : ResourceData) (meta : AWSClient W)
         (s : Store W),
    (* the creation token *)
    (forall k, getRaw d "creation_token" = Some (VPrim (PString k)) ->
       k <> "" -> fst (creationTokenOf d meta s) = k)
    /\ (getRaw d "creation_token" = None
        \/ getRaw d "creation_token" = Some (VPrim (PString "")) ->
        fst (creationTokenOf d meta s) = fst (UniqueId meta (world s)))
    (* the fields of the request *)
    /\ (forall creationToken tags,
          CreateFileSystemInput.CreationToken
            (createFileSystemInput creationToken tags d) = Some creationToken
          /\ (forall k,
                getRaw d "availability_zone_name" = Some (VPrim (PString k)) ->
                k <> "" ->
                CreateFileSystemInput.AvailabilityZoneName
                  (createFileSystemInput creationToken tags d) = Some k)
          /\ (getRaw d "availability_zone_name" = None
              \/ getRaw d "availability_zone_name" = Some (VPrim (PString "")) ->
              CreateFileSystemInput.AvailabilityZoneName
                (createFileSystemInput creationToken tags d) = None)
          /\ (forall k,
                getRaw d "performance_mode" = Some (VPrim (PString k)) ->
                k <> "" ->
                CreateFileSystemInput.PerformanceMode
                  (createFileSystemInput creationToken tags d) = Some k)
          /\ (getRaw d "performance_mode" = None
              \/ getRaw d "performance_mode" = Some (VPrim (PString "")) ->
              CreateFileSystemInput.PerformanceMode
                (createFileSystemInput creationToken tags d) = None)
          /\ (is_Some (CreateFileSystemInput.ProvisionedThroughputInMibps
                         (createFileSystemInput creationToken tags d))
              <-> asString (Get d "throughput_mode") = ThroughputModeProvisioned)
          /\ (asString (Get d "throughput_mode") = ThroughputModeProvisioned ->
              CreateFileSystemInput.ProvisionedThroughputInMibps
                (createFileSystemInput creationToken tags d)
              = Some (asFloat64 (Get d "provisioned_throughput_in_mibps"))))
    (* the request is what the handler sends *)
    /\ (bool_decide (fst (GetOk d "encrypted") = VPrim (PBool false))
        && snd (GetOk d "kms_key_id") = false ->
        exists rest,
          calls (snd (resourceFileSystemCreate ctx d meta s))
          = calls s
            ++ CallCreateFileSystem
                 (createFileSystemInput (fst (creationTokenOf d meta s))
                    (getTagsIn meta) d) :: rest)
    (* update *)
    /\ (is_Some (UpdateFileSystemInput.ProvisionedThroughputInMibps
                   (updateFileSystemInput d))
        <-> asString (Get d "throughput_mode") = ThroughputModeProvisioned)
    /\ (asString (Get d "throughput_mode") = ThroughputModeProvisioned ->
        UpdateFileSystemInput.ProvisionedThroughputInMibps
          (updateFileSystemInput d)
        = Some (asFloat64 (Get d "provisioned_throughput_in_mibps")))
    /\ (HasChanges d ["provisioned_throughput_in_mibps"; "throughput_mode"]
        = true ->
        exists rest,
          calls (snd (resourceFileSystemUpdate ctx d meta s))
          = calls s ++ CallUpdateFileSystem (updateFileSystemInput d) :: rest).
Proof.
  intros W ctx d meta s. split_and!.
  - intros k Hraw Hk. unfold creationTokenOf.
    by rewrite (GetOk_string d _ k Hraw Hk).
  - intros Hraw. unfold creationTokenOf.
    pose proof (GetOk_unset d _ Hraw) as Hok.
    destruct (GetOk d "creation_token") as [v ok]. cbn in Hok. subst ok.
    by destruct (UniqueId meta (world s)).
  - intros creationToken tags. unfold createFileSystemInput.
    destruct (GetOk d "encrypted") as [encrypted hasEncrypted].
    destruct (GetOk d "kms_key_id") as [kmsKeyId hasKmsKeyId].
    cbn [CreateFileSystemInput.CreationToken
         CreateFileSystemInput.AvailabilityZoneName
         CreateFileSystemInput.PerformanceMode
         CreateFileSystemInput.ProvisionedThroughputInMibps].
    split_and!.
    + reflexivity.
    + intros k Hraw Hk. by rewrite (GetOk_string d _ k Hraw Hk).
    + intros Hraw. pose proof (GetOk_unset d _ Hraw) as Hok.
      destruct (GetOk d "availability_zone_name") as [v ok].
      cbn in Hok. by subst ok.
    + intros k Hraw Hk. by rewrite (GetOk_string d _ k Hraw Hk).
    + intros Hraw. pose proof (GetOk_unset d _ Hraw) as Hok.
      destruct (GetOk d "performance_mode") as [v ok].
      cbn in Hok. by subst ok.
    + destruct (String.eqb_spec (asString (Get d "throughput_mode"))
                  ThroughputModeProvisioned) as [Heq|Hne].
      * split; [done|]. intros _. by eexists.
      * split; [|done]. by intros [x Hx].
    + intros ->. reflexivity.
  - intros Hok. pose proof (resourceFileSystemCreate_calls ctx d meta s) as Hc.
    cbn zeta in Hc. by rewrite Hok in Hc.
  - unfold updateFileSystemInput.
    cbn [UpdateFileSystemInput.ProvisionedThroughputInMibps].
    destruct (String.eqb_spec (asString (Get d "throughput_mode"))
                ThroughputModeProvisioned) as [Heq|Hne].
    + split; [done|]. intros _. by eexists.
    + split; [|done]. by intros [x Hx].
  - intros Heq. unfold updateFileSystemInput.
    cbn [UpdateFileSystemInput.ProvisionedThroughputInMibps].
    rewrite Heq. reflexivity.
  - apply resourceFileSystemUpdate_calls.
Qed.

(** A configuration with provisioned throughput and no creation token. *)
Lemma resourceFileSystemCreate_input_witness :
  exists rest,
    calls (snd (resourceFileSystemCreate {| polls := 3; cancelled := false |}
                  (plannedData "" true
                     [("throughput_mode", VPrim (PString "provisioned"));
                      ("provisioned_throughput_in_mibps", VPrim (PFloat 4607182418800017408));
                      ("performance_mode", VPrim (PString "maxIO"))])
                  scriptedClient
                  (scriptedStore None [Some "creating"; Some "available"])))
    = CallCreateFileSystem
        {| CreateFileSystemInput.AvailabilityZoneName := None;
           CreateFileSystemInput.CreationToken :=
             Some "terraform-20240101000000000000000001";
           CreateFileSystemInput.Encrypted := None;
           CreateFileSystemInput.KmsKeyId := None;
           CreateFileSystemInput.PerformanceMode := Some "maxIO";
           CreateFileSystemInput.ProvisionedThroughputInMibps :=
             Some 4607182418800017408;
           CreateFileSystemInput.Tags := [];
           CreateFileSystemInput.ThroughputMode := Some "provisioned" |}
        :: rest.
Proof.
  destruct (resourceFileSystemCreate_input Script
              {| polls := 3; cancelled := false |}
              (plannedData "" true
                 [("throughput_mode", VPrim (PString "provisioned"));
                  ("provisioned_throughput_in_mibps", VPrim (PFloat 4607182418800017408));
                  ("performance_mode", VPrim (PString "maxIO"))])
              scriptedClient
              (scriptedStore None [Some "creating"; Some "available"]))
    as (_ & _ & _ & Hsent & _).
  destruct (Hsent eq_refl) as [rest Hrest].
  exists rest. rewrite Hrest. reflexivity.
Defined.

(** * Further properties of the code *)

(** ** Finding file systems *)

Lemma fold_left_keep (filter : FileSystemDescription.t -> bool)
    (l acc : list (option FileSystemDescription.t)) :
  fold_left
    (fun output v =>
       match v with
       | Some fs => if filter fs then output ++ [Some fs] else output
       | None => output
       end) l acc
  = acc ++ List.filter
             (fun v => match v with Some fs => filter fs | None => false end) l.
Proof.
  revert acc. induction l as [|v l IH]; intros acc; cbn.
  - by rewrite app_nil_r.
  - rewrite IH. destruct v as [fs|]; [|done].
    destruct (filter fs); [|done]. by rewrite <- app_assoc.
Qed.

(** The callback of findFileSystems asks for the next page until the last
    one, so the paginator hands it every page. *)
Lemma eachPage_keep (filter : FileSystemDescription.t -> bool) pages acc :
  eachPage
    (fun output page lastPage =>
       match page with
       | None => (output, negb lastPage)
       | Some page =>
           (fold_left
              (fun output v =>
                 match v with
                 | Some fs => if filter fs then output ++ [Some fs] else output
                 | None => output
                 end)
              (DescribeFileSystemsOutput.FileSystems page) output,
            negb lastPage)
       end)
    pages acc
  = acc ++ keptFileSystems filter pages.
Proof.
  revert acc. induction pages as [|page rest IH]; intros acc.
  - cbn. by rewrite app_nil_r.
  - cbn [eachPage]. destruct page as [page|].
    + rewrite fold_left_keep. destruct rest as [|page' rest'].
      * cbn. by rewrite !app_nil_r.
      * cbn [negb]. rewrite IH. cbn [keptFileSystems flat_map].
        by rewrite <- app_assoc.
    + destruct rest as [|page' rest'].
      * cbn. by rewrite app_nil_r.
      * cbn [negb]. rewrite IH. reflexivity.
Qed.

(** X1: findFileSystems sends one describe request.  The error code
    FileSystemNotFound comes back as a retry.NotFoundError whose LastError
    is the error of the API; any other error comes back as it is; and
    without an error the result holds every non-nil file system of every
    page that passes the filter, in the order of the pages. *)
Theorem findFileSystems_result :
  forall (W : Type) (conn : EFS W) (input : DescribeFileSystemsInput.t)
         (filter : FileSystemDescription.t -> bool) (s : Store W)
         (pages : list (option DescribeFileSystemsOutput.t))
         (err : option error) (w : W),
    DescribeFileSystemsPagesWithContext conn input (world s)
    = ((pages, err), w) ->
    snd (findFileSystems conn input filter s)
    = {| world := w; calls := calls s ++ [CallDescribeFileSystems input];
         tagsOut := tagsOut s |}
    /\ (ErrCodeEquals err ErrCodeFileSystemNotFound = true ->
        fst (findFileSystems conn input filter s)
        = Failure (NotFoundError err 0))
    /\ (forall e, err = Some e ->
        ErrCodeEquals err ErrCodeFileSystemNotFound = false ->
        fst (findFileSystems conn input filter s) = Failure e)
    /\ (err = None ->
        fst (findFileSystems conn input filter s)
        = Success (keptFileSystems filter pages)).
Proof.
  intros W conn input filter s pages err w Hd.
  unfold findFileSystems, invoke. rewrite Hd. rewrite eachPage_keep.
  split_and!.
  - destruct (ErrCodeEquals err _); [done|]. by destruct err.
  - intros ->. done.
  - intros e -> ->. done.
  - intros ->. done.
Qed.

(** Three pages: one with a nil entry, a nil page, and a last page. *)
Lemma findFileSystems_result_witness :
  fst (findFileSystems
         (pagedEFS
            [Some {| DescribeFileSystemsOutput.FileSystems :=
                       [Some (fileSystemIn "fs-1" "available"); None] |};
             None;
             Some {| DescribeFileSystemsOutput.FileSystems :=
                       [Some (fileSystemIn "fs-2" "creating")] |}]
            None)
         {| DescribeFileSystemsInput.CreationToken := None;
            DescribeFileSystemsInput.FileSystemId := None |}
         (fun _ => true)
         {| world := tt; calls := []; tagsOut := [] |})
  = Success [Some (fileSystemIn "fs-1" "available");
             Some (fileSystemIn "fs-2" "creating")].
Proof.
  edestruct (findFileSystems_result unit
               (pagedEFS
                  [Some {| DescribeFileSystemsOutput.FileSystems :=
                             [Some (fileSystemIn "fs-1" "available"); None] |};
                   None;
                   Some {| DescribeFileSystemsOutput.FileSystems :=
                             [Some (fileSystemIn "fs-2" "creating")] |}]
                  None)
               {| DescribeFileSystemsInput.CreationToken := None;
                  DescribeFileSystemsInput.FileSystemId := None |}
               (fun _ => true)
               {| world := tt; calls := []; tagsOut := [] |})
    as (_ & _ & _ & Hok); [reflexivity|].
  rewrite (Hok eq_refl). reflexivity.
Defined.

(** ** Round trips of the flatteners and expanders *)

Lemma nonEmptyStringAt_Some m k v :
  nonEmptyStringAt m k = Some v <-> m !! k = Some (PString v) /\ v <> "".
Proof.
  unfold nonEmptyStringAt, stringAt.
  destruct (m !! k) as [[s| | |]|]; cbn; try (split; [done|by intros [? _]]).
  destruct (String.eqb_spec s "") as [->|Hne]; cbn.
  - split; [done|]. intros [Heq Hv]. by inversion Heq.
  - split.
    + intros Heq. inversion Heq; subst. done.
    + intros [Heq _]. by inversion Heq.
Qed.

Lemma nonEmptyStringAt_not_empty m k : nonEmptyStringAt m k <> Some "".
Proof. intros H. apply nonEmptyStringAt_Some in H as [_ H]. done. Qed.

Lemma expandOne_noEmptyTransition m : noEmptyTransition (expandOne m).
Proof.
  unfold noEmptyTransition, expandOne. cbn.
  split_and!; apply nonEmptyStringAt_not_empty.
Qed.

Lemma nonEmptyStringAt_fmap (m : gmap string prim) k (field : option string) :
  m !! k = PString <$> field -> field <> Some "" ->
  nonEmptyStringAt m k = field.
Proof.
  intros Hk Hne. destruct field as [v|].
  - apply nonEmptyStringAt_Some. split; [done|]. congruence.
  - unfold nonEmptyStringAt, stringAt. rewrite Hk. reflexivity.
Qed.

Lemma expandOne_flattenOne o :
  noEmptyTransition o -> expandOne (flattenOne o) = o.
Proof.
  intros (Ha & Hi & Hp). destruct o as [a i p]. cbn in Ha, Hi, Hp.
  unfold expandOne. f_equal.
  - apply nonEmptyStringAt_fmap; [|done].
    rewrite flattenOne_lookup. by repeat case_decide.
  - apply nonEmptyStringAt_fmap; [|done].
    rewrite flattenOne_lookup. by repeat case_decide.
  - apply nonEmptyStringAt_fmap; [|done].
    rewrite flattenOne_lookup. by repeat case_decide.
Qed.

Lemma expand_flatten_policies (l : list LifecyclePolicy.t) :
  Forall noEmptyTransition l ->
  expandFileSystemLifecyclePolicies
    (flattenFileSystemLifecyclePolicies (Some <$> l))
  = Some <$> l.
Proof.
  intros Hl.
  rewrite flattenFileSystemLifecyclePolicies_omap,
    expandFileSystemLifecyclePolicies_omap.
  induction Hl as [|o l Ho Hl IH]; [reflexivity|].
  cbn. rewrite expandOne_flattenOne by done. f_equal. exact IH.
Qed.

(** X2: what the API reports, flattened into the configuration's list and
    expanded again, is the same list of policies, provided no policy is nil
    and no field points to the empty string. *)
Theorem expand_flatten_FileSystemLifecyclePolicies :
  forall apiObjects : list LifecyclePolicy.t,
    Forall noEmptyTransition apiObjects ->
    expandFileSystemLifecyclePolicies
      (flattenFileSystemLifecyclePolicies (Some <$> apiObjects))
    = Some <$> apiObjects.
Proof. intros l Hl. by apply expand_flatten_policies. Qed.

Lemma expand_flatten_FileSystemLifecyclePolicies_witness :
  expandFileSystemLifecyclePolicies
    (flattenFileSystemLifecyclePolicies
       (Some <$> [ {| LifecyclePolicy.TransitionToArchive := None;
                      LifecyclePolicy.TransitionToIA := Some "AFTER_30_DAYS";
                      LifecyclePolicy.TransitionToPrimaryStorageClass := None |};
                   {| LifecyclePolicy.TransitionToArchive := Some "AFTER_90_DAYS";
                      LifecyclePolicy.TransitionToIA := None;
                      LifecyclePolicy.TransitionToPrimaryStorageClass := None |} ]))
  = Some <$> [ {| LifecyclePolicy.TransitionToArchive := None;
                  LifecyclePolicy.TransitionToIA := Some "AFTER_30_DAYS";
                  LifecyclePolicy.TransitionToPrimaryStorageClass := None |};
               {| LifecyclePolicy.TransitionToArchive := Some "AFTER_90_DAYS";
                  LifecyclePolicy.TransitionToIA := None;
                  LifecyclePolicy.TransitionToPrimaryStorageClass := None |} ].
Proof.
  apply expand_flatten_FileSystemLifecyclePolicies.
  apply Forall_cons_2; [|apply Forall_cons_2; [|apply Forall_nil_2]];
    unfold noEmptyTransition; cbn; split_and!; discriminate.
Defined.

(** X3: expanding is a normalisation.  Whatever the configuration's list
    holds (nil blocks, empty strings, values that are no strings), the
    flattened expansion expands to the same policies again. *)
Theorem expand_flatten_expand_FileSystemLifecyclePolicies :
  forall tfList : list (option (gmap string prim)),
    expandFileSystemLifecyclePolicies
      (flattenFileSystemLifecyclePolicies
         (expandFileSystemLifecyclePolicies tfList))
    = expandFileSystemLifecyclePolicies tfList.
Proof.
  intros tfList.
  assert (Hex : exists l, expandFileSystemLifecyclePolicies tfList = Some <$> l
                          /\ Forall noEmptyTransition l).
  { rewrite expandFileSystemLifecyclePolicies_omap.
    induction tfList as [|[m|] tfList (l & Hl & HF)].
    - exists []. done.
    - exists (expandOne m :: l). cbn. rewrite Hl. split; [done|].
      apply Forall_cons_2; [apply expandOne_noEmptyTransition|done].
    - exists l. done. }
  destruct Hex as (l & -> & HF).
  by apply expand_flatten_policies.
Qed.

(** X4: expandUpdateFileSystemProtectionInput gives nil for a nil map and
    otherwise a request for the given file system; and the block that
    flattenFileSystemProtection wrote expands to a request carrying the
    same ReplicationOverwriteProtection, provided the API did not report
    the empty string. *)
Theorem expand_flatten_FileSystemProtection :
  forall (id : string) (protection : FileSystemProtectionDescription.t),
    FileSystemProtectionDescription.ReplicationOverwriteProtection protection
      <> Some "" ->
    expandUpdateFileSystemProtectionInput id None = None
    /\ (forall tfMap,
          UpdateFileSystemProtectionInput.FileSystemId
            <$> expandUpdateFileSystemProtectionInput id (Some tfMap)
          = Some (Some id))
    /\ exists tfMap,
         flattenFileSystemProtection (Some protection) = [Some tfMap]
         /\ expandUpdateFileSystemProtectionInput id (Some tfMap)
            = Some {| UpdateFileSystemProtectionInput.FileSystemId := Some id;
                      UpdateFileSystemProtectionInput.ReplicationOverwriteProtection :=
                        FileSystemProtectionDescription.ReplicationOverwriteProtection
                          protection |}.
Proof.
  intros id [r] Hne. cbn in Hne. split_and!; [reflexivity|reflexivity|].
  eexists. split; [reflexivity|]. cbn.
  unfold expandUpdateFileSystemProtectionInput. do 2 f_equal.
  apply nonEmptyStringAt_fmap; [|done].
  destruct r; by simplify_map_eq.
Qed.

Lemma expand_flatten_FileSystemProtection_witness :
  expandUpdateFileSystemProtectionInput "fs-1"
    (Some {[ "replication_overwrite" := PString "ENABLED" ]})
  = Some {| UpdateFileSystemProtectionInput.FileSystemId := Some "fs-1";
            UpdateFileSystemProtectionInput.ReplicationOverwriteProtection :=
              Some "ENABLED" |}.
Proof.
  edestruct (expand_flatten_FileSystemProtection "fs-1"
               {| FileSystemProtectionDescription.ReplicationOverwriteProtection :=
                    Some "ENABLED" |})
    as (_ & _ & tfMap & Hflat & Hexp); [discriminate|].
  cbn in Hflat. inversion Hflat; subst tfMap. exact Hexp.
Defined.

(** ** The requests of the waits and of delete *)

Lemma statusFileSystemLifeCycleState_calls {W} (conn : EFS W) id s :
  calls (snd (statusFileSystemLifeCycleState conn id s))
  = calls s ++ [describeByID id].
Proof.
  unfold statusFileSystemLifeCycleState.
  pose proof (FindFileSystemByID_calls conn id s) as Hc.
  destruct (FindFileSystemByID conn id s) as [[fs|e] s1]; cbn in Hc.
  - exact Hc.
  - destruct (notFound e); exact Hc.
Qed.

(** A wait whose refresh sends one request per poll sends that request
    once per poll made, and nothing else. *)
Lemma refreshLoop_calls {W R} (conf : StateChangeConf (Store W) R) c cancel n :
  (forall s, calls (snd (Refresh conf s)) = calls s ++ [c]) ->
  forall tick occ lastState s,
    exists k, (k <= n)%nat /\
      calls (snd (refreshLoop conf cancel n tick occ lastState s))
      = calls s ++ replicate k c.
Proof.
  intros Href. induction n as [|n IH]; intros tick occ lastState s.
  - exists 0%nat. split; [lia|]. cbn. by rewrite app_nil_r.
  - cbn [refreshLoop]. specialize (Href s).
    destruct (Refresh conf s) as [[[res st] err] s1]. cbn [snd] in Href.
    assert (Hone : exists k, (k <= S n)%nat /\
                     calls s1 = calls s ++ replicate k c).
    { exists 1%nat. split; [lia|]. exact Href. }
    assert (Hmore : forall tick occ lastState,
              exists k, (k <= S n)%nat /\
                calls (snd (refreshLoop conf cancel n tick occ lastState s1))
                = calls s ++ replicate k c).
    { intros tick' occ' lastState'.
      destruct (IH tick' occ' lastState' s1) as (k & Hk & Hc).
      exists (S k). split; [lia|]. rewrite Hc, Href.
      by rewrite <- app_assoc. }
    destruct err as [e|]; [exact Hone|].
    destruct res as [r|].
    + destruct (scanTarget _ _ _ _ _) as [[done found] occ'].
      destruct done; [exact Hone|].
      destruct (negb _ && negb _); [exact Hone|apply Hmore].
    + destruct (Nat.eqb (length (Target conf)) 0).
      * destruct (Nat.eqb _ _); [exact Hone|apply Hmore].
      * destruct (Nat.ltb _ _); [exact Hone|apply Hmore].
Qed.

Lemma waitFileSystemAvailable_calls {W} ctx (conn : EFS W) id s :
  exists k, (k <= polls ctx)%nat /\
    calls (snd (waitFileSystemAvailable ctx conn id s))
    = calls s ++ replicate k (describeByID id).
Proof.
  unfold waitFileSystemAvailable, WaitForStateContext.
  match goal with |- context [refreshLoop ?c ?b ?n ?t ?o ?l s] =>
    pose proof (refreshLoop_calls c (describeByID id) b n
                  (statusFileSystemLifeCycleState_calls conn id) t o l s)
      as Hx;
    destruct (refreshLoop c b n t o l s) as [[[out|] err] s1] end; exact Hx.
Qed.

Lemma waitFileSystemDeleted_calls {W} ctx (conn : EFS W) id s :
  exists k, (k <= polls ctx)%nat /\
    calls (snd (waitFileSystemDeleted ctx conn id s))
    = calls s ++ replicate k (describeByID id).
Proof.
  unfold waitFileSystemDeleted, WaitForStateContext.
  match goal with |- context [refreshLoop ?c ?b ?n ?t ?o ?l s] =>
    pose proof (refreshLoop_calls c (describeByID id) b n
                  (statusFileSystemLifeCycleState_calls conn id) t o l s)
      as Hx;
    destruct (refreshLoop c b n t o l s) as [[[out|] err] s1] end; exact Hx.
Qed.

(** X5: the waits only read.  waitFileSystemAvailable and
    waitFileSystemDeleted send describe requests for the given ID, one per
    poll and at most as many as the time allows, and no other request. *)
Theorem waitFileSystem_only_describes :
  forall (W : Type) (ctx : Context) (conn : EFS W) (id : string) (s : Store W),
    (exists k, (k <= polls ctx)%nat /\
       calls (snd (waitFileSystemAvailable ctx conn id s))
       = calls s ++ replicate k (describeByID id))
    /\ (exists k, (k <= polls ctx)%nat /\
          calls (snd (waitFileSystemDeleted ctx conn id s))
          = calls s ++ replicate k (describeByID id)).
Proof.
  intros W ctx conn id s. split.
  - apply waitFileSystemAvailable_calls.
  - apply waitFileSystemDeleted_calls.
Qed.

(** X6: resourceFileSystemDelete sends one delete request for the ID, then
    only the describe requests of its wait, and never changes the resource
    data. *)
Theorem resourceFileSystemDelete_requests :
  forall (W : Type) (ctx : Context) (d : ResourceData) (meta : AWSClient W)
         (s : Store W),
    snd (fst (resourceFileSystemDelete ctx d meta s)) = d
    /\ exists k, (k <= polls ctx)%nat /\
         calls (snd (resourceFileSystemDelete ctx d meta s))
         = calls s ++ CallDeleteFileSystem (Id d)
                        :: replicate k (describeByID (Id d)).
Proof.
  intros W ctx d meta s. unfold resourceFileSystemDelete.
  match goal with |- context [invoke ?c ?op s] =>
    pose proof (invoke_calls c op s) as Hi;
    destruct (invoke c op s) as [err s1] end.
  cbn [snd] in Hi.
  destruct (ErrCodeEquals err ErrCodeFileSystemNotFound).
  { split; [done|]. exists 0%nat. split; [lia|]. exact Hi. }
  destruct err as [err|].
  { split; [done|]. exists 0%nat. split; [lia|]. exact Hi. }
  destruct (waitFileSystemDeleted_calls ctx (EFSConn meta) (Id d) s1)
    as (k & Hk & Hc).
  destruct (waitFileSystemDeleted ctx (EFSConn meta) (Id d) s1)
    as [[out err] s2].
  cbn [snd] in Hc.
  assert (Hcalls : calls s2 = calls s ++ CallDeleteFileSystem (Id d)
                                :: replicate k (describeByID (Id d)))
    by (rewrite Hc, Hi; by rewrite <- app_assoc).
  destruct err as [err|]; (split; [done|]); by exists k.
Qed.

(** ** Reading the file system back *)

Lemma Set__written d key t v :
  schemaType resourceFileSystemSchema key = Some t ->
  typeOf (default (zeroValue t) v) = t ->
  Set_ d key v = (None, written d key (default (zeroValue t) v)).
Proof.
  intros Hk Ht. unfold Set_. rewrite Hk. cbn zeta.
  rewrite bool_decide_eq_true_2 by done. reflexivity.
Qed.

Lemma Set__string d key p :
  schemaType resourceFileSystemSchema key = Some TypeString ->
  Set_ d key (vString p) = (None, written d key (VPrim (PString (StringValue p)))).
Proof.
  intros Hk. rewrite (Set__written d key TypeString) by (done || by destruct p).
  by destruct p.
Qed.

Lemma Set__list d key l :
  schemaType resourceFileSystemSchema key = Some TypeList ->
  Set_ d key (Some (VList l)) = (None, written d key (VList l)).
Proof. intros Hk. by rewrite (Set__written d key TypeList). Qed.

Lemma Set__bool d key p :
  schemaType resourceFileSystemSchema key = Some TypeBool ->
  Set_ d key ((fun b => VPrim (PBool b)) <$> p)
  = (None, written d key (VPrim (PBool (BoolValue p)))).
Proof.
  intros Hk. rewrite (Set__written d key TypeBool) by (done || by destruct p).
  by destruct p.
Qed.

Lemma Set__int d key p :
  schemaType resourceFileSystemSchema key = Some TypeInt ->
  Set_ d key ((fun z => VPrim (PInt z)) <$> p)
  = (None, written d key (VPrim (PInt (Int64Value p)))).
Proof.
  intros Hk. rewrite (Set__written d key TypeInt) by (done || by destruct p).
  by destruct p.
Qed.

Lemma Set__float d key p :
  schemaType resourceFileSystemSchema key = Some TypeFloat ->
  Set_ d key ((fun f => VPrim (PFloat f)) <$> p)
  = (None, written d key (VPrim (PFloat (Int64Value p)))).
Proof.
  intros Hk. rewrite (Set__written d key TypeFloat) by (done || by destruct p).
  by destruct p.
Qed.








(** X8: the errors of a read.  An error of FindFileSystemByID that is not
    a not-found report on a resource that is not new is returned as one
    diagnostic, with the resource data untouched and no further request;
    an error of the lifecycle configuration request is returned as one
    diagnostic, with the ID kept. *)
Theorem resourceFileSystemRead_errors :
  forall (W : Type) (ctx : Context) (d : ResourceData) (meta : AWSClient W)
         (s s1 : Store W),
    (forall e,
       FindFileSystemByID (EFSConn meta) (Id d) s = (Failure e, s1) ->
       negb (IsNewResource d) && notFound e = false ->
       resourceFileSystemRead ctx d meta s
       = (([{| severity := SeverityError;
               summary := Errorf "reading EFS file system (%s): %s"
                            [ArgString (Id d); ArgError e] |}], d), s1)
       /\ calls s1 = calls s ++ [describeByID (Id d)])
    /\ (forall fs e w2,
          FindFileSystemByID (EFSConn meta) (Id d) s = (Success fs, s1) ->
          DescribeLifecycleConfigurationWithContext (EFSConn meta) (Id d)
            (world s1) = (Failure e, w2) ->
          exists d',
            resourceFileSystemRead ctx d meta s
            = (([{| severity := SeverityError;
                    summary :=
                      Errorf
                        "reading EFS file system (%s) lifecycle configuration: %s"
                        [ArgString (Id d); ArgError e] |}], d'),
               {| world := w2;
                  calls := calls s1
                           ++ [CallDescribeLifecycleConfiguration (Id d)];
                  tagsOut := FileSystemDescription.Tags fs |})
            /\ Id d' = Id d).
Proof.
  intros W ctx d meta s s1. split.
  - intros e Hfind Hnot. split.
    + unfold resourceFileSystemRead. rewrite Hfind.
      cbn [errOf NotFound]. rewrite Hnot. reflexivity.
    + pose proof (FindFileSystemByID_calls (EFSConn meta) (Id d) s) as Hc.
      rewrite Hfind in Hc. exact Hc.
  - intros fs e w2 Hfind Hlc. unfold resourceFileSystemRead. rewrite Hfind.
    cbn [errOf NotFound]. rewrite andb_false_r. cbv zeta.
    repeat first
      [ rewrite Set__string by reflexivity
      | rewrite Set__bool by reflexivity
      | rewrite Set__int by reflexivity
      | rewrite Set__float by reflexivity
      | rewrite Set__list by reflexivity
      | progress cbn [snd] ].
    unfold invoke, setTagsOut. cbn [world calls tagsOut Id written rdId].
    change (rdId d) with (Id d). rewrite Hlc.
    eexists. split; [reflexivity|]. reflexivity.
Qed.

(** A throttled describe. *)
Lemma resourceFileSystemRead_errors_witness :
  fst (resourceFileSystemRead {| polls := 5; cancelled := false |}
         (plannedData "fs-1" false [])
         {| EFSConn := pagedEFS [] (Some (awsError "ThrottlingException" "slow down"));
            Region := "us-east-1"; DNSSuffix := "amazonaws.com";
            UniqueId := fun w => ("terraform-1", w); getTagsIn := [] |}
         {| world := tt; calls := []; tagsOut := [] |})
  = ([{| severity := SeverityError;
         summary := Errorf "reading EFS file system (%s): %s"
                      [ArgString "fs-1";
                       ArgError (awsError "ThrottlingException" "slow down")] |}],
     plannedData "fs-1" false []).
Proof.
  edestruct (resourceFileSystemRead_errors unit
               {| polls := 5; cancelled := false |}
               (plannedData "fs-1" false [])
               {| EFSConn := pagedEFS [] (Some (awsError "ThrottlingException"
                                                  "slow down"));
                  Region := "us-east-1"; DNSSuffix := "amazonaws.com";
                  UniqueId := fun w => ("terraform-1", w); getTagsIn := [] |}
               {| world := tt; calls := []; tagsOut := [] |})
    as [Hfind _].
  edestruct Hfind as [Hread _]; [reflexivity|reflexivity|].
  rewrite Hread. reflexivity.
Defined.

(** ** Update *)

(** X9: when neither the throughput, nor the lifecycle policy, nor the
    protection changed, resourceFileSystemUpdate sends no request of its
    own: it does what resourceFileSystemRead does and returns its result. *)
Theorem resourceFileSystemUpdate_no_change :
  forall (W : Type) (ctx : Context) (d : ResourceData) (meta : AWSClient W)
         (s : Store W),
    HasChanges d ["provisioned_throughput_in_mibps"; "throughput_mode"]
    = false ->
    HasChange d "lifecycle_policy" = false ->
    HasChanges d ["protection"] = false ->
    resourceFileSystemUpdate ctx d meta s = resourceFileSystemRead ctx d meta s.
Proof.
  intros W ctx d meta s H1 H2 H3. unfold resourceFileSystemUpdate.
  rewrite H1, H2, H3.
  by destruct (resourceFileSystemRead ctx d meta s) as [[diags d'] s'].
Qed.

Lemma resourceFileSystemUpdate_no_change_witness :
  resourceFileSystemUpdate {| polls := 5; cancelled := false |}
    (plannedData "fs-1" false []) scriptedClient
    (scriptedStore None [Some "available"])
  = resourceFileSystemRead {| polls := 5; cancelled := false |}
      (plannedData "fs-1" false []) scriptedClient
      (scriptedStore None [Some "available"]).
Proof.
  apply resourceFileSystemUpdate_no_change; reflexivity.
Defined.

(** After the lifecycle step, update only sends further requests. *)
Lemma resourceFileSystemUpdate_tail_extends {W} ctx d (meta : AWSClient W)
    (s4 : Store W) :
  extends s4
    (snd
       (let '(diags3, s) :=
          if HasChanges d ["protection"]
          then
            match protectionBlock d with
            | Some tfMap =>
                let input :=
                  expandUpdateFileSystemProtectionInput (Id d) (Some tfMap) in
                let '(err, s) :=
                  invoke (CallUpdateFileSystemProtection input)
                    (UpdateFileSystemProtectionWithContext (EFSConn meta) input)
                    s4 in
                match err with
                | Some err =>
                    (Some (AppendErrorf []
                             "updating EFS file system (%s) protection: %s"
                             [ArgString (Id d); ArgError err]), s)
                | None => (None, s)
                end
            | None => (None, s4)
            end
          else (None, s4) in
        match diags3 with
        | Some diags => ((diags, d), s)
        | None =>
            let '((diags', d), s) := resourceFileSystemRead ctx d meta s in
            (([] ++ diags', d), s)
        end)).
Proof.
  assert (Hread : forall s5 : Store W, extends s4 s5 ->
            extends s4
              (snd (let '((diags', d), s) :=
                      resourceFileSystemRead ctx d meta s5 in
                    (([] ++ diags', d), s)))).
  { intros s5 Hx5.
    pose proof (resourceFileSystemRead_extends ctx d meta s5) as Hr.
    destruct (resourceFileSystemRead ctx d meta s5) as [[diags d1] s6].
    by eapply extends_trans. }
  destruct (HasChanges d ["protection"]); [|apply Hread, extends_refl].
  destruct (protectionBlock d) as [tfMap|]; [|apply Hread, extends_refl].
  cbv zeta.
  match goal with |- context [invoke ?c ?op s4] =>
    pose proof (invoke_extends c op s4) as Hu;
    destruct (invoke c op s4) as [err s5] end.
  cbn [snd] in Hu. destruct err as [err|]; [exact Hu|by apply Hread].
Qed.

Lemma sliceOf_or_empty {A} (l : list A) :
  match sliceOf l with None => Some [] | Some l' => Some l' end = Some l.
Proof. by destruct l. Qed.

(** X10: when the lifecycle policy changed and the throughput did not, the
    first request of update is PutLifecycleConfiguration for the ID with the
    expansion of the configured list, which is never the nil slice (an
    empty list when the block was removed); and when that request fails,
    update returns the error and sends nothing further. *)
Theorem resourceFileSystemUpdate_lifecycle :
  forall (W : Type) (ctx : Context) (d : ResourceData) (meta : AWSClient W)
         (s : Store W),
    HasChanges d ["provisioned_throughput_in_mibps"; "throughput_mode"]
    = false ->
    HasChange d "lifecycle_policy" = true ->
    (exists rest,
       calls (snd (resourceFileSystemUpdate ctx d meta s))
       = calls s
         ++ CallPutLifecycleConfiguration
              {| PutLifecycleConfigurationInput.FileSystemId := Some (Id d);
                 PutLifecycleConfigurationInput.LifecyclePolicies :=
                   Some (expandFileSystemLifecyclePolicies
                           (asList (Get d "lifecycle_policy"))) |}
            :: rest)
    /\ (forall e w,
          PutLifecycleConfigurationWithContext (EFSConn meta)
            {| PutLifecycleConfigurationInput.FileSystemId := Some (Id d);
               PutLifecycleConfigurationInput.LifecyclePolicies :=
                 Some (expandFileSystemLifecyclePolicies
                         (asList (Get d "lifecycle_policy"))) |}
            (world s) = (Some e, w) ->
          resourceFileSystemUpdate ctx d meta s
          = (([{| severity := SeverityError;
                  summary :=
                    Errorf
                      "putting EFS file system (%s) lifecycle configuration: %s"
                      [ArgString (Id d); ArgError e] |}], d),
             {| world := w;
                calls := calls s
                  ++ [CallPutLifecycleConfiguration
                        {| PutLifecycleConfigurationInput.FileSystemId :=
                             Some (Id d);
                           PutLifecycleConfigurationInput.LifecyclePolicies :=
                             Some (expandFileSystemLifecyclePolicies
                                     (asList (Get d "lifecycle_policy"))) |}];
                tagsOut := tagsOut s |})).
Proof.
  intros W ctx d meta s Hthr Hlc. unfold resourceFileSystemUpdate.
  rewrite Hthr, Hlc. cbv zeta. rewrite sliceOf_or_empty. split.
  - match goal with |- context [invoke ?c ?op s] =>
      pose proof (invoke_calls c op s) as Hi;
      destruct (invoke c op s) as [err s4] end.
    cbn [snd] in Hi. destruct err as [err|].
    + exists []. exact Hi.
    + destruct (resourceFileSystemUpdate_tail_extends ctx d meta s4)
        as [new Hnew].
      exists new. transitivity (calls s4 ++ new); [exact Hnew|].
      rewrite Hi. by rewrite <- app_assoc.
  - intros e w Hput. unfold invoke. rewrite Hput. reflexivity.
Qed.

(** The lifecycle block was removed from the configuration. *)
Lemma resourceFileSystemUpdate_lifecycle_witness :
  exists rest,
    calls (snd (resourceFileSystemUpdate {| polls := 5; cancelled := false |}
                  {| rdState :=
                       {[ "lifecycle_policy" :=
                            VList [Some {[ "transition_to_ia"
                                             := PString "AFTER_30_DAYS" ]}] ]};
                     rdPlanned := ∅; rdSet := ∅;
                     rdId := "fs-1"; rdIsNew := false |}
                  scriptedClient (scriptedStore None [Some "available"])))
    = CallPutLifecycleConfiguration
        {| PutLifecycleConfigurationInput.FileSystemId := Some "fs-1";
           PutLifecycleConfigurationInput.LifecyclePolicies := Some [] |}
      :: rest.
Proof.
  edestruct (resourceFileSystemUpdate_lifecycle Script
               {| polls := 5; cancelled := false |}
               {| rdState :=
                    {[ "lifecycle_policy" :=
                         VList [Some {[ "transition_to_ia"
                                          := PString "AFTER_30_DAYS" ]}] ]};
                  rdPlanned := ∅; rdSet := ∅;
                  rdId := "fs-1"; rdIsNew := false |}
               scriptedClient (scriptedStore None [Some "available"]))
    as [[rest Hrest] _]; [vm_compute; reflexivity..|].
  exists rest. rewrite Hrest. reflexivity.
Defined.

(** X11: when the throughput changed, a failed update request ends
    resourceFileSystemUpdate with that error and no further request; and
    when the request succeeds but the wait for "available" fails, update
    ends with the error of the wait, having sent only the update request
    and the describe requests of the wait. *)
Theorem resourceFileSystemUpdate_throughput_errors :
  forall (W : Type) (ctx : Context) (d : ResourceData) (meta : AWSClient W)
         (s : Store W) (err : option error) (w : W),
    HasChanges d ["provisioned_throughput_in_mibps"; "throughput_mode"]
    = true ->
    UpdateFileSystemWithContext (EFSConn meta) (updateFileSystemInput d)
      (world s) = (err, w) ->
    (forall e, err = Some e ->
       resourceFileSystemUpdate ctx d meta s
       = (([{| severity := SeverityError;
               summary := Errorf "updating EFS file system (%s): %s"
                            [ArgString (Id d); ArgError e] |}], d),
          {| world := w;
             calls := calls s ++ [CallUpdateFileSystem (updateFileSystemInput d)];
             tagsOut := tagsOut s |}))
    /\ (forall e,
          err = None ->
          snd (fst (waitFileSystemAvailable ctx (EFSConn meta) (Id d)
                      {| world := w;
                         calls := calls s
                           ++ [CallUpdateFileSystem (updateFileSystemInput d)];
                         tagsOut := tagsOut s |})) = Some e ->
          fst (resourceFileSystemUpdate ctx d meta s)
          = ([{| severity := SeverityError;
                 summary := Errorf "waiting for EFS file system (%s) update: %s"
                              [ArgString (Id d); ArgError e] |}], d)
          /\ exists k, (k <= polls ctx)%nat /\
               calls (snd (resourceFileSystemUpdate ctx d meta s))
               = calls s ++ CallUpdateFileSystem (updateFileSystemInput d)
                              :: replicate k (describeByID (Id d))).
Proof.
  intros W ctx d meta s err w Hchg Hupd. unfold resourceFileSystemUpdate.
  rewrite Hchg. cbv zeta. unfold invoke. rewrite Hupd. split.
  - intros e ->. reflexivity.
  - intros e -> Hwait.
    match goal with |- context [waitFileSystemAvailable ctx ?c ?i ?s2] =>
      destruct (waitFileSystemAvailable_calls ctx c i s2) as (k & Hk & Hc);
      destruct (waitFileSystemAvailable ctx c i s2) as [[out werr] s3] end.
    cbn [fst snd] in Hwait, Hc. subst werr. cbn [fst snd calls] in *.
    split; [reflexivity|]. exists k. split; [done|].
    rewrite Hc. by rewrite <- app_assoc.
Qed.

(** The update request is refused. *)
Lemma resourceFileSystemUpdate_throughput_errors_witness :
  fst (resourceFileSystemUpdate {| polls := 5; cancelled := false |}
         (plannedData "fs-1" false
            [("throughput_mode", VPrim (PString "elastic"))])
         {| EFSConn :=
              {| CreateFileSystemWithContext :=
                   CreateFileSystemWithContext scriptedEFS;
                 DeleteFileSystemWithContext :=
                   DeleteFileSystemWithContext scriptedEFS;
                 DescribeFileSystemsPagesWithContext :=
                   DescribeFileSystemsPagesWithContext scriptedEFS;
                 DescribeLifecycleConfigurationWithContext :=
                   DescribeLifecycleConfigurationWithContext scriptedEFS;
                 PutLifecycleConfigurationWithContext :=
                   PutLifecycleConfigurationWithContext scriptedEFS;
                 UpdateFileSystemWithContext := fun input w =>
                   (Some (awsError "TooManyRequests" "try later"), w);
                 UpdateFileSystemProtectionWithContext :=
                   UpdateFileSystemProtectionWithContext scriptedEFS |};
            Region := "us-east-1"; DNSSuffix := "amazonaws.com";
            UniqueId := fun w => ("terraform-1", w); getTagsIn := [] |}
         (scriptedStore None [Some "available"]))
  = ([{| severity := SeverityError;
         summary := Errorf "updating EFS file system (%s): %s"
                      [ArgString "fs-1";
                       ArgError (awsError "TooManyRequests" "try later")] |}],
     plannedData "fs-1" false [("throughput_mode", VPrim (PString "elastic"))]).
Proof.
  edestruct (resourceFileSystemUpdate_throughput_errors Script
               {| polls := 5; cancelled := false |}
               (plannedData "fs-1" false
                  [("throughput_mode", VPrim (PString "elastic"))])
               {| EFSConn :=
                    {| CreateFileSystemWithContext :=
                         CreateFileSystemWithContext scriptedEFS;
                       DeleteFileSystemWithContext :=
                         DeleteFileSystemWithContext scriptedEFS;
                       DescribeFileSystemsPagesWithContext :=
                         DescribeFileSystemsPagesWithContext scriptedEFS;
                       DescribeLifecycleConfigurationWithContext :=
                         DescribeLifecycleConfigurationWithContext scriptedEFS;
                       PutLifecycleConfigurationWithContext :=
                         PutLifecycleConfigurationWithContext scriptedEFS;
                       UpdateFileSystemWithContext := fun input w =>
                         (Some (awsError "TooManyRequests" "try later"), w);
                       UpdateFileSystemProtectionWithContext :=
                         UpdateFileSystemProtectionWithContext scriptedEFS |};
                  Region := "us-east-1"; DNSSuffix := "amazonaws.com";
                  UniqueId := fun w => ("terraform-1", w); getTagsIn := [] |}
               (scriptedStore None [Some "available"]))
    as [Hfail _]; [vm_compute; reflexivity|reflexivity|].
  rewrite (Hfail _ eq_refl). reflexivity.
Defined.

(** ** Create *)

(** resourceFileSystemRead keeps the ID unless it removes the resource
    from the state. *)
Lemma resourceFileSystemRead_Id {W} ctx d (meta : AWSClient W) s :
  negb (IsNewResource d)
  && NotFound (errOf (fst (FindFileSystemByID (EFSConn meta) (Id d) s)))
  = false ->
  Id (snd (fst (resourceFileSystemRead ctx d meta s))) = Id d.
Proof.
  intros Hkeep. unfold resourceFileSystemRead.
  destruct (FindFileSystemByID (EFSConn meta) (Id d) s) as [found s1].
  cbn [fst] in Hkeep. rewrite Hkeep.
  destruct found as [fs|e]; [|reflexivity]. cbv zeta.
  repeat first
    [ rewrite Set__string by reflexivity
    | rewrite Set__bool by reflexivity
    | rewrite Set__int by reflexivity
    | rewrite Set__float by reflexivity
    | rewrite Set__list by reflexivity
    | progress cbn [snd] ].
  match goal with |- context [invoke ?c ?op ?s0] =>
    destruct (invoke c op s0) as [[policies|err] s2] end.
  - rewrite Set__list by reflexivity. reflexivity.
  - reflexivity.
Qed.

Lemma creationTokenOf_tagsOut {W} d (meta : AWSClient W) s :
  tagsOut (snd (creationTokenOf d meta s)) = tagsOut s.
Proof.
  unfold creationTokenOf. destruct (GetOk d "creation_token") as [v [|]].
  - reflexivity.
  - by destruct (UniqueId meta (world s)).
Qed.

(** X12: the ways resourceFileSystemCreate gives up after sending the
    create request.  When the request fails, the error is returned, the ID
    is not set and no further request is sent; when the request succeeds
    and the wait for "available" fails, the ID is that of the new file
    system, the error of the wait is returned, and beside the create
    request only the describe requests of the wait were sent. *)
Theorem resourceFileSystemCreate_errors :
  forall (W : Type) (ctx : Context) (d : ResourceData) (meta : AWSClient W)
         (s : Store W) (output : result FileSystemDescription.t) (w : W),
    bool_decide (fst (GetOk d "encrypted") = VPrim (PBool false))
    && snd (GetOk d "kms_key_id") = false ->
    CreateFileSystemWithContext (EFSConn meta)
      (createFileSystemInput (fst (creationTokenOf d meta s)) (getTagsIn meta) d)
      (world (snd (creationTokenOf d meta s))) = (output, w) ->
    (forall e, output = Failure e ->
       resourceFileSystemCreate ctx d meta s
       = (([{| severity := SeverityError;
               summary := Errorf "creating EFS file system: %s" [ArgError e] |}],
           d),
          {| world := w;
             calls := calls s
               ++ [CallCreateFileSystem
                     (createFileSystemInput (fst (creationTokenOf d meta s))
                        (getTagsIn meta) d)];
             tagsOut := tagsOut s |}))
    /\ (forall fs e,
          output = Success fs ->
          snd (fst (waitFileSystemAvailable ctx (EFSConn meta)
                      (StringValue (FileSystemDescription.FileSystemId fs))
                      {| world := w;
                         calls := calls s
                           ++ [CallCreateFileSystem
                                 (createFileSystemInput
                                    (fst (creationTokenOf d meta s))
                                    (getTagsIn meta) d)];
                         tagsOut := tagsOut s |}))
          = Some e ->
          fst (resourceFileSystemCreate ctx d meta s)
          = ([{| severity := SeverityError;
                 summary := Errorf "waiting for EFS file system (%s) create: %s"
                              [ArgString (StringValue
                                            (FileSystemDescription.FileSystemId fs));
                               ArgError e] |}],
             SetId (StringValue (FileSystemDescription.FileSystemId fs)) d)
          /\ exists k, (k <= polls ctx)%nat /\
               calls (snd (resourceFileSystemCreate ctx d meta s))
               = calls s
                 ++ CallCreateFileSystem
                      (createFileSystemInput (fst (creationTokenOf d meta s))
                         (getTagsIn meta) d)
                    :: replicate k
                         (describeByID
                            (StringValue
                               (FileSystemDescription.FileSystemId fs)))).
Proof.
  intros W ctx d meta s output w Hok Hcreate.
  unfold resourceFileSystemCreate.
  pose proof (creationTokenOf_calls d meta s) as Hcalls.
  pose proof (creationTokenOf_tagsOut d meta s) as Htags.
  destruct (creationTokenOf d meta s) as [creationToken s1].
  cbn [fst snd] in *.
  destruct (GetOk d "encrypted") as [encrypted hasEncrypted].
  destruct (GetOk d "kms_key_id") as [kmsKeyId hasKmsKeyId].
  cbn [fst snd] in Hok. rewrite Hok.
  unfold invoke. rewrite Hcreate, Hcalls, Htags. split.
  - intros e ->. reflexivity.
  - intros fs e -> Hwait.
    repeat match goal with |- context [Id (SetId ?v ?d0)] =>
      change (Id (SetId v d0)) with v end.
    match goal with |- context [waitFileSystemAvailable ctx ?c ?i ?s2] =>
      destruct (waitFileSystemAvailable_calls ctx c i s2) as (k & Hk & Hc);
      destruct (waitFileSystemAvailable ctx c i s2) as [[out werr] s3] end.
    cbn [fst snd] in Hwait, Hc. subst werr. cbn [fst snd calls] in *.
    split; [reflexivity|]. exists k. split; [done|].
    rewrite Hc. by rewrite <- app_assoc.
Qed.

(** The create request is refused. *)
Lemma resourceFileSystemCreate_errors_witness :
  resourceFileSystemCreate {| polls := 5; cancelled := false |}
    (plannedData "" true [])
    (refusingCreateClient (awsError "FileSystemLimitExceeded" "too many"))
    (scriptedStore None [])
  = (([{| severity := SeverityError;
          summary := Errorf "creating EFS file system: %s"
                       [ArgError (awsError "FileSystemLimitExceeded"
                                    "too many")] |}],
      plannedData "" true []),
     {| world := {| deleteError := None; states := [] |};
        calls := [CallCreateFileSystem
                    {| CreateFileSystemInput.AvailabilityZoneName := None;
                       CreateFileSystemInput.CreationToken :=
                         Some "terraform-20240101000000000000000001";
                       CreateFileSystemInput.Encrypted := None;
                       CreateFileSystemInput.KmsKeyId := None;
                       CreateFileSystemInput.PerformanceMode := None;
                       CreateFileSystemInput.ProvisionedThroughputInMibps := None;
                       CreateFileSystemInput.Tags := [];
                       CreateFileSystemInput.ThroughputMode := Some "bursting" |}];
        tagsOut := [] |}).
Proof.
  edestruct (resourceFileSystemCreate_errors Script
               {| polls := 5; cancelled := false |}
               (plannedData "" true [])
               (refusingCreateClient (awsError "FileSystemLimitExceeded"
                                        "too many"))
               (scriptedStore None []))
    as [Hfail _]; [reflexivity|reflexivity|].
  rewrite (Hfail _ eq_refl). reflexivity.
Defined.

(** X13: once the create request has succeeded on a new resource, the
    resource data that resourceFileSystemCreate returns carries the ID of
    the new file system, whatever happens afterwards: a failed wait, a
    failed lifecycle or protection request, or any outcome of the read. *)
Theorem resourceFileSystemCreate_sets_Id :
  forall (W : Type) (ctx : Context) (d : ResourceData) (meta : AWSClient W)
         (s : Store W) (fs : FileSystemDescription.t) (w : W),
    IsNewResource d = true ->
    bool_decide (fst (GetOk d "encrypted") = VPrim (PBool false))
    && snd (GetOk d "kms_key_id") = false ->
    CreateFileSystemWithContext (EFSConn meta)
      (createFileSystemInput (fst (creationTokenOf d meta s)) (getTagsIn meta) d)
      (world (snd (creationTokenOf d meta s))) = (Success fs, w) ->
    Id (snd (fst (resourceFileSystemCreate ctx d meta s)))
    = StringValue (FileSystemDescription.FileSystemId fs).
Proof.
  intros W ctx d meta s fs w Hnew Hok Hcreate.
  unfold resourceFileSystemCreate.
  destruct (creationTokenOf d meta s) as [creationToken s1].
  cbn [fst snd] in *.
  destruct (GetOk d "encrypted") as [encrypted hasEncrypted].
  destruct (GetOk d "kms_key_id") as [kmsKeyId hasKmsKeyId].
  cbn [fst snd] in Hok. rewrite Hok.
  unfold invoke at 1. rewrite Hcreate.
  set (d1 := SetId (StringValue (FileSystemDescription.FileSystemId fs)) d).
  assert (Hread : forall s5 : Store W,
            Id (snd (fst (let '((diags', d), s) :=
                            resourceFileSystemRead ctx d1 meta s5 in
                          (([] ++ diags', d), s))))
            = StringValue (FileSystemDescription.FileSystemId fs)).
  { intros s5.
    pose proof (resourceFileSystemRead_Id ctx d1 meta s5) as Hid.
    destruct (resourceFileSystemRead ctx d1 meta s5) as [[diags d2] s6].
    cbn [fst snd] in *. rewrite Hid; [reflexivity|].
    unfold d1, IsNewResource, SetId. cbn [rdIsNew].
    unfold IsNewResource in Hnew. rewrite Hnew. reflexivity. }
  destruct (waitFileSystemAvailable ctx (EFSConn meta) (Id d1) _)
    as [[out err] s3].
  destruct err as [err|]; [reflexivity|].
  destruct (GetOk d1 "lifecycle_policy") as [v [|]].
  - match goal with |- context [invoke ?c ?op s3] =>
      destruct (invoke c op s3) as [err s4] end.
    destruct err as [err|]; [reflexivity|].
    destruct (protectionBlock d1) as [tfMap|].
    + match goal with |- context [invoke ?c ?op s4] =>
        destruct (invoke c op s4) as [err s5] end.
      destruct err as [err|]; [reflexivity|apply Hread].
    + apply Hread.
  - destruct (protectionBlock d1) as [tfMap|].
    + match goal with |- context [invoke ?c ?op s3] =>
        destruct (invoke c op s3) as [err s5] end.
      destruct err as [err|]; [reflexivity|apply Hread].
    + apply Hread.
Qed.

(** A create whose file system never shows up as available. *)
Lemma resourceFileSystemCreate_sets_Id_witness :
  Id (snd (fst (resourceFileSystemCreate {| polls := 1; cancelled := false |}
                  (plannedData "" true []) scriptedClient
                  (scriptedStore None [Some "creating"]))))
  = "fs-1".
Proof.
  apply (resourceFileSystemCreate_sets_Id Script
           {| polls := 1; cancelled := false |}
           (plannedData "" true []) scriptedClient
           (scriptedStore None [Some "creating"])
           (fileSystemIn "fs-1" LifeCycleStateCreating)
           {| deleteError := None; states := [Some "creating"] |});
    reflexivity.
Defined.

Lemma expandFileSystemLifecyclePolicies_nil tfList :
  expandFileSystemLifecyclePolicies tfList = [] <-> Forall (fun b => b = None) tfList.
Proof.
  rewrite expandFileSystemLifecyclePolicies_omap. split.
  - induction tfList as [|[m|] tfList IH]; cbn; intros H.
    + apply Forall_nil_2.
    + discriminate H.
    + apply Forall_cons_2; [done|by apply IH].
  - induction 1 as [|b tfList -> _ IH]; [done|]. exact IH.
Qed.

(** X16: the lifecycle step of create.  After the file system became
    available, a configured "lifecycle_policy" makes
    PutLifecycleConfiguration the next request, for the new ID and with the
    expansion of the configured list; its LifecyclePolicies is the nil
    slice exactly when every block of the list is nil. *)
Theorem resourceFileSystemCreate_lifecycle :
  forall (W : Type) (ctx : Context) (d : ResourceData) (meta : AWSClient W)
         (s : Store W) (fs : FileSystemDescription.t) (w : W)
         (out : option FileSystemDescription.t) (s3 : Store W) (v : value),
    bool_decide (fst (GetOk d "encrypted") = VPrim (PBool false))
    && snd (GetOk d "kms_key_id") = false ->
    CreateFileSystemWithContext (EFSConn meta)
      (createFileSystemInput (fst (creationTokenOf d meta s)) (getTagsIn meta) d)
      (world (snd (creationTokenOf d meta s))) = (Success fs, w) ->
    waitFileSystemAvailable ctx (EFSConn meta)
      (StringValue (FileSystemDescription.FileSystemId fs))
      {| world := w;
         calls := calls s
           ++ [CallCreateFileSystem
                 (createFileSystemInput (fst (creationTokenOf d meta s))
                    (getTagsIn meta) d)];
         tagsOut := tagsOut s |}
    = ((out, None), s3) ->
    GetOk d "lifecycle_policy" = (v, true) ->
    (exists rest,
       calls (snd (resourceFileSystemCreate ctx d meta s))
       = calls s3
         ++ CallPutLifecycleConfiguration
              {| PutLifecycleConfigurationInput.FileSystemId :=
                   Some (StringValue (FileSystemDescription.FileSystemId fs));
                 PutLifecycleConfigurationInput.LifecyclePolicies :=
                   sliceOf (expandFileSystemLifecyclePolicies (asList v)) |}
            :: rest)
    /\ (sliceOf (expandFileSystemLifecyclePolicies (asList v)) = None
        <-> Forall (fun b => b = None) (asList v)).
Proof.
  intros W ctx d meta s fs w out s3 v Hok Hcreate Hwait Hlc. split.
  - unfold resourceFileSystemCreate.
    pose proof (creationTokenOf_calls d meta s) as Hcalls.
    pose proof (creationTokenOf_tagsOut d meta s) as Htags.
    destruct (creationTokenOf d meta s) as [creationToken s1].
    cbn [fst snd] in *.
    destruct (GetOk d "encrypted") as [encrypted hasEncrypted].
    destruct (GetOk d "kms_key_id") as [kmsKeyId hasKmsKeyId].
    cbn [fst snd] in Hok. rewrite Hok.
    unfold invoke at 1. rewrite Hcreate, Hcalls, Htags.
    set (d1 := SetId (StringValue (FileSystemDescription.FileSystemId fs)) d).
    change (Id d1) with (StringValue (FileSystemDescription.FileSystemId fs)).
    rewrite Hwait.
    change (GetOk d1 "lifecycle_policy") with (GetOk d "lifecycle_policy").
    rewrite Hlc.
    match goal with |- context [invoke ?c ?op s3] =>
      pose proof (invoke_calls c op s3) as Hi;
      destruct (invoke c op s3) as [err s4] end.
    cbn [snd] in Hi.
    assert (Hgoal : forall s5 : Store W, extends s4 s5 ->
              exists rest, calls s5
                = calls s3
                  ++ CallPutLifecycleConfiguration
                       {| PutLifecycleConfigurationInput.FileSystemId :=
                            Some (StringValue
                                    (FileSystemDescription.FileSystemId fs));
                          PutLifecycleConfigurationInput.LifecyclePolicies :=
                            sliceOf (expandFileSystemLifecyclePolicies
                                       (asList v)) |}
                     :: rest).
    { intros s5 [new Hnew]. exists new. rewrite Hnew, Hi.
      by rewrite <- app_assoc. }
    assert (Hread : forall s5 : Store W, extends s4 s5 ->
              exists rest,
                calls (snd (let '((diags', d), s) :=
                              resourceFileSystemRead ctx d1 meta s5 in
                            (([] ++ diags', d), s)))
                = calls s3
                  ++ CallPutLifecycleConfiguration
                       {| PutLifecycleConfigurationInput.FileSystemId :=
                            Some (StringValue
                                    (FileSystemDescription.FileSystemId fs));
                          PutLifecycleConfigurationInput.LifecyclePolicies :=
                            sliceOf (expandFileSystemLifecyclePolicies
                                       (asList v)) |}
                     :: rest).
    { intros s5 Hx5.
      pose proof (resourceFileSystemRead_extends ctx d1 meta s5) as Hr.
      destruct (resourceFileSystemRead ctx d1 meta s5) as [[diags d2] s6].
      apply Hgoal. by eapply extends_trans. }
    destruct err as [err|]; [apply Hgoal, extends_refl|].
    destruct (protectionBlock d1) as [tfMap|];
      [|apply Hread, extends_refl].
    match goal with |- context [invoke ?c ?op s4] =>
      pose proof (invoke_extends c op s4) as Hu;
      destruct (invoke c op s4) as [err s5] end.
    cbn [snd] in Hu.
    destruct err as [err|]; [by apply Hgoal|by apply Hread].
  - rewrite <- expandFileSystemLifecyclePolicies_nil.
    by destruct (expandFileSystemLifecyclePolicies (asList v)).
Qed.

(** A configuration whose only lifecycle block is empty. *)
Lemma resourceFileSystemCreate_lifecycle_witness :
  exists rest,
    calls (snd (resourceFileSystemCreate {| polls := 3; cancelled := false |}
                  (plannedData "" true [("lifecycle_policy", VList [None])])
                  scriptedClient (scriptedStore None [Some "available"])))
    = [CallCreateFileSystem
         {| CreateFileSystemInput.AvailabilityZoneName := None;
            CreateFileSystemInput.CreationToken :=
              Some "terraform-20240101000000000000000001";
            CreateFileSystemInput.Encrypted := None;
            CreateFileSystemInput.KmsKeyId := None;
            CreateFileSystemInput.PerformanceMode := None;
            CreateFileSystemInput.ProvisionedThroughputInMibps := None;
            CreateFileSystemInput.Tags := [];
            CreateFileSystemInput.ThroughputMode := Some "bursting" |};
       describeByID "fs-1"]
      ++ CallPutLifecycleConfiguration
           {| PutLifecycleConfigurationInput.FileSystemId := Some "fs-1";
              PutLifecycleConfigurationInput.LifecyclePolicies := None |}
         :: rest.
Proof.
  edestruct (resourceFileSystemCreate_lifecycle Script
               {| polls := 3; cancelled := false |}
               (plannedData "" true [("lifecycle_policy", VList [None])])
               scriptedClient (scriptedStore None [Some "available"]))
    as [[rest Hrest] _];
    [reflexivity|reflexivity|vm_compute; reflexivity|reflexivity|].
  exists rest. rewrite Hrest. reflexivity.
Defined.

(** X17: create ends with a read.  When the file system became available
    and neither a lifecycle policy nor a protection block is configured,
    resourceFileSystemCreate returns what resourceFileSystemRead returns for
    the resource data with the new ID, run after the wait. *)
Theorem resourceFileSystemCreate_then_read :
  forall (W : Type) (ctx : Context) (d : ResourceData) (meta : AWSClient W)
         (s : Store W) (fs : FileSystemDescription.t) (w : W)
         (out : option FileSystemDescription.t) (s3 : Store W),
    bool_decide (fst (GetOk d "encrypted") = VPrim (PBool false))
    && snd (GetOk d "kms_key_id") = false ->
    CreateFileSystemWithContext (EFSConn meta)
      (createFileSystemInput (fst (creationTokenOf d meta s)) (getTagsIn meta) d)
      (world (snd (creationTokenOf d meta s))) = (Success fs, w) ->
    waitFileSystemAvailable ctx (EFSConn meta)
      (StringValue (FileSystemDescription.FileSystemId fs))
      {| world := w;
         calls := calls s
           ++ [CallCreateFileSystem
                 (createFileSystemInput (fst (creationTokenOf d meta s))
                    (getTagsIn meta) d)];
         tagsOut := tagsOut s |}
    = ((out, None), s3) ->
    snd (GetOk d "lifecycle_policy") = false ->
    protectionBlock d = None ->
    resourceFileSystemCreate ctx d meta s
    = resourceFileSystemRead ctx
        (SetId (StringValue (FileSystemDescription.FileSystemId fs)) d)
        meta s3.
Proof.
  intros W ctx d meta s fs w out s3 Hok Hcreate Hwait Hlc Hpr.
  unfold resourceFileSystemCreate.
  pose proof (creationTokenOf_calls d meta s) as Hcalls.
  pose proof (creationTokenOf_tagsOut d meta s) as Htags.
  destruct (creationTokenOf d meta s) as [creationToken s1].
  cbn [fst snd] in *.
  destruct (GetOk d "encrypted") as [encrypted hasEncrypted].
  destruct (GetOk d "kms_key_id") as [kmsKeyId hasKmsKeyId].
  cbn [fst snd] in Hok. rewrite Hok.
  unfold invoke at 1. rewrite Hcreate, Hcalls, Htags.
  set (d1 := SetId (StringValue (FileSystemDescription.FileSystemId fs)) d).
  change (Id d1) with (StringValue (FileSystemDescription.FileSystemId fs)).
  rewrite Hwait.
  change (GetOk d1 "lifecycle_policy") with (GetOk d "lifecycle_policy").
  change (protectionBlock d1) with (protectionBlock d).
  destruct (GetOk d "lifecycle_policy") as [v ok]. cbn [snd] in Hlc. subst ok.
  rewrite Hpr.
  by destruct (resourceFileSystemRead ctx d1 meta s3) as [[diags d2] s4].
Qed.

(** A plain file system that is available at the first poll. *)
Lemma resourceFileSystemCreate_then_read_witness :
  fst (fst (resourceFileSystemCreate {| polls := 3; cancelled := false |}
              (plannedData "" true []) scriptedClient
              (scriptedStore None [Some "available"; Some "available"])))
  = [].
Proof.
  erewrite (resourceFileSystemCreate_then_read Script
              {| polls := 3; cancelled := false |}
              (plannedData "" true []) scriptedClient
              (scriptedStore None [Some "available"; Some "available"]));
    [|reflexivity|reflexivity|vm_compute; reflexivity|reflexivity|reflexivity].
  vm_compute. reflexivity.
Defined.

(** ** More on RetryConfigContext *)

(** X14: RetryConfigContext hands its minTimeout and pollInterval to the
    wait only when they are at least one millisecond (smaller and negative
    values leave the fields at zero), hands the timeout over as it is, and
    always waits for the state "success" with "retryableerror" pending. *)
Theorem retryStateChangeConf_timeouts :
  forall (W : Type) (f : RetryFunc W) (raw : Z)
         (delay delayRand minTimeout pollInterval timeout : Duration),
    MinTimeout (retryStateChangeConf raw delay delayRand minTimeout
                  pollInterval timeout f)
    = (if Millisecond <=? minTimeout then minTimeout else 0)
    /\ PollInterval (retryStateChangeConf raw delay delayRand minTimeout
                       pollInterval timeout f)
       = (if Millisecond <=? pollInterval then pollInterval else 0)
    /\ Timeout (retryStateChangeConf raw delay delayRand minTimeout
                  pollInterval timeout f) = timeout
    /\ Pending (retryStateChangeConf raw delay delayRand minTimeout
                  pollInterval timeout f) = ["retryableerror"]
    /\ Target (retryStateChangeConf raw delay delayRand minTimeout
                 pollInterval timeout f) = ["success"].
Proof.
  intros W f raw delay delayRand minTimeout pollInterval timeout.
  assert (Hb : forall d, (0 <? Milliseconds d) = (Millisecond <=? d)).
  { intros d. pose proof (Milliseconds_pos d) as Hd.
    destruct (Z.ltb_spec 0 (Milliseconds d)), (Z.leb_spec Millisecond d);
      try reflexivity; lia. }
  unfold retryStateChangeConf. rewrite !Hb.
  destruct (Millisecond <=? pollInterval), (Millisecond <=? minTimeout),
    (Millisecond <=? delayRand), (Millisecond <=? delay);
    cbn; repeat split; reflexivity.
Qed.

(** In a run of the loop of RetryConfigContext, a call of [f] that returns
    nil is the last one. *)
Lemma retry_refreshLoop_nil_last {W} (f : RetryFunc W) raw delay delayRand
    minTimeout pollInterval timeout cancel n :
  forall tick lastState resultErr log w out resultErr' log' w',
    refreshLoop (retryStateChangeConf raw delay delayRand minTimeout
                   pollInterval timeout (traced f))
      cancel n tick 0 lastState (resultErr, (log, w))
    = (out, (resultErr', (log', w'))) ->
    exists new, log' = log ++ new
      /\ (forall i, new !! i = Some None -> S i = length new)
      /\ (n <> 0%nat -> new <> []).
Proof.
  induction n as [|n IH];
    intros tick lastState resultErr log w out resultErr' log' w' Hrun.
  - cbn in Hrun. inversion Hrun; subst. exists [].
    split; [by rewrite app_nil_r|]. split; [|done].
    intros i Hi. by rewrite lookup_nil in Hi.
  - rewrite retry_refreshLoop_step in Hrun. unfold traced in Hrun.
    destruct (f w) as [[rr|] w1] eqn:Hf.
    + assert (Hstop : exists new, log ++ [Some rr] = log ++ new
                /\ (forall i, new !! i = Some None -> S i = length new)
                /\ (S n <> 0%nat -> new <> [])).
      { exists [Some rr]. split; [done|]. split; [|done].
        intros [|i] Hi; cbn in Hi; discriminate Hi. }
      assert (Hgo : forall tick' lastState' resultErr0,
                refreshLoop (retryStateChangeConf raw delay delayRand minTimeout
                               pollInterval timeout (traced f))
                  cancel n tick' 0 lastState'
                  (resultErr0, (log ++ [Some rr], w1))
                = (out, (resultErr', (log', w'))) ->
                exists new, log' = log ++ new
                  /\ (forall i, new !! i = Some None -> S i = length new)
                  /\ (S n <> 0%nat -> new <> [])).
      { intros tick' lastState' resultErr0 Hrun'.
        apply IH in Hrun' as (new & -> & Hlast & _).
        exists (Some rr :: new). split; [by rewrite <- app_assoc|].
        split; [|done]. intros [|i] Hi; cbn in Hi; [discriminate Hi|].
        apply Hlast in Hi. cbn. lia. }
      destruct (Retryable rr); [by eapply Hgo|].
      destruct (Err rr) as [e|]; [inversion Hrun; subst; exact Hstop|].
      destruct (20 <? S tick)%nat;
        [inversion Hrun; subst; exact Hstop|by eapply Hgo].
    + inversion Hrun; subst. exists [None]. split; [done|]. split; [|done].
      intros [|i] Hi; cbn in Hi; [done|discriminate Hi].
Qed.

(** X15: RetryConfigContext never calls [f] again after [f] returned nil,
    calls [f] at least once when the time allows one poll, and when the
    time allows none it returns the error of the wait (the timeout error,
    or the cancellation of the context) rather than nil. *)
Theorem RetryConfigContext_calls :
  forall (W : Type) (f : RetryFunc W) (ctx : Context) (raw : Z)
         (delay delayRand minTimeout pollInterval timeout : Duration)
         (w : W) (res : option error) (log : list (option RetryError)) (w' : W),
    RetryConfigContext ctx raw delay delayRand minTimeout pollInterval timeout
      (traced f) ([], w) = (res, (log, w')) ->
    (forall i, log !! i = Some None -> S i = length log)
    /\ (polls ctx <> 0%nat -> log <> [])
    /\ (polls ctx = 0%nat ->
        log = []
        /\ res = Some (if cancelled ctx then contextError "context canceled"
                       else TimeoutError None "" timeout ["success"])).
Proof.
  intros W f ctx raw delay delayRand minTimeout pollInterval timeout
    w res log w' Hrun.
  unfold RetryConfigContext, WaitForStateContext in Hrun.
  destruct (refreshLoop _ _ _ _ _ _ _)
    as [[r waitErr] [resultErr [log1 w1]]] eqn:Hloop.
  assert (Hlog : log1 = log) by (destruct resultErr; by inversion Hrun).
  subst log1. split_and!.
  - apply retry_refreshLoop_nil_last in Hloop as (new & Hnew & Hlast & _).
    cbn in Hnew. by subst new.
  - apply retry_refreshLoop_nil_last in Hloop as (new & Hnew & _ & Hne).
    cbn in Hnew. by subst new.
  - intros H0. rewrite H0 in Hloop. cbn in Hloop.
    inversion Hloop; subst. inversion Hrun; subst. split; [done|].
    unfold giveUp.
    destruct (retryStateChangeConf_fields raw delay delayRand minTimeout
                pollInterval timeout (traced f)) as (_ & -> & _ & _ & _ & ->).
    reflexivity.
Qed.

(** No time for a single poll. *)
Lemma RetryConfigContext_calls_witness :
  fst (RetryConfigContext {| polls := 0; cancelled := false |} 7 0 0 0 0 Minute
         (traced (scripted None)) ([], []))
  = Some (TimeoutError None "" Minute ["success"]).
Proof.
  destruct (RetryConfigContext {| polls := 0; cancelled := false |} 7 0 0 0 0
              Minute (traced (scripted None)) ([], []))
    as [res [log w']] eqn:Hrun.
  destruct (RetryConfigContext_calls _ (scripted None)
              {| polls := 0; cancelled := false |} 7 0 0 0 0 Minute []
              res log w' Hrun) as (_ & _ & Hzero).
  destruct (Hzero eq_refl) as [_ ->]. reflexivity.
Defined.
